(** * upload.py: schedule lookup, remote sync and settings store

    A shallow embedding of the non-GUI classes of [upload.py]
    ([Config], [CompanionAPI], [VLCLauncher], [ServiceDataManager]) and
    of the methods of its dialogs and main window that decide what is
    saved, sent and shown, together with the parts of the Python runtime
    they lean on: exceptions, insertion-ordered dictionaries, [sorted],
    [datetime.strptime] with the format ['%d/%m/%Y'],
    [configparser.ConfigParser] and [os.path.splitext].

    Conventions.
    - A Python [str] is a [string]: every character is one code point
      below 256, on which digits, white space and lower case are what
      Python takes them to be.
    - A Python [dict] is an association list in insertion order whose keys
      are pairwise distinct ([dict_wf]).
    - A call that may raise returns a [result]; code that talks to the
      network runs in the [io] monad, which also records every call that
      was attempted. *)

From Stdlib Require Import ZArith List String Ascii Bool Lia.
From Stdlib Require Import Permutation Sorted.
Import ListNotations.

Local Open Scope string_scope.
Local Open Scope Z_scope.

(* ================================================================== *)
(** * Python runtime *)
(* ================================================================== *)

Module Py.

(** The exception classes that the modelled code can meet. *)
Inductive exn_class : Type :=
| Exception
| ValueError | AttributeError | TypeError | IndexError | UnicodeError
| JSONDecodeError
| OSError | ConnectionRefusedError | TimeoutError | gaierror
| FileNotFoundError | PermissionError
| RequestException | ConnectionError | Timeout | HTTPError | InvalidURL
| ConfigParserError | NoSectionError | DuplicateSectionError
| DuplicateOptionError | ParsingError | MissingSectionHeaderError
| InterpolationSyntaxError | InterpolationMissingOptionError
| InterpolationDepthError.

Definition exn_class_eqb (a b : exn_class) : bool :=
  match a, b with
  | Exception, Exception | ValueError, ValueError
  | AttributeError, AttributeError | TypeError, TypeError
  | IndexError, IndexError
  | UnicodeError, UnicodeError | JSONDecodeError, JSONDecodeError
  | OSError, OSError | ConnectionRefusedError, ConnectionRefusedError
  | TimeoutError, TimeoutError | gaierror, gaierror
  | FileNotFoundError, FileNotFoundError
  | PermissionError, PermissionError
  | RequestException, RequestException | ConnectionError, ConnectionError
  | Timeout, Timeout | HTTPError, HTTPError | InvalidURL, InvalidURL
  | ConfigParserError, ConfigParserError | NoSectionError, NoSectionError
  | DuplicateSectionError, DuplicateSectionError
  | DuplicateOptionError, DuplicateOptionError
  | ParsingError, ParsingError
  | MissingSectionHeaderError, MissingSectionHeaderError
  | InterpolationSyntaxError, InterpolationSyntaxError
  | InterpolationMissingOptionError, InterpolationMissingOptionError
  | InterpolationDepthError, InterpolationDepthError => true
  | _, _ => false
  end.

(** The proper base classes of a class, nearest first.
    [requests.RequestException] derives from [IOError], that is [OSError];
    [socket.error], [socket.timeout] and [socket.gaierror] are [OSError],
    [TimeoutError] and a subclass of [OSError]. *)
Definition bases (c : exn_class) : list exn_class :=
  match c with
  | Exception => []
  | ValueError | AttributeError | TypeError | IndexError | OSError
  | ConfigParserError => [Exception]
  | UnicodeError | JSONDecodeError => [ValueError; Exception]
  | ConnectionRefusedError | TimeoutError | gaierror
  | FileNotFoundError | PermissionError => [OSError; Exception]
  | RequestException => [OSError; Exception]
  | ConnectionError | Timeout | HTTPError =>
      [RequestException; OSError; Exception]
  | InvalidURL => [RequestException; OSError; ValueError; Exception]
  | NoSectionError | DuplicateSectionError | DuplicateOptionError
  | ParsingError | InterpolationSyntaxError
  | InterpolationMissingOptionError | InterpolationDepthError =>
      [ConfigParserError; Exception]
  | MissingSectionHeaderError =>
      [ParsingError; ConfigParserError; Exception]
  end.

(** A raised exception: its class and what [str(e)] yields. *)
Record exn : Type := mk_exn { exn_cls : exn_class; exn_str : string }.

Definition isinstance (e : exn) (c : exn_class) : bool :=
  existsb (exn_class_eqb c) (exn_cls e :: bases (exn_cls e)).

(** Outcome of a call: a value, or an exception on its way up. *)
Inductive result (A : Type) : Type :=
| Returned (a : A)
| Raised (e : exn).
Arguments Returned {A} a.
Arguments Raised {A} e.

Definition bind {A B} (r : result A) (k : A -> result B) : result B :=
  match r with
  | Returned a => k a
  | Raised e => Raised e
  end.

(** [try: body except classes: handler]. *)
Definition try_except {A} (body : result A)
    (catches : exn -> bool) (handler : exn -> result A) : result A :=
  match body with
  | Returned a => Returned a
  | Raised e => if catches e then handler e else Raised e
  end.

Fixpoint map_result {A B} (f : A -> result B) (l : list A)
  : result (list B) :=
  match l with
  | [] => Returned []
  | x :: l' =>
      bind (f x) (fun y =>
      bind (map_result f l') (fun ys => Returned (y :: ys)))
  end.

(** A list comprehension [[x for x in l if p(x)]] whose test may raise. *)
Fixpoint filter_result {A} (p : A -> result bool) (l : list A)
  : result (list A) :=
  match l with
  | [] => Returned []
  | x :: l' =>
      bind (p x) (fun keep =>
      bind (filter_result p l') (fun ys =>
      Returned (if keep then x :: ys else ys)))
  end.

(** ** Dictionaries *)

Definition dict (V : Type) : Type := list (string * V).

Definition dict_keys {V} (d : dict V) : list string := map fst d.
Definition dict_items {V} (d : dict V) : list (string * V) := d.
Definition dict_wf {V} (d : dict V) : Prop := NoDup (dict_keys d).

(** [d.get(k)]: [None] when the key is missing. *)
Fixpoint dict_get {V} (d : dict V) (k : string) : option V :=
  match d with
  | [] => None
  | (k', v) :: d' => if String.eqb k' k then Some v else dict_get d' k
  end.

(** [d.get(k, default)]. *)
Definition dict_get_default {V} (d : dict V) (k : string) (default : V) : V :=
  match dict_get d k with
  | Some v => v
  | None => default
  end.

(** [d[k] = v]: overwrite in place, or append a new key at the end. *)
Fixpoint dict_set {V} (d : dict V) (k : string) (v : V) : dict V :=
  match d with
  | [] => [(k, v)]
  | (k', v') :: d' =>
      if String.eqb k' k then (k', v) :: d' else (k', v') :: dict_set d' k v
  end.

Definition dict_has {V} (d : dict V) (k : string) : bool :=
  match dict_get d k with Some _ => true | None => false end.

(** [{k: f(v) for k, v in d.items()}]. *)
Definition map_values {V W} (f : V -> W) (d : dict V) : dict W :=
  map (fun item => (fst item, f (snd item))) d.

(** ** Values decoded from JSON ([Any] in the annotations) *)

#[warnings="-register-all"]
Inductive pyval : Type :=
| PyNone
| PyBool (b : bool)
| PyInt (n : Z)
| PyFloat (literal : string)   (* a float, kept as the text it was read from *)
| PyStr (s : string)
| PyList (items : list pyval)
| PyDict (items : list (string * pyval)).

(** ** [sorted(iterable, key=...)] and [list.sort(key=...)]

    Both compute every key first (the first key that raises aborts the
    call), then sort stably using only [<] on the keys.  The result of a
    stable sort does not depend on the algorithm; insertion from the
    right computes it ([sort_keyed_perm], [sort_keyed_sorted] and
    [sort_keyed_stable] below). *)

Section Sorting.
Context {A K : Type} (lt : K -> K -> bool).

Fixpoint insert_keyed (x : K * A) (l : list (K * A)) : list (K * A) :=
  match l with
  | [] => [x]
  | y :: l' =>
      if lt (fst y) (fst x) then y :: insert_keyed x l' else x :: y :: l'
  end.

Definition sort_keyed (l : list (K * A)) : list (K * A) :=
  fold_right insert_keyed [] l.

Definition sorted (l : list A) (key : A -> result K) : result (list A) :=
  bind (map_result key l) (fun keys =>
  Returned (map snd (sort_keyed (combine keys l)))).
End Sorting.

End Py.

Export Py.

Notation "x <- c1 ;; c2" := (bind c1 (fun x => c2))
  (at level 61, c1 at next level, right associativity).

(* ================================================================== *)
(** * Text operations of [str] and of text files *)
(* ================================================================== *)

Module Text.

Definition LF : ascii := "010"%char.
Definition CR : ascii := "013"%char.
Definition TAB : ascii := "009"%char.

Definition code (c : ascii) : nat := nat_of_ascii c.

(** [c.isspace()], for a code point below 256. *)
Definition isspace (c : ascii) : bool :=
  let n := code c in
  ((9 <=? n) && (n <=? 13) || (28 <=? n) && (n <=? 32)
   || (n =? 133) || (n =? 160))%nat.

(** [c.lower()], for a code point below 256. *)
Definition lower_char (c : ascii) : ascii :=
  let n := code c in
  if ((65 <=? n) && (n <=? 90)
      || (192 <=? n) && (n <=? 222) && negb (n =? 215))%nat
  then ascii_of_nat (n + 32) else c.

Fixpoint lower (s : string) : string :=
  match s with
  | EmptyString => EmptyString
  | String c s' => String (lower_char c) (lower s')
  end.

Fixpoint lstrip (s : string) : string :=
  match s with
  | EmptyString => EmptyString
  | String c s' => if isspace c then lstrip s' else s
  end.

Fixpoint rstrip (s : string) : string :=
  match s with
  | EmptyString => EmptyString
  | String c s' =>
      match rstrip s' with
      | EmptyString => if isspace c then EmptyString else String c EmptyString
      | r => String c r
      end
  end.

Definition strip (s : string) : string := rstrip (lstrip s).

Fixpoint contains (c : ascii) (s : string) : bool :=
  match s with
  | EmptyString => false
  | String c' s' => Ascii.eqb c' c || contains c s'
  end.

Definition is_empty (s : string) : bool :=
  match s with EmptyString => true | String _ _ => false end.

(** [s.replace(c, by)] for a one-character pattern. *)
Fixpoint replace_char (c : ascii) (by_ : string) (s : string) : string :=
  match s with
  | EmptyString => EmptyString
  | String c' s' =>
      if Ascii.eqb c' c then by_ ++ replace_char c by_ s'
      else String c' (replace_char c by_ s')
  end.

(** [sep.join(parts)]. *)
Definition join (sep : string) (parts : list string) : string :=
  String.concat sep parts.

(** The lines of a text, each without its terminator; a final
    terminator does not start another line. *)
Fixpoint split_lines (s : string) : list string :=
  match s with
  | EmptyString => []
  | String c s' =>
      if Ascii.eqb c LF then EmptyString :: split_lines s'
      else match split_lines s' with
           | [] => [String c EmptyString]
           | l :: ls => String c l :: ls
           end
  end.

(** Reading in text mode turns each of ["\r\n"] and ["\r"] into ["\n"]. *)
Fixpoint universal_newlines (s : string) : string :=
  match s with
  | EmptyString => EmptyString
  | String c s' =>
      if Ascii.eqb c CR then
        String LF
          match s' with
          | String c' s'' =>
              if Ascii.eqb c' LF then universal_newlines s''
              else universal_newlines s'
          | EmptyString => EmptyString
          end
      else String c (universal_newlines s')
  end.

(** Writing in text mode: where the platform ends lines with
    ["\r\n"] ([crlf]), each ["\n"] is written so. *)
Definition platform_newlines (crlf : bool) (s : string) : string :=
  if crlf then replace_char LF (String CR (String LF EmptyString)) s else s.

End Text.

(* ================================================================== *)
(** * [datetime]: calendar dates and [strptime(s, '%d/%m/%Y')] *)
(* ================================================================== *)

Module Datetime.

Record date : Type := mk_date { year : Z; month : Z; day : Z }.

(** Dates compare as the tuples [(year, month, day)]. *)
Definition date_lt (a b : date) : bool :=
  (year a <? year b)
  || ((year a =? year b)
      && ((month a <? month b)
          || ((month a =? month b) && (day a <? day b)))).

Definition date_eqb (a b : date) : bool :=
  (year a =? year b) && (month a =? month b) && (day a =? day b).

Definition date_le (a b : date) : bool := date_lt a b || date_eqb a b.
Definition date_ge (a b : date) : bool := date_le b a.

Definition is_leap (y : Z) : bool :=
  (y mod 4 =? 0) && (negb (y mod 100 =? 0) || (y mod 400 =? 0)).

Definition days_in_month (y m : Z) : Z :=
  if (m =? 2) && is_leap y then 29
  else nth (Z.to_nat m) [0; 31; 28; 31; 30; 31; 30; 31; 31; 30; 31; 30; 31] 0.

(** The constructor [date(year, month, day)] checks its arguments. *)
Definition make_date (y m d : Z) : result date :=
  if (1 <=? y) && (y <=? 9999) && (1 <=? m) && (m <=? 12)
     && (1 <=? d) && (d <=? days_in_month y m)
  then Returned (mk_date y m d)
  else Raised (mk_exn ValueError "day is out of range for month").

Definition is_digit (c : ascii) : bool :=
  let n := nat_of_ascii c in (48 <=? n)%nat && (n <=? 57)%nat.

Definition digit_val (c : ascii) : Z := Z.of_nat (nat_of_ascii c) - 48.

Definition in_range (lo hi : Z) (c : ascii) : bool :=
  is_digit c && (lo <=? digit_val c) && (digit_val c <=? hi).

(** The directive [%d] is the regular expression
    [3[0-1]|[1-2]\d|0[1-9]|[1-9]| [1-9]]; the alternatives are tried in
    this order.  Each function returns the matches of its expression
    at the head of the input, in the order the regex engine tries them,
    with the number read and the rest of the input. *)
Definition match_d (s : list ascii) : list (Z * list ascii) :=
  match s with
  | [] => []
  | c1 :: r1 =>
      (match r1 with
       | c2 :: r2 =>
           (if Ascii.eqb c1 "3" && in_range 0 1 c2
            then [(30 + digit_val c2, r2)] else [])
           ++ (if in_range 1 2 c1 && is_digit c2
               then [(10 * digit_val c1 + digit_val c2, r2)] else [])
           ++ (if Ascii.eqb c1 "0" && in_range 1 9 c2
               then [(digit_val c2, r2)] else [])
       | [] => []
       end)
      ++ (if in_range 1 9 c1 then [(digit_val c1, r1)] else [])
      ++ (match r1 with
          | c2 :: r2 =>
              if Ascii.eqb c1 " " && in_range 1 9 c2
              then [(digit_val c2, r2)] else []
          | [] => []
          end)
  end.

(** [%m] is [1[0-2]|0[1-9]|[1-9]]. *)
Definition match_m (s : list ascii) : list (Z * list ascii) :=
  match s with
  | [] => []
  | c1 :: r1 =>
      (match r1 with
       | c2 :: r2 =>
           (if Ascii.eqb c1 "1" && in_range 0 2 c2
            then [(10 + digit_val c2, r2)] else [])
           ++ (if Ascii.eqb c1 "0" && in_range 1 9 c2
               then [(digit_val c2, r2)] else [])
       | [] => []
       end)
      ++ (if in_range 1 9 c1 then [(digit_val c1, r1)] else [])
  end.

(** [%Y] is [\d\d\d\d]. *)
Definition match_Y (s : list ascii) : list (Z * list ascii) :=
  match s with
  | a :: b :: c :: d :: r =>
      if is_digit a && is_digit b && is_digit c && is_digit d
      then [(1000 * digit_val a + 100 * digit_val b
             + 10 * digit_val c + digit_val d, r)]
      else []
  | _ => []
  end.

Definition match_slash (s : list ascii) : list (unit * list ascii) :=
  match s with
  | c :: r => if Ascii.eqb c "/" then [(tt, r)] else []
  | [] => []
  end.

(** Sequencing of two expressions, backtracking into the first. *)
Definition then_ {X Y} (p : list ascii -> list (X * list ascii))
    (q : list ascii -> list (Y * list ascii))
    (s : list ascii) : list ((X * Y) * list ascii) :=
  flat_map (fun '(x, r) => map (fun '(y, r') => ((x, y), r')) (q r)) (p s).

(** The compiled format [%d/%m/%Y]: [re.match] keeps the first match. *)
Definition match_format (s : list ascii)
  : option (Z * Z * Z * list ascii) :=
  match then_ match_d (then_ match_slash
          (then_ match_m (then_ match_slash match_Y))) s with
  | ((d, (_, (m, (_, y)))), rest) :: _ => Some (d, m, y, rest)
  | [] => None
  end.

(** [datetime.strptime(s, '%d/%m/%Y').date()].  The time of day of the
    parsed [datetime] is midnight, so the date decides every comparison. *)
Definition strptime (s : string) : result date :=
  match match_format (list_ascii_of_string s) with
  | None =>
      Raised (mk_exn ValueError "time data does not match format")
  | Some (d, m, y, rest) =>
      match rest with
      | [] => make_date y m d
      | _ :: _ => Raised (mk_exn ValueError "unconverted data remains")
      end
  end.

End Datetime.

Export Datetime.

(* ================================================================== *)
(** * The network, as the program sees it *)
(* ================================================================== *)

Module Net.

(** What the program asks of the outside world, in the order asked. *)
Inductive event : Type :=
| Connect (host : string) (port : Z)
| Get (url : string)
| Post (url : string).

Record response : Type := mk_response { status_code : Z; text : string }.

(** The outside world answers each call, possibly depending on what was
    asked before.  A call either returns or raises. *)
Record network : Type := mk_network {
  connect_answer : list event -> string -> Z -> result unit;
  get_answer : list event -> string -> result response;
  post_answer : list event -> string -> result response
}.

(** A computation that talks to the network: it extends the log of
    attempted calls, also when it ends in an exception. *)
Definition io (A : Type) : Type := list event -> result A * list event.

Definition io_ret {A} (a : A) : io A := fun log => (Returned a, log).

Definition io_bind {A B} (m : io A) (k : A -> io B) : io B :=
  fun log =>
    match m log with
    | (Returned a, log') => k a log'
    | (Raised e, log') => (Raised e, log')
    end.

Definition io_try {A} (body : io A) (catches : exn -> bool)
    (handler : exn -> io A) : io A :=
  fun log =>
    match body log with
    | (Returned a, log') => (Returned a, log')
    | (Raised e, log') =>
        if catches e then handler e log' else (Raised e, log')
    end.

(** [for x in l: acc = body(acc, x)]. *)
Fixpoint io_for {A S} (l : list A) (body : S -> A -> io S) (acc : S)
  : io S :=
  match l with
  | [] => io_ret acc
  | x :: l' => io_bind (body acc x) (io_for l' body)
  end.

(** A step that does not touch the network. *)
Definition io_lift {A} (r : result A) : io A := fun log => (r, log).

(** [response.raise_for_status()]: client and server error statuses
    raise [HTTPError]. *)
Definition raise_for_status (r : response) : result unit :=
  if (400 <=? status_code r) && (status_code r <? 500) then
    Raised (mk_exn HTTPError "Client Error")
  else if (500 <=? status_code r) && (status_code r <? 600) then
    Raised (mk_exn HTTPError "Server Error")
  else Returned tt.

Section Calls.
Variable net : network.

Definition socket_create_connection (host : string) (port : Z) : io unit :=
  fun log =>
    (connect_answer net log host port, (log ++ [Connect host port])%list).

Definition requests_get (url : string) : io response :=
  fun log => (get_answer net log url, (log ++ [Get url])%list).

Definition requests_post (url : string) : io response :=
  fun log => (post_answer net log url, (log ++ [Post url])%list).
End Calls.

End Net.

Export Net.

Notation "x <~ c1 ;; c2" := (io_bind c1 (fun x => c2))
  (at level 61, c1 at next level, right associativity).

(* ================================================================== *)
(** * [class CompanionAPI] *)
(* ================================================================== *)

Module CompanionAPI.

(** [timeout] bounds, in seconds, how long a call may take; a call that
    takes longer raises, which is one of the answers of the network. *)
Record t : Type := mk {
  companion_ip : string;
  base_url : string;
  timeout : Z;
  variable_map : dict string
}.

Definition init (companion_ip : string) : t :=
  {| companion_ip := companion_ip;
     base_url := "http://" ++ companion_ip ++ ":8000/api/custom-variable";
     timeout := 5;
     variable_map :=
       [ ("song1", "9amSong1");
         ("song2", "9amSong2");
         ("song3", "9amSong3");
         ("start", "9amStart");
         ("end", "9amEnd");
         ("communion", "9amCommunion");
         ("song1path", "9amSong1Path");
         ("song2path", "9amSong2Path");
         ("song3path", "9amSong3Path");
         ("startpath", "9amStartPath");
         ("endpath", "9amEndPath");
         ("communionpath", "9amCommunionPath") ] |}.

Section WithNetwork.
Variable net : network.

Definition catches_network_error (e : exn) : bool :=
  isinstance e OSError || isinstance e RequestException.

Definition test_connection (self : t) : io bool :=
  io_try
    (_ <~ socket_create_connection net (companion_ip self) 8000 ;;
     response <~ requests_get net (base_url self ++ "/ServiceDate/value") ;;
     io_ret (status_code response =? 200))
    catches_network_error
    (fun _ => io_ret false).

(** A string is true in a condition when it is not empty. *)
Definition truthy (s : string) : bool := negb (String.eqb s "").

Definition date_url (self : t) (service_date : string) : string :=
  base_url self ++ "/ServiceDate/value?value=" ++ service_date.

Definition field_url (self : t) (var_name value : string) : string :=
  base_url self ++ "/" ++ var_name ++ "/value?value=" ++ value.

(** One turn of the loop over [song_data.items()]. *)
Definition update_field (self : t) (errors : list string)
    (item : string * string) : io (list string) :=
  let '(key, value) := item in
  match dict_get (variable_map self) key with
  | Some var_name =>
      if truthy var_name then
        io_try
          (_ <~ requests_post net (field_url self var_name value) ;;
           io_ret errors)
          (fun e => isinstance e RequestException)
          (fun e => io_ret (app errors [var_name ++ ": " ++ exn_str e]))
      else io_ret errors
  | None => io_ret errors
  end.

(** [song_data] is a [Dict[str, str]], as annotated: a value goes into
    the URL as it is. *)
Definition update_service_data (self : t) (song_data : dict string)
    (service_date : string) : io (list string) :=
  errors <~
    io_try
      (_ <~ requests_post net (date_url self service_date) ;; io_ret [])
      (fun e => isinstance e RequestException)
      (fun e => io_ret ["ServiceDate: " ++ exn_str e]) ;;
  io_for (dict_items song_data) (update_field self) errors.

(** The failure is logged; the log of the program is not modelled. *)
Definition get_current_service_date (self : t) : io (option string) :=
  io_try
    (response <~ requests_get net (base_url self ++ "/ServiceDate/value") ;;
     _ <~ io_lift (raise_for_status response) ;;
     io_ret (Some (Text.strip (text response))))
    (fun e => isinstance e RequestException)
    (fun _ => io_ret None).

End WithNetwork.

End CompanionAPI.

(* ================================================================== *)
(** * [class ServiceDataManager] *)
(* ================================================================== *)

Module ServiceDataManager.

(** The schedule file on disk, as [load_data] meets it. *)
Inductive file : Type :=
| Missing                      (* [exists()] is false *)
| Unreadable (e : exn)         (* [open] raises *)
| Content (text : string).

Record t : Type := mk { json_path : string; data : pyval }.

Definition song_keys : list string :=
  [ "song1"; "song2"; "song3"; "start"; "end"; "communion";
    "song1path"; "song2path"; "song3path"; "startpath"; "endpath";
    "communionpath" ].

Section WithJson.
(** [json.load] applied to the text of the file: the decoded value, or
    the exception of the decoder. *)
Variable json_load : string -> result pyval.
Variable fs : string -> file.

(** The body of the [try] in [load_data]: the new state with the value
    returned.  Nothing is assigned before the last call that can raise. *)
Definition load_data_body (self : t) : result (t * bool) :=
  match fs (json_path self) with
  | Content text =>
      v <- json_load text ;;
      Returned ({| json_path := json_path self; data := v |}, true)
  | Unreadable e => Raised e
  | Missing => Returned (self, false)
  end.

Definition load_data (self : t) : result (t * bool) :=
  try_except (load_data_body self)
    (fun e => isinstance e Exception)
    (fun _ => Returned (self, false)).

Definition init (json_path : string) : result t :=
  r <- load_data {| json_path := json_path; data := PyDict [] |} ;;
  Returned (fst r).
End WithJson.

(** [self.data.keys()] and [self.data.items()] need a dictionary. *)
Definition as_dict (v : pyval) : result (dict pyval) :=
  match v with
  | PyDict d => Returned d
  | _ => Raised (mk_exn AttributeError "object has no such attribute")
  end.

Definition get_sorted_dates (self : t) : result (list string) :=
  d <- as_dict (data self) ;;
  sorted date_lt (dict_keys d) strptime.

(** [l[0]]. *)
Definition first {A} (l : list A) : result A :=
  match l with
  | x :: _ => Returned x
  | [] => Raised (mk_exn IndexError "list index out of range")
  end.

(** [today] stands for [datetime.today().date()]. *)
Definition find_nearest_upcoming_service (self : t) (today : date)
  : result (option (string * pyval)) :=
  d <- as_dict (data self) ;;
  future_events <-
    filter_result
      (fun item : string * pyval =>
         dt <- strptime (fst item) ;; Returned (date_ge dt today))
      (dict_items d) ;;
  match future_events with
  | _ :: _ =>
      future_events <-
        sorted date_lt future_events (fun x => strptime (fst x)) ;;
      x <- first future_events ;;
      Returned (Some x)
  | [] => Returned None
  end.

Definition extract_song_data (event_data : pyval) : result (dict pyval) :=
  d <- as_dict event_data ;;
  Returned
    (map (fun key => (key, dict_get_default d key (PyStr "none")))
       song_keys).

Definition get_service_data (self : t) (date_str : string)
  : result (dict pyval) :=
  d <- as_dict (data self) ;;
  extract_song_data (dict_get_default d date_str (PyDict [])).

End ServiceDataManager.

(* ================================================================== *)
(** * [configparser.ConfigParser], with its default settings *)
(* ================================================================== *)

Module ConfigParser.

Import Text.

(** The defaults: delimiters [=] and [:], comment prefixes [#] and [;],
    no inline comments, [strict], empty lines allowed in values, the
    default section [DEFAULT], and [BasicInterpolation]. *)
Record t : Type := mk { defaults : dict string; sections : dict (dict string) }.

Definition empty : t := {| defaults := []; sections := [] |}.

Definition default_section : string := "DEFAULT".

Definition optionxform (opt : string) : string := lower opt.

Definition has_section (p : t) (section : string) : bool :=
  dict_has (sections p) section.

Definition add_section (p : t) (section : string) : result t :=
  if String.eqb section default_section then
    Raised (mk_exn ValueError "Invalid section name")
  else if dict_has (sections p) section then
    Raised (mk_exn DuplicateSectionError "Section already exists")
  else
    Returned {| defaults := defaults p;
                sections := dict_set (sections p) section [] |}.

(** ** Interpolation *)

(** [value.replace('%%', '')]. *)
Fixpoint remove_escaped_percent (s : string) : string :=
  match s with
  | EmptyString => EmptyString
  | String c s1 =>
      match s1 with
      | String c2 s2 =>
          if Ascii.eqb c "%" && Ascii.eqb c2 "%"
          then remove_escaped_percent s2
          else String c (remove_escaped_percent s1)
      | EmptyString => s
      end
  end.

(** No ['%'] is left once every match of [%\(([^)]+)\)s] is deleted:
    scanning from the left, each ['%'] met opens such a reference. *)
Fixpoint only_references (s : string) : bool :=
  match s with
  | EmptyString => true
  | String c s1 =>
      if Ascii.eqb c "%" then
        match s1 with
        | String c2 s2 => Ascii.eqb c2 "(" && in_reference false s2
        | EmptyString => false
        end
      else only_references s1
  end
with in_reference (some_name : bool) (s : string) : bool :=
  match s with
  | EmptyString => false
  | String c s1 =>
      if Ascii.eqb c ")" then
        some_name
        && match s1 with
           | String c2 s2 => Ascii.eqb c2 "s" && only_references s2
           | EmptyString => false
           end
      else in_reference true s1
  end.

(** [BasicInterpolation.before_set]. *)
Definition before_set (value : string) : result string :=
  if only_references (remove_escaped_percent value) then Returned value
  else Raised (mk_exn ValueError "invalid interpolation syntax").

Definition MAX_INTERPOLATION_DEPTH : nat := 10.

Section Interpolate.
(** [map[var]], and the expansion of a value one level deeper. *)
Variable lookup : string -> option string.
Variable deeper : string -> result string.

Definition syntax_error {A} : result A :=
  Raised (mk_exn InterpolationSyntaxError "bad interpolation syntax").

(** The loop of [_interpolate_some] over [rest]. *)
Fixpoint scan (rest : string) : result string :=
  match rest with
  | EmptyString => Returned EmptyString
  | String c r1 =>
      if Ascii.eqb c "%" then
        match r1 with
        | String c2 r2 =>
            if Ascii.eqb c2 "%" then
              out <- scan r2 ;; Returned (String "%" out)
            else if Ascii.eqb c2 "(" then scan_name EmptyString r2
            else syntax_error
        | EmptyString => syntax_error
        end
      else out <- scan r1 ;; Returned (String c out)
  end
with scan_name (name : string) (rest : string) : result string :=
  match rest with
  | EmptyString => syntax_error
  | String c r1 =>
      if Ascii.eqb c ")" then
        if is_empty name then syntax_error
        else
          match r1 with
          | String c2 r2 =>
              if Ascii.eqb c2 "s" then
                match lookup (optionxform name) with
                | None =>
                    Raised (mk_exn InterpolationMissingOptionError
                              "Bad value substitution")
                | Some v =>
                    v' <- (if contains "%" v then deeper v else Returned v) ;;
                    out <- scan r2 ;;
                    Returned (v' ++ out)
                end
              else syntax_error
          | EmptyString => syntax_error
          end
      else scan_name (name ++ String c EmptyString) r1
  end.
End Interpolate.

(** [_interpolate_some] at a depth that leaves [budget] levels. *)
Fixpoint interpolate_some (lookup : string -> option string)
    (budget : nat) (rest : string) : result string :=
  match budget with
  | O => Raised (mk_exn InterpolationDepthError
                   "Recursion limit exceeded in value substitution")
  | S budget' => scan lookup (interpolate_some lookup budget') rest
  end.

Definition before_get (lookup : string -> option string) (value : string)
  : result string :=
  interpolate_some lookup MAX_INTERPOLATION_DEPTH value.

(** ** Reading options *)

(** The section's own options first, then those of [DEFAULT]. *)
Definition chain_get (sectiondict defaults : dict string) (opt : string)
  : option string :=
  match dict_get sectiondict opt with
  | Some v => Some v
  | None => dict_get defaults opt
  end.

(** [_unify_values]; [None] stands for [NoSectionError]. *)
Definition unify_values (p : t) (section : string) : option (dict string) :=
  match dict_get (sections p) section with
  | Some sectiondict => Some sectiondict
  | None => if String.eqb section default_section then Some [] else None
  end.

(** [get(section, option, fallback=...)]. *)
Definition get (p : t) (section opt fallback : string) : result string :=
  match unify_values p section with
  | None => Returned fallback
  | Some sectiondict =>
      match chain_get sectiondict (defaults p) (optionxform opt) with
      | None => Returned fallback
      | Some value => before_get (chain_get sectiondict (defaults p)) value
      end
  end.

Definition convert_to_boolean (value : string) : result bool :=
  let v := lower value in
  if existsb (String.eqb v) ["1"; "yes"; "true"; "on"] then Returned true
  else if existsb (String.eqb v) ["0"; "no"; "false"; "off"]
       then Returned false
       else Raised (mk_exn ValueError "Not a boolean").

(** [getboolean(section, option, fallback=...)]. *)
Definition getboolean (p : t) (section opt : string) (fallback : bool)
  : result bool :=
  match unify_values p section with
  | None => Returned fallback
  | Some sectiondict =>
      match chain_get sectiondict (defaults p) (optionxform opt) with
      | None => Returned fallback
      | Some value =>
          v <- before_get (chain_get sectiondict (defaults p)) value ;;
          convert_to_boolean v
      end
  end.

(** ** Setting options *)

(** [set(section, option, value)]. *)
Definition set (p : t) (section opt value : string) : result t :=
  _ <- (if is_empty value then Returned value else before_set value) ;;
  if is_empty section || String.eqb section default_section then
    Returned {| defaults := dict_set (defaults p) (optionxform opt) value;
                sections := sections p |}
  else
    match dict_get (sections p) section with
    | Some sectdict =>
        Returned
          {| defaults := defaults p;
             sections :=
               dict_set (sections p) section
                 (dict_set sectdict (optionxform opt) value) |}
    | None => Raised (mk_exn NoSectionError "No section")
    end.

(** The loop of [read_dict] over the options of one section. *)
Fixpoint set_all (p : t) (section : string) (items : dict string)
    (added : list string) : result t :=
  match items with
  | [] => Returned p
  | (key, value) :: items' =>
      let key := optionxform key in
      if existsb (String.eqb key) added then
        Raised (mk_exn DuplicateOptionError "option already exists")
      else
        p' <- set p section key value ;;
        set_all p' section items' (key :: added)
  end.

(** [parser[section] = items]: the section is emptied or created, then
    filled. *)
Definition setitem (p : t) (section : string) (items : dict string)
  : result t :=
  let cleared :=
    if String.eqb section default_section then
      {| defaults := []; sections := sections p |}
    else
      {| defaults := defaults p;
         sections := dict_set (sections p) section [] |} in
  set_all cleared section items [].

(** ** Writing *)

Definition NL : string := String LF EmptyString.

Definition write_option (item : string * string) : string :=
  fst item ++ " = "
  ++ replace_char LF (String LF (String TAB EmptyString)) (snd item) ++ NL.

Definition write_section (section : string * dict string) : string :=
  "[" ++ fst section ++ "]" ++ NL
  ++ String.concat "" (map write_option (snd section)) ++ NL.

(** [write(fp)]. *)
Definition write (p : t) : string :=
  (match defaults p with
   | [] => ""
   | _ :: _ => write_section (default_section, defaults p)
   end)
  ++ String.concat "" (map write_section (sections p)).

(** ** Reading *)

(** While a file is read, the value of an option met in the file is the
    list of its lines; the values already in the parser are strings. *)
Inductive cell : Type :=
| Str (s : string)
| Lines (l : list string).

Record read_state : Type := mk_read_state {
  rs_defaults : dict cell;
  rs_sections : dict (dict cell);
  cursect : option string;        (* the section being filled, by name *)
  optname : option string;
  indent_level : nat;
  added_sections : list string;
  added_options : list (string * string);
  parse_error : bool              (* a [ParsingError] is pending *)
}.

(** The dictionary [cursect] stands for. *)
Definition section_cells (st : read_state) (sectname : string) : dict cell :=
  match dict_get (rs_sections st) sectname with
  | Some d => d
  | None => rs_defaults st
  end.

Definition put_cell (st : read_state) (sectname opt : string) (c : cell)
  : read_state :=
  let d := dict_set (section_cells st sectname) opt c in
  if dict_has (rs_sections st) sectname then
    mk_read_state (rs_defaults st) (dict_set (rs_sections st) sectname d)
      (cursect st) (optname st) (indent_level st)
      (added_sections st) (added_options st) (parse_error st)
  else
    mk_read_state d (rs_sections st)
      (cursect st) (optname st) (indent_level st)
      (added_sections st) (added_options st) (parse_error st).

(** [cursect is not None and optname]: the option that a further line
    would extend. *)
Definition open_option (st : read_state) : option (string * string) :=
  match cursect st, optname st with
  | Some sectname, Some opt =>
      if is_empty opt then None else Some (sectname, opt)
  | _, _ => None
  end.

(** [cursect[optname].append(line)]. *)
Definition append_line (st : read_state) (sectname opt line : string)
  : result read_state :=
  match dict_get (section_cells st sectname) opt with
  | Some (Lines l) =>
      Returned (put_cell st sectname opt (Lines (l ++ [line])))
  | Some (Str _) =>
      Raised (mk_exn AttributeError "'str' object has no attribute 'append'")
  | None => Raised (mk_exn Exception "KeyError")
  end.

(** The number of white characters a line starts with. *)
Fixpoint indent_of (line : string) : nat :=
  match line with
  | String c s => if isspace c then S (indent_of s) else O
  | EmptyString => O
  end.

Definition starts_with (c : ascii) (s : string) : bool :=
  match s with
  | String c' _ => Ascii.eqb c' c
  | EmptyString => false
  end.

Definition is_comment (stripped : string) : bool :=
  starts_with "#" stripped || starts_with ";" stripped.

(** What precedes the last [']'] of [s], if there is one. *)
Fixpoint before_last_bracket (s : string) : option string :=
  match s with
  | EmptyString => None
  | String c s' =>
      match before_last_bracket s' with
      | Some h => Some (String c h)
      | None => if Ascii.eqb c "]" then Some EmptyString else None
      end
  end.

(** [SECTCRE.match]: the pattern is [\[(?P<header>.+)\]]. *)
Definition section_header (value : string) : option string :=
  match value with
  | String c rest =>
      if Ascii.eqb c "[" then
        match before_last_bracket rest with
        | Some header => if is_empty header then None else Some header
        | None => None
        end
      else None
  | EmptyString => None
  end.

Definition is_delimiter (c : ascii) : bool :=
  Ascii.eqb c "=" || Ascii.eqb c ":".

(** The text before the first delimiter and the text after it. *)
Fixpoint split_at_delimiter (s : string) : option (string * string) :=
  match s with
  | EmptyString => None
  | String c s' =>
      if is_delimiter c then Some (EmptyString, s')
      else match split_at_delimiter s' with
           | Some (k, v) => Some (String c k, v)
           | None => None
           end
  end.

(** [OPTCRE.match]: an option name matched lazily, optional blanks, the
    first delimiter, optional blanks, and the rest of the line as the
    value.  The name ends where the blanks before the delimiter start. *)
Definition option_line (value : string) : option (string * string) :=
  match split_at_delimiter value with
  | Some (k, v) => Some (rstrip k, lstrip v)
  | None => None
  end.

Definition with_cursor (st : read_state) (sectname : option string)
    (opt : option string) : read_state :=
  mk_read_state (rs_defaults st) (rs_sections st) sectname opt
    (indent_level st) (added_sections st) (added_options st)
    (parse_error st).

Definition with_indent (st : read_state) (level : nat) : read_state :=
  mk_read_state (rs_defaults st) (rs_sections st) (cursect st) (optname st)
    level (added_sections st) (added_options st) (parse_error st).

Definition with_error (st : read_state) (failed : bool) : read_state :=
  mk_read_state (rs_defaults st) (rs_sections st) (cursect st) (optname st)
    (indent_level st) (added_sections st) (added_options st) failed.

(** A section header was read. *)
Definition enter_section (st : read_state) (sectname : string)
  : result read_state :=
  if dict_has (rs_sections st) sectname then
    if existsb (String.eqb sectname) (added_sections st) then
      Raised (mk_exn DuplicateSectionError "section already exists")
    else
      Returned
        (mk_read_state (rs_defaults st) (rs_sections st)
           (Some sectname) None (indent_level st)
           (sectname :: added_sections st) (added_options st)
           (parse_error st))
  else if String.eqb sectname default_section then
    Returned (with_cursor st (Some sectname) None)
  else
    Returned
      (mk_read_state (rs_defaults st)
         (dict_set (rs_sections st) sectname [])
         (Some sectname) None (indent_level st)
         (sectname :: added_sections st) (added_options st)
         (parse_error st)).

(** A line that is neither a continuation nor a header. *)
Definition enter_option (st : read_state) (value : string)
  : result read_state :=
  match cursect st with
  | None =>
      Raised (mk_exn MissingSectionHeaderError
                "File contains no section headers")
  | Some sectname =>
      match option_line value with
      | Some (opt, optval) =>
          let failed := parse_error st || is_empty opt in
          let opt := optionxform (rstrip opt) in
          if existsb
               (fun a => String.eqb (fst a) sectname
                         && String.eqb (snd a) opt)
               (added_options st)
          then Raised (mk_exn DuplicateOptionError "option already exists")
          else
            Returned
              (put_cell
                 (mk_read_state (rs_defaults st) (rs_sections st)
                    (Some sectname) (Some opt) (indent_level st)
                    (added_sections st)
                    ((sectname, opt) :: added_options st) failed)
                 sectname opt (Lines [strip optval]))
      | None => Returned (with_error st true)
      end
  end.

(** One turn of the loop of [_read]. *)
Definition read_line (st : read_state) (line : string) : result read_state :=
  let value := strip line in
  if is_comment value then Returned st
  else if is_empty value then
    match open_option st with
    | Some (sectname, opt) => append_line st sectname opt ""
    | None => Returned st
    end
  else
    let cur_indent_level := indent_of line in
    let continued :=
      match open_option st with
      | Some (sectname, opt) =>
          if (indent_level st <? cur_indent_level)%nat
          then Some (sectname, opt) else None
      | None => None
      end in
    match continued with
    | Some (sectname, opt) => append_line st sectname opt value
    | None =>
        let st := with_indent st cur_indent_level in
        match section_header value with
        | Some sectname => enter_section st sectname
        | None => enter_option st value
        end
    end.

Fixpoint read_lines (st : read_state) (lines : list string)
  : result read_state :=
  match lines with
  | [] => Returned st
  | line :: lines' => st' <- read_line st line ;; read_lines st' lines'
  end.

(** [_join_multiline_values]. *)
Definition join_cell (c : cell) : string :=
  match c with
  | Lines l => rstrip (join NL l)
  | Str s => s
  end.

Definition join_cells (d : dict cell) : dict string :=
  map_values join_cell d.

Definition as_cells (d : dict string) : dict cell := map_values Str d.

(** [_read(fp)], for the text [fp] yields. *)
Definition read_text (p : t) (text : string) : result t :=
  st <- read_lines
          (mk_read_state (as_cells (defaults p))
             (map_values as_cells (sections p))
             None None 0 [] [] false)
          (split_lines text) ;;
  if parse_error st then
    Raised (mk_exn ParsingError "Source contains parsing errors")
  else
    Returned
      {| defaults := join_cells (rs_defaults st);
         sections := map_values join_cells (rs_sections st) |}.

(** [read(filename)]: a file that cannot be opened is passed over. *)
Definition read (p : t) (file : option string) : result t :=
  match file with
  | Some content => read_text p (universal_newlines content)
  | None => Returned p
  end.

End ConfigParser.

(* ================================================================== *)
(** * [class Config] *)
(* ================================================================== *)

Module Config.

Import Text.

Record t : Type := mk { config : ConfigParser.t }.

(** The settings file [uploadsettings.ini]: absent, or its content.
    Directories can be created and the file can be opened for writing. *)
Definition settings_file : Type := option string.

Section WithPlatform.
(** Whether the platform writes ["
"] as ["
"]. *)
Variable crlf : bool.

(** A method that may write the file: its outcome and the file after. *)
Definition saving (A : Type) : Type := result A * settings_file.

Definition save_config (self : t) : settings_file :=
  Some (platform_newlines crlf (ConfigParser.write (config self))).

Definition ensure_config_exists (self : t) (file : settings_file)
  : saving t :=
  match file with
  | Some _ => (Returned self, file)
  | None =>
      match
        (c <- ConfigParser.setitem (config self) "Paths"
                [("SaveFolderPath", "")] ;;
         c <- ConfigParser.setitem c "Companion" [("CompanionIP", "")] ;;
         ConfigParser.setitem c "UI" [("ShowRefreshButton", "False")])
      with
      | Returned c => (Returned {| config := c |},
                       save_config {| config := c |})
      | Raised e => (Raised e, file)
      end
  end.

Definition load_config (self : t) (file : settings_file) : result t :=
  c <- ConfigParser.read (config self) file ;;
  Returned {| config := c |}.

(** [Config()]. *)
Definition init (file : settings_file) : saving t :=
  match ensure_config_exists {| config := ConfigParser.empty |} file with
  | (Returned self, file') => (load_config self file', file')
  | (Raised e, file') => (Raised e, file')
  end.

Definition get_save_folder (self : t) : result string :=
  ConfigParser.get (config self) "Paths" "SaveFolderPath" "".

Definition get_companion_ip (self : t) : result string :=
  ConfigParser.get (config self) "Companion" "CompanionIP" "".

Definition get_show_refresh_button (self : t) : result bool :=
  ConfigParser.getboolean (config self) "UI" "ShowRefreshButton" false.

(** [str(b)]. *)
Definition str_of_bool (b : bool) : string :=
  if b then "True" else "False".

Definition ensure_section (c : ConfigParser.t) (section : string)
  : result ConfigParser.t :=
  if ConfigParser.has_section c section then Returned c
  else ConfigParser.add_section c section.

Definition update_settings (self : t) (save_folder companion_ip : string)
    (show_refresh : bool) (file : settings_file) : saving t :=
  match
    (c <- ensure_section (config self) "Paths" ;;
     c <- ensure_section c "Companion" ;;
     c <- ensure_section c "UI" ;;
     c <- ConfigParser.set c "Paths" "SaveFolderPath" save_folder ;;
     c <- ConfigParser.set c "Companion" "CompanionIP" companion_ip ;;
     ConfigParser.set c "UI" "ShowRefreshButton" (str_of_bool show_refresh))
  with
  | Returned c => (Returned {| config := c |}, save_config {| config := c |})
  | Raised e => (Raised e, file)
  end.

Definition is_valid (self : t) : result bool :=
  save_folder <- get_save_folder self ;;
  if is_empty save_folder then Returned false
  else
    companion_ip <- get_companion_ip self ;;
    Returned (negb (is_empty companion_ip)).

End WithPlatform.

End Config.

(* ================================================================== *)
(** * [os.path.splitext] *)
(* ================================================================== *)

Module OsPath.

(** [s.rfind(c)]: the index of the last [c] in [s], or -1. *)
Fixpoint rfind (c : ascii) (s : string) : Z :=
  match s with
  | EmptyString => -1
  | String c' s' =>
      let r := rfind c s' in
      if 0 <=? r then r + 1 else if Ascii.eqb c' c then 0 else -1
  end.

(** [s[:n]] and [s[n:]]. *)
Fixpoint take (n : nat) (s : string) : string :=
  match n, s with
  | S n', String c s' => String c (take n' s')
  | _, _ => EmptyString
  end.

Fixpoint drop (n : nat) (s : string) : string :=
  match n, s with
  | S n', String _ s' => drop n' s'
  | _, _ => s
  end.

(** The loop of [genericpath._splitext] over the characters between the
    last separator and the last dot: a name made of leading dots only
    has no extension. *)
Fixpoint skip_leading_dots (p : string) (extsep : ascii) (dotIndex : Z)
    (steps : nat) (filenameIndex : Z) : string * string :=
  match steps with
  | O => (p, EmptyString)
  | S steps' =>
      match String.get (Z.to_nat filenameIndex) p with
      | Some c =>
          if Ascii.eqb c extsep then
            skip_leading_dots p extsep dotIndex steps' (filenameIndex + 1)
          else (take (Z.to_nat dotIndex) p, drop (Z.to_nat dotIndex) p)
      | None => (take (Z.to_nat dotIndex) p, drop (Z.to_nat dotIndex) p)
      end
  end.

(** [genericpath._splitext(p, sep, altsep, extsep)]. *)
Definition splitext_generic (p : string) (sep : ascii)
    (altsep : option ascii) (extsep : ascii) : string * string :=
  let sepIndex := rfind sep p in
  let sepIndex :=
    match altsep with
    | Some a => Z.max sepIndex (rfind a p)
    | None => sepIndex
    end in
  let dotIndex := rfind extsep p in
  if sepIndex <? dotIndex then
    skip_leading_dots p extsep dotIndex
      (Z.to_nat (dotIndex - (sepIndex + 1))) (sepIndex + 1)
  else (p, EmptyString).

Definition backslash : ascii := "\"%char.

(** [os.path.splitext]: [ntpath] on Windows, [posixpath] elsewhere. *)
Definition splitext (windows : bool) (p : string) : string * string :=
  if windows then splitext_generic p backslash (Some "/"%char) "."%char
  else splitext_generic p "/"%char None "."%char.

End OsPath.

(* ================================================================== *)
(** * [class VLCLauncher] *)
(* ================================================================== *)

Module VLCLauncher.

(** What [subprocess.run] can raise. *)
Inductive run_error : Type :=
| TimeoutExpired
| CalledProcessError
| OtherError (e : exn).

(** A started or attempted process. *)
Inductive process_event : Type :=
| Run (argv : list string)
| Popen (argv : list string).

(** The machine the program runs on.  [subprocess_run] completes, with
    whatever exit status, or raises. *)
Record machine : Type := mk_machine {
  os_path_exists : string -> bool;
  USERNAME : option string;
  subprocess_run : list string -> unit + run_error;
  subprocess_Popen : list string -> result unit
}.

Section WithMachine.
Variable m : machine.

(** [os.getenv('USERNAME', '')]. *)
Definition getenv_USERNAME : string :=
  match USERNAME m with
  | Some name => name
  | None => ""
  end.

Definition common_paths : list string :=
  [ "C:\Program Files\VideoLAN\VLC\vlc.exe";
    "C:\Program Files (x86)\VideoLAN\VLC\vlc.exe";
    "C:\Users\" ++ getenv_USERNAME
    ++ "\AppData\Local\Programs\VideoLAN\VLC\vlc.exe" ].

(** [for path in common_paths: if os.path.exists(path): return path]. *)
Fixpoint first_existing (paths : list string) : option string :=
  match paths with
  | [] => None
  | path :: paths' =>
      if os_path_exists m path then Some path else first_existing paths'
  end.

(** The result with the processes run on the way. *)
Definition find_vlc_path : result (option string) * list process_event :=
  match first_existing common_paths with
  | Some path => (Returned (Some path), [])
  | None =>
      let argv := ["vlc"; "--version"] in
      match subprocess_run m argv with
      | inl _ => (Returned (Some "vlc"), [Run argv])
      | inr TimeoutExpired | inr CalledProcessError =>
          (Returned None, [Run argv])
      | inr (OtherError e) =>
          if isinstance e FileNotFoundError
          then (Returned None, [Run argv])
          else (Raised e, [Run argv])
      end
  end.

Definition launch_vlc : result bool * list process_event :=
  match find_vlc_path with
  | (Raised e, events) => (Raised e, events)
  | (Returned None, events) => (Returned false, events)
  | (Returned (Some vlc_path), events) =>
      if Text.is_empty vlc_path then (Returned false, events)
      else
        match subprocess_Popen m [vlc_path] with
        | Returned _ => (Returned true, (events ++ [Popen [vlc_path]])%list)
        | Raised e =>
            if isinstance e Exception
            then (Returned false, (events ++ [Popen [vlc_path]])%list)
            else (Raised e, (events ++ [Popen [vlc_path]])%list)
        end
  end.

End WithMachine.

End VLCLauncher.

(* ================================================================== *)
(** * [class SettingsDialog] and [class ServiceManagerGUI]: the methods
      that decide what is saved and what is shown *)
(* ================================================================== *)

Module Tk.

(** What the operator gets to see, in order. *)
Inductive ui_event : Type :=
| ShowError (title message : string)
| ShowWarning (title message : string)
| ShowInfo (title message : string)
| AskYesNo (title message : string)
| WindowDestroyed.

(** A line break inside a message. *)
Definition nl : string := String Text.LF EmptyString.

End Tk.

Module SettingsDialog.

Import Tk.

Section WithPlatform.
Variable crlf : bool.
(** [self.refresh_callback], which runs on the store just saved. *)
Variable refresh_callback :
  Config.t -> Config.settings_file -> result unit.


End WithPlatform.

End SettingsDialog.

Module ServiceManagerGUI.

Import ServiceDataManager.

Definition song_var_keys : list string :=
  ["song1"; "song2"; "song3"; "start"; "end"; "communion"].

Section WithPlatform.
(** Whether [os.path] is [ntpath]. *)
Variable windows : bool.

(** The texts ["—"] and [" 🎵"] are kept as their UTF-8 bytes; they are
    only ever appended. *)
Definition format_display_filename (filename path : pyval) : result string :=
  match filename with
  | PyStr f =>
      if Text.is_empty f then Returned "—"
      else
        let filename := Text.strip f in
        let filename_no_ext := fst (OsPath.splitext windows filename) in
        ext <-
          match path with
          | PyStr p => Returned (snd (OsPath.splitext windows p))
          | _ =>
              Raised (mk_exn TypeError
                        "expected str, bytes or os.PathLike object")
          end ;;
        let file_extension := Text.lower ext in
        if String.eqb file_extension ".xspf"
        then Returned (filename_no_ext ++ " 🎵")
        else Returned filename_no_ext
  | _ => Returned "—"
  end.

(** One turn of the loop over [self.song_vars.items()]; [song_vars]
    holds the text of each variable. *)
Definition show_song (service_data : dict pyval) (event_data : pyval)
    (song_vars : dict string) (key : string) : result (dict string) :=
  let value := dict_get_default service_data key (PyStr "") in
  record <- as_dict event_data ;;
  let path := dict_get_default record (key ++ "path") (PyStr "") in
  display_value <- format_display_filename value path ;;
  Returned (dict_set song_vars key display_value).

Fixpoint show_songs (service_data : dict pyval) (event_data : pyval)
    (keys : list string) (song_vars : dict string)
  : result unit * dict string :=
  match keys with
  | [] => (Returned tt, song_vars)
  | key :: keys' =>
      match show_song service_data event_data song_vars key with
      | Returned song_vars' =>
          show_songs service_data event_data keys' song_vars'
      | Raised e => (Raised e, song_vars)
      end
  end.

(** The outcome and the texts of the variables afterwards. *)
Definition update_song_display (data_manager : option t)
    (song_vars : dict string) (date_str : string)
  : result unit * dict string :=
  match data_manager with
  | None => (Returned tt, song_vars)
  | Some dm =>
      match
        (service_data <- get_service_data dm date_str ;;
         d <- as_dict (data dm) ;;
         Returned (service_data, dict_get_default d date_str (PyDict [])))
      with
      | Raised e => (Raised e, song_vars)
      | Returned (service_data, event_data) =>
          show_songs service_data event_data (dict_keys song_vars) song_vars
      end
  end.

End WithPlatform.

Section WithNetwork.
Variable net : network.

(** The text the label of the current service is set to. *)
Definition update_current_service_date (api : option CompanionAPI.t)
  : io string :=
  match api with
  | None => io_ret "API not configured"
  | Some api =>
      current_date <~ CompanionAPI.get_current_service_date net api ;;
      match current_date with
      | Some d =>
          if CompanionAPI.truthy d
          then io_ret ("Current Service Date: " ++ d)
          else io_ret "Failed to fetch current service date"
      | None => io_ret "Failed to fetch current service date"
      end
  end.

End WithNetwork.

(** The widgets that the methods below read and set. *)
Record window : Type := mk_window {
  date_var : string;
  date_values : list string;     (* [self.date_dropdown['values']] *)
  song_texts : dict string;      (* the texts of [self.song_vars] *)
  feedback : string * string;    (* text and foreground of the label *)
  current_service : string;      (* text of the label *)
  upload_button : string * string  (* state and text of the button *)
}.

Definition set_date_var (w : window) (date : string) : window :=
  {| date_var := date; date_values := date_values w;
     song_texts := song_texts w; feedback := feedback w;
     current_service := current_service w;
     upload_button := upload_button w |}.

Definition set_date_values (w : window) (values : list string) : window :=
  {| date_var := date_var w; date_values := values;
     song_texts := song_texts w; feedback := feedback w;
     current_service := current_service w;
     upload_button := upload_button w |}.

Definition set_song_texts (w : window) (texts : dict string) : window :=
  {| date_var := date_var w; date_values := date_values w;
     song_texts := texts; feedback := feedback w;
     current_service := current_service w;
     upload_button := upload_button w |}.

Definition set_feedback (w : window) (text foreground : string) : window :=
  {| date_var := date_var w; date_values := date_values w;
     song_texts := song_texts w; feedback := (text, foreground);
     current_service := current_service w;
     upload_button := upload_button w |}.

Definition set_current_service (w : window) (text : string) : window :=
  {| date_var := date_var w; date_values := date_values w;
     song_texts := song_texts w; feedback := feedback w;
     current_service := text;
     upload_button := upload_button w |}.

Definition set_upload_button (w : window) (state text : string) : window :=
  {| date_var := date_var w; date_values := date_values w;
     song_texts := song_texts w; feedback := feedback w;
     current_service := current_service w;
     upload_button := (state, text) |}.

(** [bool(v)] for a decoded value; whether a float is zero is decided
    from its literal by [float_is_zero]. *)
Definition truthy (float_is_zero : string -> bool) (v : pyval) : bool :=
  match v with
  | PyNone => false
  | PyBool b => b
  | PyInt n => negb (n =? 0)
  | PyFloat literal => negb (float_is_zero literal)
  | PyStr s => negb (Text.is_empty s)
  | PyList items => match items with [] => false | _ :: _ => true end
  | PyDict items => match items with [] => false | _ :: _ => true end
  end.

Section WithWindow.
Variable windows : bool.
Variable json_load : string -> result pyval.
Variable fs : string -> file.
Variable float_is_zero : string -> bool.
Variable net : network.

(** [self.date_var.set(date)], then [self.update_song_display(date)]. *)
Definition select_date (self : t) (date : string) (w : window)
  : result unit * window :=
  let w := set_date_var w date in
  let '(r, texts) :=
    update_song_display windows (Some self) (song_texts w) date in
  (r, set_song_texts w texts).

(** The outcome, the manager and the window afterwards. *)
Definition refresh_data (data_manager : option t) (w : window)
  : result unit * option t * window :=
  match data_manager with
  | None =>
      (Returned tt, None,
       set_feedback w "❌ Data manager not configured" "red")
  | Some self =>
      let previous_date := date_var w in
      match load_data json_load fs self with
      | Raised e => (Raised e, Some self, w)
      | Returned (self, true) =>
          match get_sorted_dates self with
          | Raised e => (Raised e, Some self, w)
          | Returned date_options =>
              let w := set_date_values w date_options in
              let '(r, w) :=
                if existsb (String.eqb previous_date) date_options then
                  select_date self previous_date w
                else
                  match date_options with
                  | earliest :: _ => select_date self earliest w
                  | [] => (Returned tt, w)
                  end in
              match r with
              | Returned _ =>
                  (Returned tt, Some self,
                   set_feedback w "✅ Data refreshed successfully" "blue")
              | Raised e => (Raised e, Some self, w)
              end
          end
      | Returned (self, false) =>
          (Returned tt, Some self,
           set_feedback w "❌ Failed to refresh data" "red")
      end
  end.

(** The body of the [try] of [_load_initial_data]: the outcome, the
    window and the log of calls afterwards. *)
Definition load_initial_data_body (today : date) (self : t)
    (api : option CompanionAPI.t) (w : window) (log : list event)
  : result unit * window * list event :=
  match get_sorted_dates self with
  | Raised e => (Raised e, w, log)
  | Returned date_options =>
      let w := set_date_values w date_options in
      match find_nearest_upcoming_service self today with
      | Raised e => (Raised e, w, log)
      | Returned nearest_service =>
          let '(r, w) :=
            match nearest_service with
            | Some (nearest_date, _) => select_date self nearest_date w
            | None =>
                match date_options with
                | earliest :: _ =>
                    match select_date self earliest w with
                    | (Returned _, w) =>
                        (Returned tt,
                         set_feedback w
                           "⚠ No upcoming service found. Defaulted to earliest date."
                           "orange")
                    | (Raised e, w) => (Raised e, w)
                    end
                | [] => (Returned tt, w)
                end
            end in
          match r with
          | Raised e => (Raised e, w, log)
          | Returned _ =>
              match update_current_service_date net api log with
              | (Returned label, log) =>
                  (Returned tt, set_current_service w label, log)
              | (Raised e, log) => (Raised e, w, log)
              end
          end
      end
  end.

Definition load_initial_data (today : date) (data_manager : option t)
    (api : option CompanionAPI.t) (w : window) (log : list event)
  : result unit * window * list event :=
  let no_data :=
    (Returned tt,
     set_feedback w "❌ No service data found in selections.json." "red",
     log) in
  match data_manager with
  | None => no_data
  | Some self =>
      if negb (truthy float_is_zero (data self)) then no_data
      else
        match load_initial_data_body today self api w log with
        | (Returned _, w, log) => (Returned tt, w, log)
        | (Raised e, w, log) =>
            if isinstance e Exception then
              (Returned tt, set_feedback w "❌ Error loading data" "red", log)
            else (Raised e, w, log)
        end
  end.

End WithWindow.

(** The window together with what the program has done outside it: the
    calls to the target, the processes run or started, and the dialogs
    shown, each in order. *)
Record world : Type := mk_world {
  win : window;
  calls : list event;
  processes : list VLCLauncher.process_event;
  dialogs : list Tk.ui_event
}.

Definition with_win (s : world) (w : window) : world :=
  {| win := w; calls := calls s; processes := processes s;
     dialogs := dialogs s |}.

Definition with_calls (s : world) (log : list event) : world :=
  {| win := win s; calls := log; processes := processes s;
     dialogs := dialogs s |}.

Definition ran (s : world) (events : list VLCLauncher.process_event)
  : world :=
  {| win := win s; calls := calls s;
     processes := (processes s ++ events)%list; dialogs := dialogs s |}.

Definition showed (s : world) (dialog : Tk.ui_event) : world :=
  {| win := win s; calls := calls s; processes := processes s;
     dialogs := (dialogs s ++ [dialog])%list |}.

Section WithMachine.
Import VLCLauncher.
Import Tk.
Variable net : network.
Variable m : machine.
(** [str(v)], as the f-string of [update_service_data] applies it to
    each value. *)
Variable py_str : pyval -> string.
(** The answer of the operator to the question about VLC. *)
Variable answer : bool.

Definition vlc_folders : list string :=
  [ "C:\Program Files\VideoLAN\VLC";
    "C:\Program Files (x86)\VideoLAN\VLC" ].

(** The loop of [_open_vlc_folder]: whether a folder was opened, with
    the processes run. *)
Fixpoint open_first_folder (folders : list string)
  : result bool * list process_event :=
  match folders with
  | [] => (Returned false, [])
  | folder :: folders' =>
      if os_path_exists m folder then
        let argv := ["explorer"; folder] in
        match subprocess_run m argv with
        | inl _ => (Returned true, [Run argv])
        | inr (OtherError e) =>
            if isinstance e Exception then
              let '(r, events) := open_first_folder folders' in
              (r, Run argv :: events)
            else (Raised e, [Run argv])
        | inr _ =>
            let '(r, events) := open_first_folder folders' in
            (r, Run argv :: events)
        end
      else open_first_folder folders'
  end.

Definition open_vlc_folder (s : world) : result unit * world :=
  match open_first_folder vlc_folders with
  | (Raised e, events) => (Raised e, ran s events)
  | (Returned folder_opened, events) =>
      let s := ran s events in
      if folder_opened then (Returned tt, s)
      else
        (Returned tt,
         showed s
           (ShowInfo "VLC Not Found"
              ("Could not locate VLC installation." ++ nl ++ nl
               ++ "Please install VLC Media Player from:" ++ nl
               ++ "https://www.videolan.org/vlc/")))
  end.

Definition launch_vlc (s : world) : result unit * world :=
  match VLCLauncher.launch_vlc m with
  | (Raised e, events) => (Raised e, ran s events)
  | (Returned true, events) =>
      let s := ran s events in
      let current_text := fst (feedback (win s)) in
      (Returned tt,
       with_win s
         (set_feedback (win s) (current_text ++ " VLC launched.")
            (snd (feedback (win s)))))
  | (Returned false, events) =>
      let s := ran s events in
      let s :=
        showed s
          (AskYesNo "VLC Launch Failed"
             ("Could not automatically launch VLC." ++ nl ++ nl
              ++ "Would you like to launch VLC manually now?" ++ nl ++ nl
              ++ "Click 'Yes' to open VLC installation folder" ++ nl
              ++ "Click 'No' to continue without VLC")) in
      if answer then open_vlc_folder s else (Returned tt, s)
  end.

(** The body of the [try] of [upload_data]. *)
Definition upload_data_body (api : CompanionAPI.t) (data_manager : t)
    (s : world) : result unit * world :=
  let selected_date := date_var (win s) in
  match get_service_data data_manager selected_date with
  | Raised e => (Raised e, s)
  | Returned service_data =>
      match
        CompanionAPI.update_service_data net api
          (map_values py_str service_data) selected_date (calls s)
      with
      | (Raised e, log) => (Raised e, with_calls s log)
      | (Returned errors, log) =>
          let s := with_calls s log in
          let s :=
            match errors with
            | [] => s
            | _ :: _ =>
                let error_msg := Text.join nl (firstn 5 errors) in
                showed s
                  (ShowWarning "Upload Warnings"
                     ("Some updates failed:" ++ nl ++ error_msg))
            end in
          let s :=
            with_win s
              (set_feedback (win s)
                 ("Service for " ++ selected_date ++ " activated!")
                 "green") in
          match update_current_service_date net (Some api) (calls s) with
          | (Raised e, log) => (Raised e, with_calls s log)
          | (Returned label, log) =>
              let s :=
                with_win (with_calls s log)
                  (set_current_service (win s) label) in
              launch_vlc s
          end
      end
  end.

Definition upload_data (api : option CompanionAPI.t)
    (data_manager : option t) (s : world) : result unit * world :=
  match api, data_manager with
  | Some api, Some data_manager =>
      let s :=
        with_win s (set_upload_button (win s) "disabled" "Activating...") in
      let '(r, s) :=
        match upload_data_body api data_manager s with
        | (Returned _, s) => (Returned tt, s)
        | (Raised e, s) =>
            if isinstance e Exception then
              let s :=
                showed s (ShowError "Error" ("Upload failed: " ++ exn_str e))
              in
              (Returned tt,
               with_win s (set_feedback (win s) "❌ Upload failed" "red"))
            else (Raised e, s)
        end in
      (r, with_win s (set_upload_button (win s) "normal" "Activate Service"))
  | _, _ =>
      (Returned tt,
       showed s (ShowError "Error" "API or data manager not configured"))
  end.

End WithMachine.

End ServiceManagerGUI.

(* ================================================================== *)
(** * Properties *)
(* ================================================================== *)

(** ** Exceptions *)

Lemma isinstance_Exception (e : exn) : isinstance e Exception = true.
Proof. destruct e as [c msg]; destruct c; reflexivity. Qed.

Lemma RequestException_is_OSError (e : exn) :
  isinstance e RequestException = true -> isinstance e OSError = true.
Proof. destruct e as [c msg]; destruct c; vm_compute; congruence. Qed.

(** ** Dictionaries *)

Lemma dict_get_map_keys {V} (f : string -> V) (keys : list string)
    (k : string) :
  dict_get (map (fun key => (key, f key)) keys) k
  = if in_dec string_dec k keys then Some (f k) else None.
Proof.
  induction keys as [| key keys IH]; simpl; [reflexivity |].
  destruct (String.eqb_spec key k) as [-> | Hne].
  - destruct (string_dec k k); [reflexivity | congruence].
  - rewrite IH. destruct (string_dec key k); [congruence |].
    destruct (in_dec string_dec k keys); reflexivity.
Qed.

Lemma dict_get_set {V} (d : dict V) (k k' : string) (v : V) :
  dict_get (dict_set d k v) k'
  = if String.eqb k k' then Some v else dict_get d k'.
Proof.
  induction d as [| [k0 v0] d IH]; simpl.
  - reflexivity.
  - destruct (String.eqb_spec k0 k) as [-> | Hne]; simpl.
    + destruct (String.eqb k k'); reflexivity.
    + destruct (String.eqb_spec k0 k') as [-> | Hne'].
      * destruct (String.eqb_spec k k'); [congruence | reflexivity].
      * exact IH.
Qed.

Lemma dict_get_None {V} (d : dict V) (k : string) :
  dict_get d k = None <-> ~ In k (dict_keys d).
Proof.
  induction d as [| [k0 v0] d IH]; simpl; [tauto |].
  destruct (String.eqb_spec k0 k) as [-> | Hne].
  - split; [discriminate | tauto].
  - rewrite IH. tauto.
Qed.

Lemma dict_get_In {V} (d : dict V) (k : string) (v : V) :
  dict_get d k = Some v -> In (k, v) d.
Proof.
  induction d as [| [k0 v0] d IH]; simpl; [discriminate |].
  destruct (String.eqb_spec k0 k) as [-> | Hne].
  - intros [= ->]. left; reflexivity.
  - intros H. right. apply IH, H.
Qed.

Lemma dict_keys_map_values {V W} (f : V -> W) (d : dict V) :
  dict_keys (map_values f d) = dict_keys d.
Proof.
  unfold dict_keys, map_values. rewrite map_map. reflexivity.
Qed.

Lemma dict_get_map_values {V W} (f : V -> W) (d : dict V) (k : string) :
  dict_get (map_values f d) k = option_map f (dict_get d k).
Proof.
  induction d as [| [k0 v0] d IH]; simpl; [reflexivity |].
  destruct (String.eqb k0 k); [reflexivity | exact IH].
Qed.

Lemma dict_set_map_values {V W} (f : V -> W) (d : dict V) (k : string)
    (v : V) :
  map_values f (dict_set d k v) = dict_set (map_values f d) k (f v).
Proof.
  induction d as [| [k0 v0] d IH]; simpl; [reflexivity |].
  destruct (String.eqb k0 k); simpl; [reflexivity |].
  rewrite <- IH. reflexivity.
Qed.

Lemma dict_set_fresh {V} (d : dict V) (k : string) (v : V) :
  ~ In k (dict_keys d) -> dict_set d k v = (d ++ [(k, v)])%list.
Proof.
  induction d as [| [k0 v0] d IH]; simpl; intros H; [reflexivity |].
  destruct (String.eqb_spec k0 k) as [-> | Hne]; [tauto |].
  rewrite IH; [reflexivity | tauto].
Qed.

Lemma dict_set_last {V} (d : dict V) (k : string) (v w : V) :
  ~ In k (dict_keys d) ->
  dict_set (d ++ [(k, v)])%list k w = (d ++ [(k, w)])%list.
Proof.
  induction d as [| [k0 v0] d IH]; simpl; intros H.
  - rewrite String.eqb_refl. reflexivity.
  - destruct (String.eqb_spec k0 k) as [-> | Hne]; [tauto |].
    rewrite IH; [reflexivity | tauto].
Qed.

Lemma dict_get_last {V} (d : dict V) (k : string) (v : V) :
  ~ In k (dict_keys d) -> dict_get (d ++ [(k, v)])%list k = Some v.
Proof.
  induction d as [| [k0 v0] d IH]; simpl; intros H.
  - rewrite String.eqb_refl. reflexivity.
  - destruct (String.eqb_spec k0 k) as [-> | Hne]; [tauto |].
    apply IH. tauto.
Qed.

Lemma dict_set_same {V} (d : dict V) (k : string) (v : V) :
  dict_get d k = Some v -> dict_set d k v = d.
Proof.
  induction d as [| [k0 v0] d IH]; simpl; [discriminate |].
  destruct (String.eqb_spec k0 k) as [-> | Hne].
  - intros [= ->]. reflexivity.
  - intros H. rewrite (IH H). reflexivity.
Qed.

Lemma dict_has_keys {V} (d : dict V) (k : string) :
  dict_has d k = true <-> In k (dict_keys d).
Proof.
  unfold dict_has. destruct (dict_get d k) eqn:H.
  - split; [intros _ | reflexivity].
    destruct (in_dec string_dec k (dict_keys d)) as [Hin | Hnin];
      [exact Hin |].
    apply dict_get_None in Hnin. congruence.
  - apply dict_get_None in H. split; [discriminate | contradiction].
Qed.

Lemma dict_get_keys {V} (d : dict V) (k : string) (v : V) :
  dict_get d k = Some v -> In k (dict_keys d).
Proof.
  intros H. apply dict_has_keys. unfold dict_has. rewrite H. reflexivity.
Qed.

Lemma dict_keys_set {V} (d : dict V) (k k' : string) (v : V) :
  In k' (dict_keys (dict_set d k v)) <-> k' = k \/ In k' (dict_keys d).
Proof.
  induction d as [| [k0 v0] d IH]; simpl.
  - intuition congruence.
  - destruct (String.eqb_spec k0 k) as [-> | Hne]; simpl.
    + intuition congruence.
    + rewrite IH. intuition congruence.
Qed.

Lemma dict_wf_set {V} (d : dict V) (k : string) (v : V) :
  dict_wf d -> dict_wf (dict_set d k v).
Proof.
  unfold dict_wf.
  induction d as [| [k0 v0] d IH]; simpl; intros H.
  - constructor; [intros [] | constructor].
  - inversion H as [| ? ? Hnin Hd]; subst.
    destruct (String.eqb_spec k0 k) as [-> | Hne]; simpl.
    + constructor; assumption.
    + constructor; [| apply IH, Hd].
      intros Hin. apply (dict_keys_set d k k0 v) in Hin.
      destruct Hin as [-> | Hin]; [congruence | contradiction].
Qed.

Lemma dict_get_app {V} (a b : dict V) (k : string) :
  dict_get (a ++ b)%list k
  = match dict_get a k with
    | Some v => Some v
    | None => dict_get b k
    end.
Proof.
  induction a as [| [k0 v0] a IH]; simpl; [reflexivity |].
  destruct (String.eqb k0 k); [reflexivity | exact IH].
Qed.

Lemma Forall_dict_set_value {V} (P : string * V -> Prop) (d : dict V)
    (k : string) (v : V) :
  P (k, v) -> Forall P d -> Forall P (dict_set d k v).
Proof.
  intros Hnew. induction d as [| [k0 v0] d IH]; simpl; intros H.
  - constructor; [exact Hnew | constructor].
  - inversion H as [| ? ? Hx Hd]; subst.
    destruct (String.eqb_spec k0 k) as [-> | Hne].
    + constructor; assumption.
    + constructor; [exact Hx | apply IH, Hd].
Qed.


(** ** Parsing dates *)

Example strptime_padded :
  strptime "01/01/2099" = Returned (mk_date 2099 1 1).
Proof. reflexivity. Qed.

Example strptime_unpadded :
  strptime "7/3/2024" = Returned (mk_date 2024 3 7).
Proof. reflexivity. Qed.

Example strptime_leap_day :
  strptime "29/02/2024" = Returned (mk_date 2024 2 29).
Proof. reflexivity. Qed.

Example strptime_no_leap_day :
  strptime "29/02/2023"
  = Raised (mk_exn ValueError "day is out of range for month").
Proof. reflexivity. Qed.

Example strptime_iso_rejected :
  strptime "2024-06-01"
  = Raised (mk_exn ValueError "time data does not match format").
Proof. reflexivity. Qed.

Example strptime_trailing :
  strptime "01/01/20991"
  = Raised (mk_exn ValueError "unconverted data remains").
Proof. reflexivity. Qed.

(** ** Calendar order *)

Lemma date_lt_spec (a b : date) :
  date_lt a b = true <->
  year a < year b
  \/ (year a = year b
      /\ (month a < month b \/ (month a = month b /\ day a < day b))).
Proof.
  unfold date_lt.
  rewrite !orb_true_iff, !andb_true_iff, !orb_true_iff, !andb_true_iff.
  rewrite !Z.ltb_lt, !Z.eqb_eq. tauto.
Qed.

Lemma date_eqb_spec (a b : date) : date_eqb a b = true <-> a = b.
Proof.
  unfold date_eqb. rewrite !andb_true_iff, !Z.eqb_eq.
  destruct a, b; simpl; split.
  - intros [[-> ->] ->]; reflexivity.
  - intros H; injection H; auto.
Qed.

Lemma date_lt_false (a b : date) :
  date_lt a b = false <-> date_le b a = true.
Proof.
  unfold date_le. rewrite orb_true_iff, date_eqb_spec.
  rewrite <- not_true_iff_false, !date_lt_spec.
  destruct a as [ya ma da], b as [yb mb db]; simpl. split.
  - intros H.
    destruct (Z.eq_dec ya yb) as [-> |]; [| left; lia].
    destruct (Z.eq_dec ma mb) as [-> |]; [| left; lia].
    destruct (Z.eq_dec da db) as [-> |]; [right; reflexivity | left; lia].
  - intros [H | H]; [lia | injection H; lia].
Qed.

Lemma date_le_spec (a b : date) :
  date_le a b = true <->
  year a < year b
  \/ (year a = year b
      /\ (month a < month b \/ (month a = month b /\ day a <= day b))).
Proof.
  unfold date_le. rewrite orb_true_iff, date_lt_spec, date_eqb_spec.
  destruct a as [ya ma da], b as [yb mb db]; simpl. split.
  - intros [H | H]; [lia | injection H; lia].
  - intros H.
    destruct (Z.eq_dec ya yb) as [-> |]; [| left; lia].
    destruct (Z.eq_dec ma mb) as [-> |]; [| left; lia].
    destruct (Z.eq_dec da db) as [-> |]; [right; reflexivity | left; lia].
Qed.

Lemma date_le_refl (a : date) : date_le a a = true.
Proof. apply date_le_spec. lia. Qed.

Lemma date_le_trans (a b c : date) :
  date_le a b = true -> date_le b c = true -> date_le a c = true.
Proof. rewrite !date_le_spec. lia. Qed.

Lemma date_le_antisym (a b : date) :
  date_le a b = true -> date_le b a = true -> a = b.
Proof.
  rewrite !date_le_spec. destruct a, b; simpl. intros H1 H2.
  f_equal; lia.
Qed.

Lemma date_lt_le (a b : date) : date_lt a b = true -> date_le a b = true.
Proof. unfold date_le. intros ->. reflexivity. Qed.

(** ** The stable sort *)

Section SortFacts.
Context {A K : Type}.
Variable lt : K -> K -> bool.

(** [le a b] reads "b is not before a". *)
Let le (a b : K) : Prop := lt b a = false.

Hypothesis lt_le : forall a b, lt a b = true -> le a b.
Hypothesis le_trans : forall a b c, le a b -> le b c -> le a c.

Let le1 (p q : K * A) : Prop := le (fst p) (fst q).

Lemma insert_keyed_perm (x : K * A) (l : list (K * A)) :
  Permutation (insert_keyed lt x l) (x :: l).
Proof.
  induction l as [| y l IH]; simpl.
  - apply Permutation_refl.
  - destruct (lt (fst y) (fst x)).
    + apply Permutation_trans with (y :: x :: l).
      * apply perm_skip, IH.
      * apply perm_swap.
    + apply Permutation_refl.
Qed.

Lemma sort_keyed_perm (l : list (K * A)) :
  Permutation (sort_keyed lt l) l.
Proof.
  induction l as [| x l IH]; simpl.
  - apply perm_nil.
  - apply Permutation_trans with (x :: sort_keyed lt l).
    + apply insert_keyed_perm.
    + apply perm_skip, IH.
Qed.

Lemma insert_keyed_sorted (x : K * A) (l : list (K * A)) :
  StronglySorted le1 l -> StronglySorted le1 (insert_keyed lt x l).
Proof using lt_le le_trans.
  induction l as [| y l IH]; simpl; intros Hs.
  - constructor; [constructor | constructor].
  - inversion Hs as [| ? ? Hs' Hall]; subst.
    destruct (lt (fst y) (fst x)) eqn:Hyx.
    + constructor; [apply IH, Hs' |].
      apply Forall_forall. intros z Hz.
      apply (Permutation_in _ (insert_keyed_perm x l)) in Hz.
      destruct Hz as [<- | Hz].
      * apply lt_le, Hyx.
      * rewrite Forall_forall in Hall. apply Hall, Hz.
    + constructor; [exact Hs |].
      constructor; [exact Hyx |].
      apply Forall_forall. intros z Hz.
      rewrite Forall_forall in Hall.
      apply le_trans with (fst y); [exact Hyx | apply Hall, Hz].
Qed.

Lemma sort_keyed_sorted (l : list (K * A)) :
  StronglySorted le1 (sort_keyed lt l).
Proof using lt_le le_trans.
  induction l as [| x l IH]; simpl.
  - constructor.
  - apply insert_keyed_sorted, IH.
Qed.

(** Elements with equivalent keys keep the order they came in. *)
Definition same_rank (x y : K) : bool := negb (lt x y) && negb (lt y x).

Lemma insert_keyed_stable (k : K) (x : K * A) (l : list (K * A)) :
  filter (fun y => same_rank k (fst y)) (insert_keyed lt x l)
  = filter (fun y => same_rank k (fst y)) (x :: l).
Proof using le_trans.
  induction l as [| y l IH]; [reflexivity |].
  cbn [insert_keyed]. destruct (lt (fst y) (fst x)) eqn:Hyx; [| reflexivity].
  cbn [filter] in *. rewrite IH.
  destruct (same_rank k (fst x)) eqn:Hx; [| reflexivity].
  destruct (same_rank k (fst y)) eqn:Hy; [| reflexivity].
  exfalso. unfold same_rank in Hx, Hy.
  apply andb_true_iff in Hx, Hy. rewrite !negb_true_iff in Hx, Hy.
  destruct Hx as [Hkx Hxk]. destruct Hy as [Hky Hyk].
  assert (H : lt (fst y) (fst x) = false)
    by (apply le_trans with k; assumption).
  congruence.
Qed.

Lemma sort_keyed_stable (k : K) (l : list (K * A)) :
  filter (fun y => same_rank k (fst y)) (sort_keyed lt l)
  = filter (fun y => same_rank k (fst y)) l.
Proof using le_trans.
  induction l as [| x l IH]; [reflexivity |].
  cbn [sort_keyed fold_right]. fold (sort_keyed lt l).
  rewrite insert_keyed_stable. cbn [filter]. rewrite IH. reflexivity.
Qed.

(** Sorting the elements of [l] by the key [f]. *)
Lemma sort_by_perm (f : A -> K) (l : list A) :
  Permutation (map snd (sort_keyed lt (combine (map f l) l))) l.
Proof.
  apply Permutation_trans with (map snd (combine (map f l) l)).
  - apply Permutation_map, sort_keyed_perm.
  - clear. induction l as [| x l IH]; simpl; [constructor |].
    rewrite IH at 1. apply Permutation_refl.
Qed.

Lemma combine_keyed (f : A -> K) (l : list A) :
  Forall (fun p => fst p = f (snd p)) (combine (map f l) l).
Proof.
  induction l as [| x l IH]; simpl; constructor; [reflexivity | exact IH].
Qed.

Lemma sort_by_sorted (f : A -> K) (l : list A) :
  StronglySorted (fun a b => le (f a) (f b))
    (map snd (sort_keyed lt (combine (map f l) l))).
Proof using lt_le le_trans.
  assert (Hk : Forall (fun p => fst p = f (snd p))
                 (sort_keyed lt (combine (map f l) l))).
  { apply Forall_forall. intros p Hp.
    apply (Permutation_in _ (sort_keyed_perm _)) in Hp.
    revert p Hp. apply Forall_forall, combine_keyed. }
  pose proof (sort_keyed_sorted (combine (map f l) l)) as Hs.
  induction Hs as [| p s Hs IH Hall]; simpl; [constructor |].
  inversion Hk as [| ? ? Hp Hk']; subst.
  constructor; [apply IH, Hk' |].
  rewrite Forall_forall in *. intros b Hb.
  apply in_map_iff in Hb. destruct Hb as [q [<- Hq]].
  rewrite <- Hp, <- (Hk' q Hq). apply Hall, Hq.
Qed.

End SortFacts.

(** Two sorted arrangements of the same keys are the same list, when the
    order is antisymmetric. *)
Lemma sorted_perm_unique {K : Type} (le : K -> K -> Prop)
    (antisym : forall a b, le a b -> le b a -> a = b) (l1 l2 : list K) :
  StronglySorted le l1 -> StronglySorted le l2 -> Permutation l1 l2 ->
  l1 = l2.
Proof.
  intros H1. revert l2.
  induction H1 as [| a l1 Hs1 IH Ha]; intros l2 H2 Hp.
  - apply Permutation_nil in Hp. subst; reflexivity.
  - destruct H2 as [| b l2 Hs2 Hb].
    + apply Permutation_sym, Permutation_nil in Hp. discriminate.
    + assert (a = b) as <-.
      { rewrite Forall_forall in Ha, Hb.
        assert (Hin_b : In b (a :: l1))
          by (apply (Permutation_in _ (Permutation_sym Hp)); left; reflexivity).
        assert (Hin_a : In a (b :: l2))
          by (apply (Permutation_in _ Hp); left; reflexivity).
        destruct Hin_b as [-> | Hb1]; [reflexivity |].
        destruct Hin_a as [-> | Ha2]; [reflexivity |].
        apply antisym; [apply Ha, Hb1 | apply Hb, Ha2]. }
      f_equal. apply IH; [exact Hs2 |].
      apply Permutation_cons_inv with a, Hp.
Qed.

(** ** The schedule: sorted dates and the nearest upcoming service *)

Import ServiceDataManager.

(** A key of the schedule that [strptime] accepts. *)
Definition parses (k : string) : Prop :=
  exists dt, strptime k = Returned dt.

(** The calendar date of a key, for keys that parse. *)
Definition date_of (k : string) : date :=
  match strptime k with
  | Returned dt => dt
  | Raised _ => mk_date 0 0 0
  end.

(** [a] is not after [b] on the calendar. *)
Definition calendar_le (a b : string) : Prop :=
  exists da db,
    strptime a = Returned da /\ strptime b = Returned db
    /\ date_le da db = true.

Lemma parses_date_of (k : string) :
  parses k -> strptime k = Returned (date_of k).
Proof. intros [dt H]. unfold date_of. rewrite H. reflexivity. Qed.

Lemma map_result_parses (l : list string) :
  Forall parses l -> map_result strptime l = Returned (map date_of l).
Proof.
  induction 1 as [| k l Hk _ IH]; simpl; [reflexivity |].
  rewrite (parses_date_of k Hk), IH. reflexivity.
Qed.

Lemma map_result_item_parses {V} (l : list (string * V)) :
  Forall parses (map fst l) ->
  map_result (fun x => strptime (fst x)) l
  = Returned (map (fun x => date_of (fst x)) l).
Proof.
  induction l as [| x l IH]; simpl; intros H; [reflexivity |].
  inversion H as [| ? ? Hk Hl]; subst.
  rewrite (parses_date_of _ Hk), (IH Hl). reflexivity.
Qed.

Lemma filter_result_parses {V} (today : date) (l : list (string * V)) :
  Forall parses (map fst l) ->
  filter_result
    (fun item : string * V =>
       dt <- strptime (fst item) ;; Returned (date_ge dt today)) l
  = Returned (filter (fun item => date_ge (date_of (fst item)) today) l).
Proof.
  induction l as [| x l IH]; simpl; intros H; [reflexivity |].
  inversion H as [| ? ? Hk Hl]; subst.
  rewrite (parses_date_of _ Hk), (IH Hl). reflexivity.
Qed.

Lemma sorted_dates_value (l : list string) :
  Forall parses l ->
  sorted date_lt l strptime
  = Returned (map snd (sort_keyed date_lt (combine (map date_of l) l))).
Proof.
  intros H. unfold sorted. rewrite (map_result_parses l H). reflexivity.
Qed.

Lemma date_order_lt_le (a b : date) :
  date_lt a b = true -> date_lt b a = false.
Proof. intros H. apply date_lt_false, date_lt_le, H. Qed.

Lemma date_order_trans (a b c : date) :
  date_lt b a = false -> date_lt c b = false -> date_lt c a = false.
Proof.
  rewrite !date_lt_false. intros H1 H2. exact (date_le_trans _ _ _ H1 H2).
Qed.

Lemma sorted_dates_perm (l : list string) :
  Permutation (map snd (sort_keyed date_lt (combine (map date_of l) l))) l.
Proof. apply sort_by_perm. Qed.

Lemma sorted_dates_sorted (l : list string) :
  StronglySorted (fun a b => date_le (date_of a) (date_of b) = true)
    (map snd (sort_keyed date_lt (combine (map date_of l) l))).
Proof.
  pose proof (sort_by_sorted date_lt date_order_lt_le date_order_trans
                date_of l) as H.
  induction H as [| a s Hs IH Ha]; constructor; [exact IH |].
  rewrite Forall_forall in *. intros b Hb.
  apply date_lt_false, Ha, Hb.
Qed.

Lemma StronglySorted_map {X Y : Type} (R : Y -> Y -> Prop) (f : X -> Y)
    (l : list X) :
  StronglySorted (fun a b => R (f a) (f b)) l -> StronglySorted R (map f l).
Proof.
  induction 1 as [| a l Hs IH Ha]; simpl; constructor; [exact IH |].
  rewrite Forall_forall in *. intros y Hy.
  apply in_map_iff in Hy. destruct Hy as [b [<- Hb]]. apply Ha, Hb.
Qed.

Lemma Forall_parses_perm (l l' : list string) :
  Permutation l l' -> Forall parses l -> Forall parses l'.
Proof.
  intros Hp H. rewrite Forall_forall in *. intros k Hk.
  apply H. apply (Permutation_in _ (Permutation_sym Hp)), Hk.
Qed.

(** C3.  For a schedule whose keys all parse as day/month/year dates,
    [get_sorted_dates] returns: a rearrangement of exactly the keys of the
    document, in non-decreasing calendar order.  The order of the keys in
    the document does not matter: a document holding the same entries in
    another order gives the same sequence of calendar dates. *)
Theorem get_sorted_dates_calendar_order (self : t) (d : dict pyval) :
  data self = PyDict d ->
  Forall parses (dict_keys d) ->
  exists dates,
    get_sorted_dates self = Returned dates
    /\ Permutation dates (dict_keys d)
    /\ StronglySorted calendar_le dates
    /\ forall (self' : t) (d' : dict pyval),
         data self' = PyDict d' -> Permutation d' d ->
         exists dates',
           get_sorted_dates self' = Returned dates'
           /\ Permutation dates' dates
           /\ map date_of dates' = map date_of dates.
Proof.
  intros Hdata Hparse.
  set (res := fun l : list string =>
         map snd (sort_keyed date_lt (combine (map date_of l) l))).
  assert (Hget : forall s e, data s = PyDict e -> Forall parses (dict_keys e) ->
            get_sorted_dates s = Returned (res (dict_keys e))).
  { intros s e He Hp. unfold get_sorted_dates. rewrite He. simpl.
    apply sorted_dates_value, Hp. }
  exists (res (dict_keys d)). split; [apply Hget; assumption |].
  split; [apply sorted_dates_perm |]. split.
  - assert (Hres : Forall parses (res (dict_keys d))).
    { apply Forall_parses_perm with (dict_keys d); [| exact Hparse].
      apply Permutation_sym, sorted_dates_perm. }
    pose proof (sorted_dates_sorted (dict_keys d)) as Hs.
    fold (res (dict_keys d)) in Hs.
    induction Hs as [| a s Hs IH Ha]; constructor.
    + apply IH. inversion Hres; assumption.
    + inversion Hres as [| ? ? Hpa Hps]; subst.
      rewrite Forall_forall in *. intros b Hb.
      exists (date_of a), (date_of b). repeat split.
      * apply parses_date_of, Hpa.
      * apply parses_date_of, Hps, Hb.
      * apply Ha, Hb.
  - intros self' d' Hdata' Hperm.
    assert (Hkeys : Permutation (dict_keys d') (dict_keys d))
      by (apply Permutation_map, Hperm).
    assert (Hparse' : Forall parses (dict_keys d'))
      by (apply Forall_parses_perm with (dict_keys d);
          [apply Permutation_sym, Hkeys | exact Hparse]).
    exists (res (dict_keys d')). split; [apply Hget; assumption |].
    assert (Hpp : Permutation (res (dict_keys d')) (res (dict_keys d))).
    { apply Permutation_trans with (dict_keys d'); [apply sorted_dates_perm |].
      apply Permutation_trans with (dict_keys d); [exact Hkeys |].
      apply Permutation_sym, sorted_dates_perm. }
    split; [exact Hpp |].
    apply sorted_perm_unique with (le := fun a b => date_le a b = true).
    + apply date_le_antisym.
    + apply StronglySorted_map, sorted_dates_sorted.
    + apply StronglySorted_map, sorted_dates_sorted.
    + apply Permutation_map, Hpp.
Qed.

(** A key that is today or later, and a key strictly before today. *)
Definition upcoming (today : date) (k : string) : Prop :=
  exists dt, strptime k = Returned dt /\ date_ge dt today = true.

Definition past (today : date) (k : string) : Prop :=
  exists dt, strptime k = Returned dt /\ date_lt dt today = true.

Lemma upcoming_date_of (today : date) (k : string) :
  upcoming today k <-> parses k /\ date_ge (date_of k) today = true.
Proof.
  unfold upcoming, parses, date_of. split.
  - intros [dt [H1 H2]]. rewrite H1. eauto.
  - intros [[dt H1] H2]. rewrite H1 in H2. eauto.
Qed.

Lemma past_not_upcoming (today : date) (k : string) :
  past today k -> ~ upcoming today k.
Proof.
  intros [dt [H1 H2]] [dt' [H1' H2']].
  rewrite H1 in H1'. injection H1' as <-.
  unfold date_ge in H2'. apply date_lt_false in H2'. congruence.
Qed.

Lemma find_nearest_value (self : t) (d : dict pyval) (today : date) :
  data self = PyDict d ->
  Forall parses (dict_keys d) ->
  find_nearest_upcoming_service self today
  = match filter (fun item => date_ge (date_of (fst item)) today) d with
    | [] => Returned None
    | x :: l =>
        y <- first
               (map snd
                  (sort_keyed date_lt
                     (combine (map (fun x => date_of (fst x)) (x :: l))
                        (x :: l)))) ;;
        Returned (Some y)
    end.
Proof.
  intros Hdata Hparse. unfold find_nearest_upcoming_service.
  rewrite Hdata. simpl. unfold dict_items.
  rewrite (filter_result_parses today d Hparse). simpl.
  destruct (filter _ d) as [| x l] eqn:Hf; [reflexivity |].
  unfold sorted. rewrite map_result_item_parses; [reflexivity |].
  rewrite <- Hf. rewrite Forall_forall in *. intros k Hk.
  apply in_map_iff in Hk. destruct Hk as [it [<- Hit]].
  apply filter_In in Hit. apply Hparse. apply in_map, Hit.
Qed.

(** C1.  For a schedule whose keys all parse and any date [today]:
    when some key is today or later, [find_nearest_upcoming_service]
    returns an entry of the document whose date is today or later and is
    not after any other such key; when the document is empty or every key
    is strictly before today, it returns [None]. *)
Theorem find_nearest_upcoming_service_minimum
    (self : t) (d : dict pyval) (today : date) :
  data self = PyDict d ->
  Forall parses (dict_keys d) ->
  (Exists (upcoming today) (dict_keys d) ->
   exists k v,
     find_nearest_upcoming_service self today = Returned (Some (k, v))
     /\ In (k, v) d
     /\ upcoming today k
     /\ forall k', In k' (dict_keys d) -> upcoming today k' ->
                   calendar_le k k')
  /\ (d = [] \/ Forall (past today) (dict_keys d) ->
      find_nearest_upcoming_service self today = Returned None).
Proof.
  intros Hdata Hparse.
  rewrite (find_nearest_value self d today Hdata Hparse).
  set (keep := fun item : string * pyval =>
                 date_ge (date_of (fst item)) today).
  set (key := fun x : string * pyval => date_of (fst x)).
  split.
  - intros Hex. apply Exists_exists in Hex. destruct Hex as [k0 [Hk0 Hup0]].
    apply in_map_iff in Hk0. destruct Hk0 as [[k0' v0] [Hfst Hin0]].
    simpl in Hfst; subst k0'.
    assert (Hin_f : In (k0, v0) (filter keep d)).
    { apply filter_In. split; [exact Hin0 |].
      apply upcoming_date_of in Hup0. apply Hup0. }
    destruct (filter keep d) as [| x l] eqn:Hf; [destruct Hin_f |].
    rewrite <- Hf. clear Hin_f.
    pose proof (sort_by_perm date_lt key (filter keep d)) as Hperm.
    pose proof (sort_by_sorted date_lt date_order_lt_le date_order_trans
                  key (filter keep d)) as Hsorted.
    destruct (map snd (sort_keyed date_lt
                (combine (map key (filter keep d)) (filter keep d))))
      as [| [k v] rest] eqn:Hres.
    { apply Permutation_nil in Hperm. rewrite Hf in Hperm. discriminate. }
    exists k, v. simpl. split; [reflexivity |].
    assert (Hkv : In (k, v) (filter keep d))
      by (apply (Permutation_in _ Hperm); left; reflexivity).
    apply filter_In in Hkv. destruct Hkv as [Hkv_in Hkv_keep].
    assert (Hpk : parses k).
    { rewrite Forall_forall in Hparse. apply Hparse.
      apply in_map_iff. exists (k, v). auto. }
    split; [exact Hkv_in |]. split.
    + apply upcoming_date_of. split; [exact Hpk | exact Hkv_keep].
    + intros k' Hk' Hup'.
      apply upcoming_date_of in Hup'. destruct Hup' as [Hpk' Hge'].
      apply in_map_iff in Hk'. destruct Hk' as [[k'' v'] [Hfst' Hin']].
      simpl in Hfst'; subst k''.
      assert (Hin_res : In (k', v') ((k, v) :: rest)).
      { apply (Permutation_in _ (Permutation_sym Hperm)).
        apply filter_In. split; [exact Hin' | exact Hge']. }
      exists (date_of k), (date_of k').
      split; [apply parses_date_of, Hpk |].
      split; [apply parses_date_of, Hpk' |].
      destruct Hin_res as [Heq | Hrest].
      * injection Heq as <- _. apply date_le_refl.
      * inversion Hsorted as [| ? ? _ Hall]; subst.
        rewrite Forall_forall in Hall.
        apply date_lt_false. apply (Hall _ Hrest).
  - intros Hnone.
    assert (Hf : filter keep d = []).
    { destruct Hnone as [-> | Hpast]; [reflexivity |].
      destruct (filter keep d) as [| [k v] l] eqn:Hf; [reflexivity |].
      assert (Hin : In (k, v) (filter keep d))
        by (rewrite Hf; left; reflexivity).
      apply filter_In in Hin. destruct Hin as [Hin Hkeep].
      rewrite Forall_forall in Hpast, Hparse.
      assert (Hk : In k (dict_keys d))
        by (apply in_map_iff; exists (k, v); auto).
      exfalso. apply (past_not_upcoming today k (Hpast k Hk)).
      apply upcoming_date_of. split; [apply Hparse, Hk | exact Hkeep]. }
    rewrite Hf. reflexivity.
Qed.

(** The scenario of the specification: two services, one long past. *)
Definition scenario_doc : dict pyval :=
  [ ("01/01/2099", PyDict [("song1", PyStr "Amazing Grace")]);
    ("01/01/2020", PyDict [("song1", PyStr "Old Song")]) ].

Definition scenario : t :=
  {| json_path := "selections.json"; data := PyDict scenario_doc |}.

Example scenario_nearest :
  find_nearest_upcoming_service scenario (mk_date 2024 6 1)
  = Returned
      (Some ("01/01/2099", PyDict [("song1", PyStr "Amazing Grace")])).
Proof. reflexivity. Qed.

Example scenario_all_past :
  find_nearest_upcoming_service scenario (mk_date 2100 1 1) = Returned None.
Proof. reflexivity. Qed.

Example scenario_today_inclusive :
  find_nearest_upcoming_service scenario (mk_date 2020 1 1)
  = Returned (Some ("01/01/2020", PyDict [("song1", PyStr "Old Song")])).
Proof. reflexivity. Qed.

Example scenario_sorted :
  get_sorted_dates scenario = Returned ["01/01/2020"; "01/01/2099"].
Proof. reflexivity. Qed.

(** Calendar order is not string order: as strings, ["15/01/2025"] comes
    before ["20/12/2024"]. *)
Example sorted_by_calendar_not_text :
  get_sorted_dates
    {| json_path := "selections.json";
       data := PyDict [("15/01/2025", PyDict []); ("20/12/2024", PyDict [])] |}
  = Returned ["20/12/2024"; "15/01/2025"].
Proof. reflexivity. Qed.

Example empty_schedule :
  get_sorted_dates {| json_path := ""; data := PyDict [] |} = Returned []
  /\ find_nearest_upcoming_service {| json_path := ""; data := PyDict [] |}
       (mk_date 2024 6 1) = Returned None.
Proof. split; reflexivity. Qed.

(** A key that does not parse makes both calls raise. *)
Example bad_key_raises :
  get_sorted_dates
    {| json_path := ""; data := PyDict [("2024-06-01", PyDict [])] |}
  = Raised (mk_exn ValueError "time data does not match format").
Proof. reflexivity. Qed.

Lemma scenario_keys_parse : Forall parses (dict_keys scenario_doc).
Proof. repeat constructor; eexists; reflexivity. Qed.

Lemma get_sorted_dates_calendar_order_witness :
  exists dates,
    get_sorted_dates scenario = Returned dates
    /\ Permutation dates (dict_keys scenario_doc)
    /\ StronglySorted calendar_le dates
    /\ forall (self' : t) (d' : dict pyval),
         data self' = PyDict d' -> Permutation d' scenario_doc ->
         exists dates',
           get_sorted_dates self' = Returned dates'
           /\ Permutation dates' dates
           /\ map date_of dates' = map date_of dates.
Proof.
  apply (get_sorted_dates_calendar_order scenario scenario_doc).
  - reflexivity.
  - exact scenario_keys_parse.
Defined.

Lemma find_nearest_upcoming_service_minimum_witness :
  exists k v,
    find_nearest_upcoming_service scenario (mk_date 2024 6 1)
    = Returned (Some (k, v))
    /\ In (k, v) scenario_doc
    /\ upcoming (mk_date 2024 6 1) k
    /\ forall k', In k' (dict_keys scenario_doc) ->
                  upcoming (mk_date 2024 6 1) k' -> calendar_le k k'.
Proof.
  apply (find_nearest_upcoming_service_minimum
           scenario scenario_doc (mk_date 2024 6 1)).
  - reflexivity.
  - exact scenario_keys_parse.
  - apply Exists_cons_hd. eexists. split; reflexivity.
Defined.

(** ** Field extraction *)

Lemma song_keys_distinct : NoDup song_keys /\ List.length song_keys = 12%nat.
Proof.
  split; [| reflexivity].
  unfold song_keys.
  repeat (constructor; [simpl; intuition discriminate |]). constructor.
Qed.

(** C2.  For every record, [extract_song_data] returns a mapping whose
    keys are exactly the twelve recognised field names; each of them maps
    to the value stored in the record when there is one and to the string
    ["none"] otherwise; and a record that stores ["none"] under a field
    gives the same result as the record that lacks the field. *)
Theorem extract_song_data_total (d : dict pyval) :
  exists fields,
    extract_song_data (PyDict d) = Returned fields
    /\ dict_keys fields = song_keys
    /\ dict_wf fields
    /\ List.length fields = 12%nat
    /\ (forall key, In key song_keys ->
          dict_get fields key
          = Some (match dict_get d key with
                  | Some v => v
                  | None => PyStr "none"
                  end))
    /\ (forall key, ~ In key song_keys -> dict_get fields key = None)
    /\ (forall key, In key song_keys -> dict_get d key = None ->
          extract_song_data (PyDict (dict_set d key (PyStr "none")))
          = Returned fields).
Proof.
  eexists. split; [reflexivity |].
  assert (Hkeys : forall (f : string -> pyval),
            dict_keys (map (fun key => (key, f key)) song_keys) = song_keys).
  { intros f. unfold dict_keys. rewrite map_map. apply map_id. }
  split; [apply Hkeys |].
  split; [unfold dict_wf; rewrite Hkeys; apply song_keys_distinct |].
  split; [rewrite length_map; reflexivity |].
  split; [| split].
  - intros key Hin. rewrite dict_get_map_keys.
    destruct (in_dec string_dec key song_keys); [reflexivity | contradiction].
  - intros key Hnin. rewrite dict_get_map_keys.
    destruct (in_dec string_dec key song_keys); [contradiction | reflexivity].
  - intros key Hin Hnone. unfold extract_song_data. cbn [as_dict bind].
    apply f_equal. apply map_ext. intros k. apply f_equal.
    unfold dict_get_default.
    rewrite dict_get_set. destruct (String.eqb_spec key k) as [<- | Hne].
    + rewrite Hnone. reflexivity.
    + reflexivity.
Qed.

Example scenario_fields :
  get_service_data scenario "01/01/2099"
  = Returned
      [ ("song1", PyStr "Amazing Grace"); ("song2", PyStr "none");
        ("song3", PyStr "none"); ("start", PyStr "none");
        ("end", PyStr "none"); ("communion", PyStr "none");
        ("song1path", PyStr "none"); ("song2path", PyStr "none");
        ("song3path", PyStr "none"); ("startpath", PyStr "none");
        ("endpath", PyStr "none"); ("communionpath", PyStr "none") ].
Proof. reflexivity. Qed.

(** A stored value that is not a string comes back as it is. *)
Example stored_value_kept :
  exists fields,
    extract_song_data (PyDict [("song2", PyInt 7)]) = Returned fields
    /\ dict_get fields "song2" = Some (PyInt 7).
Proof. eexists. split; reflexivity. Qed.

(** The mapping in which every recognised field is the placeholder. *)
Definition all_none : dict pyval :=
  map (fun key => (key, PyStr "none")) song_keys.

(** C8.  For a date that is not a key of the loaded document,
    [get_service_data] returns, without raising, the mapping in which all
    twelve recognised fields are ["none"]; this is also what it returns
    for a date whose record stores none of the recognised fields. *)
Theorem get_service_data_unknown_date
    (self : t) (d : dict pyval) (date_str : string) :
  data self = PyDict d ->
  ~ In date_str (dict_keys d) ->
  get_service_data self date_str = Returned all_none
  /\ (forall key, In key song_keys ->
        dict_get all_none key = Some (PyStr "none"))
  /\ (forall other record,
        dict_get d other = Some (PyDict record) ->
        (forall key, In key song_keys -> dict_get record key = None) ->
        get_service_data self other = get_service_data self date_str).
Proof.
  intros Hdata Hnot.
  assert (Hget : get_service_data self date_str = Returned all_none).
  { unfold get_service_data. rewrite Hdata. simpl.
    unfold dict_get_default.
    apply dict_get_None in Hnot. rewrite Hnot. reflexivity. }
  split; [exact Hget |]. split.
  - intros key Hin. unfold all_none. rewrite dict_get_map_keys.
    destruct (in_dec string_dec key song_keys); [reflexivity | contradiction].
  - intros other record Hother Hrec. rewrite Hget.
    unfold get_service_data. rewrite Hdata. simpl.
    unfold dict_get_default. rewrite Hother.
    unfold extract_song_data. cbn [as_dict bind]. apply f_equal.
    unfold all_none, dict_get_default. apply map_ext_in.
    intros key Hkey. rewrite (Hrec key Hkey). reflexivity.
Qed.

Lemma get_service_data_unknown_date_witness :
  get_service_data scenario "25/12/2030" = Returned all_none
  /\ (forall key, In key song_keys ->
        dict_get all_none key = Some (PyStr "none"))
  /\ (forall other record,
        dict_get scenario_doc other = Some (PyDict record) ->
        (forall key, In key song_keys -> dict_get record key = None) ->
        get_service_data scenario other
        = get_service_data scenario "25/12/2030").
Proof.
  apply (get_service_data_unknown_date scenario scenario_doc "25/12/2030").
  - reflexivity.
  - simpl. intuition discriminate.
Defined.

(** ** Loading the schedule *)

(** C10.  [load_data] never raises.  When it reports failure, the manager
    is exactly what it was before the call, so its document is neither
    replaced nor cleared nor merged; it reports failure when the file is
    missing, cannot be opened, or cannot be decoded. *)
Theorem load_data_failure_keeps_data
    (json_load : string -> result pyval) (fs : string -> file) (self : t) :
  (exists self' ok, load_data json_load fs self = Returned (self', ok))
  /\ (forall self',
        load_data json_load fs self = Returned (self', false) ->
        self' = self /\ data self' = data self)
  /\ (fs (json_path self) = Missing ->
      load_data json_load fs self = Returned (self, false))
  /\ (forall e, fs (json_path self) = Unreadable e ->
      load_data json_load fs self = Returned (self, false))
  /\ (forall text e,
        fs (json_path self) = Content text -> json_load text = Raised e ->
        load_data json_load fs self = Returned (self, false))
  /\ (forall text v,
        fs (json_path self) = Content text -> json_load text = Returned v ->
        load_data json_load fs self
        = Returned ({| json_path := json_path self; data := v |}, true)).
Proof.
  unfold load_data, load_data_body, try_except.
  destruct (fs (json_path self)) as [| e | text] eqn:Hfile;
    [| | destruct (json_load text) as [v | e] eqn:Hjson; simpl ];
    rewrite ?isinstance_Exception;
    repeat apply conj; intros; try discriminate; eauto;
    repeat match goal with
      | H : Returned _ = Returned _ |- _ => injection H as H
      | H : Content _ = Content _ |- _ => injection H as H
      end;
    subst; try congruence; auto.
Qed.

(** A decoder for the examples: it accepts one text only. *)
Definition toy_json_load (text : string) : result pyval :=
  if String.eqb text "{}" then Returned (PyDict [])
  else Raised (mk_exn JSONDecodeError "Expecting value").

Definition toy_fs (content : file) (path : string) : file :=
  if String.eqb path "selections.json" then content else Missing.

Example refresh_with_broken_file :
  load_data toy_json_load (toy_fs (Content "{ broken")) scenario
  = Returned (scenario, false).
Proof. reflexivity. Qed.

Example refresh_with_missing_file :
  load_data toy_json_load (toy_fs Missing) scenario
  = Returned (scenario, false).
Proof. reflexivity. Qed.

Example refresh_replaces_wholesale :
  load_data toy_json_load (toy_fs (Content "{}")) scenario
  = Returned ({| json_path := "selections.json"; data := PyDict [] |}, true).
Proof. reflexivity. Qed.

Lemma load_data_failure_keeps_data_witness :
  load_data toy_json_load (toy_fs (Content "{ broken")) scenario
  = Returned (scenario, false)
  /\ data scenario = PyDict scenario_doc.
Proof.
  split; [| reflexivity].
  destruct (load_data_failure_keeps_data toy_json_load
              (toy_fs (Content "{ broken")) scenario)
    as [_ [_ [_ [_ [Hbad _]]]]].
  apply (Hbad "{ broken" (mk_exn JSONDecodeError "Expecting value"));
    reflexivity.
Defined.

(** ** The remote sync client *)

Section SyncFacts.
Variable net : network.
Variable self : CompanionAPI.t.

Local Abbreviation update_field := (CompanionAPI.update_field net self).
Local Abbreviation variable_map := (CompanionAPI.variable_map self).

(** The items of [song_data] for which the loop issues a write. *)
Definition in_table (item : string * string) : bool :=
  match dict_get variable_map (fst item) with
  | Some var_name => CompanionAPI.truthy var_name
  | None => false
  end.

(** A write of one of the fields of [song_data] that the table knows. *)
Definition field_write (song_data : dict string) (ev : event) : Prop :=
  exists key value var_name,
    In (key, value) song_data
    /\ dict_get variable_map key = Some var_name
    /\ ev = Post (CompanionAPI.field_url self var_name value).

Lemma update_field_skip (errors : list string) (item : string * string)
    (log : list event) :
  in_table item = false ->
  update_field errors item log = (Returned errors, log).
Proof.
  unfold in_table, CompanionAPI.update_field. destruct item as [key value].
  simpl. destruct (dict_get variable_map key) as [var_name |];
    [| reflexivity].
  intros ->. reflexivity.
Qed.

Lemma update_field_write (errors : list string) (key value : string)
    (log : list event) :
  in_table (key, value) = true ->
  exists var_name,
    dict_get variable_map key = Some var_name
    /\ snd (update_field errors (key, value) log)
       = (log ++ [Post (CompanionAPI.field_url self var_name value)])%list
    /\ fst (update_field errors (key, value) log)
       = match post_answer net log
                 (CompanionAPI.field_url self var_name value) with
         | Returned _ => Returned errors
         | Raised e =>
             if isinstance e RequestException
             then Returned (app errors [var_name ++ ": " ++ exn_str e])
             else Raised e
         end.
Proof.
  unfold in_table, CompanionAPI.update_field. simpl.
  destruct (dict_get variable_map key) as [var_name |]; [| discriminate].
  intros ->. exists var_name. split; [reflexivity |].
  unfold io_try, io_bind, requests_post, io_ret.
  destruct (post_answer net log _) as [r | e]; simpl.
  - split; reflexivity.
  - destruct (isinstance e RequestException); split; reflexivity.
Qed.

(** The loop only ever adds writes of known fields to the log. *)
Lemma loop_log (items : dict string) (errors : list string)
    (log : list event) :
  exists calls,
    snd (io_for items update_field errors log) = (log ++ calls)%list
    /\ Forall (field_write items) calls.
Proof.
  revert errors log.
  induction items as [| [key value] items IH]; intros errors log;
    cbn [io_for filter].
  - exists []. rewrite app_nil_r. split; [reflexivity | constructor].
  - unfold io_bind.
    assert (Hweaken : forall calls, Forall (field_write items) calls ->
              Forall (field_write ((key, value) :: items)) calls).
    { intros calls. apply Forall_impl.
      intros ev [k [v [vn [Hin H]]]]. exists k, v, vn.
      split; [right; exact Hin | exact H]. }
    destruct (in_table (key, value)) eqn:Htab.
    + destruct (update_field_write errors key value log Htab)
        as [var_name [Hvn [Hlog Hres]]].
      destruct (update_field errors (key, value) log) as [r log'].
      cbn [fst snd] in Hlog, Hres. subst log'.
      assert (Hfirst : field_write ((key, value) :: items)
                (Post (CompanionAPI.field_url self var_name value))).
      { exists key, value, var_name. split; [left; reflexivity |].
        split; [exact Hvn | reflexivity]. }
      destruct r as [errors' | e].
      * destruct (IH errors' (log ++ [Post (CompanionAPI.field_url self
                                              var_name value)])%list)
          as [calls [Hcalls Hall]].
        exists (Post (CompanionAPI.field_url self var_name value) :: calls).
        simpl. rewrite Hcalls, <- app_assoc. split; [reflexivity |].
        constructor; [exact Hfirst | apply Hweaken, Hall].
      * exists [Post (CompanionAPI.field_url self var_name value)].
        split; [reflexivity | constructor; [exact Hfirst | constructor]].
    + rewrite (update_field_skip errors (key, value) log Htab).
      destruct (IH errors log) as [calls [Hcalls Hall]].
      exists calls. split; [exact Hcalls | apply Hweaken, Hall].
Qed.

(** Items the table does not know leave no trace at all. *)
Lemma loop_skips_unknown (items : dict string) (errors : list string)
    (log : list event) :
  io_for items update_field errors log
  = io_for (filter (fun item => dict_has variable_map (fst item)) items)
      update_field errors log.
Proof.
  revert errors log.
  induction items as [| [key value] items IH]; intros errors log;
    cbn [io_for filter fst]; [reflexivity |].
  unfold dict_has at 1.
  destruct (dict_get variable_map key) as [var_name |] eqn:Hget.
  - cbn [io_for]. unfold io_bind.
    destruct (update_field errors (key, value) log) as [[errors' | e] log'];
      [apply IH | reflexivity].
  - unfold io_bind. rewrite update_field_skip.
    + apply IH.
    + unfold in_table. simpl. rewrite Hget. reflexivity.
Qed.

(** Every call to the target raises a [requests.RequestException]. *)
Definition every_call_fails : Prop :=
  forall log url,
    exists e, post_answer net log url = Raised e
              /\ isinstance e RequestException = true.

Lemma loop_all_fail (items : dict string) (errors : list string)
    (log : list event) :
  every_call_fails ->
  exists errs calls,
    io_for items update_field errors log
    = (Returned (errors ++ errs)%list, (log ++ calls)%list)
    /\ List.length errs = List.length (filter in_table items)
    /\ List.length calls = List.length (filter in_table items).
Proof.
  intros Hfail. revert errors log.
  induction items as [| [key value] items IH]; intros errors log;
    cbn [io_for filter].
  - exists [], []. rewrite !app_nil_r. repeat split.
  - unfold io_bind. destruct (in_table (key, value)) eqn:Htab.
    + destruct (update_field_write errors key value log Htab)
        as [var_name [Hvn [Hlog Hres]]].
      destruct (Hfail log (CompanionAPI.field_url self var_name value))
        as [e [He Hcls]].
      rewrite He, Hcls in Hres.
      destruct (update_field errors (key, value) log) as [r log'].
      cbn [fst snd] in Hlog, Hres. subst r log'. cbv beta iota.
      destruct (IH (app errors [var_name ++ ": " ++ exn_str e])
                  (log ++ [Post (CompanionAPI.field_url self
                                   var_name value)])%list)
        as [errs [calls [Hrun [Hlen1 Hlen2]]]].
      exists ((var_name ++ ": " ++ exn_str e) :: errs),
        (Post (CompanionAPI.field_url self var_name value) :: calls).
      rewrite Hrun, <- !app_assoc. cbn [app List.length].
      repeat split; congruence.
    + rewrite (update_field_skip errors (key, value) log Htab).
      apply IH.
Qed.

End SyncFacts.




(** The log of a push: the date write, then writes of known fields. *)
Lemma update_log (net : network) (self : CompanionAPI.t)
    (song_data : dict string) (service_date : string) (log : list event) :
  exists calls,
    snd (CompanionAPI.update_service_data net self song_data service_date log)
    = (log ++ Post (CompanionAPI.date_url self service_date) :: calls)%list
    /\ Forall (field_write self song_data) calls.
Proof.
  unfold CompanionAPI.update_service_data, io_bind at 1.
  unfold io_try, io_bind, requests_post, io_ret.
  set (first_log :=
         (log ++ [Post (CompanionAPI.date_url self service_date)])%list).
  assert (Hloop : forall errors, exists calls,
            snd (io_for (dict_items song_data)
                   (CompanionAPI.update_field net self) errors first_log)
            = (log ++ Post (CompanionAPI.date_url self service_date)
                   :: calls)%list
            /\ Forall (field_write self song_data) calls).
  { intros errors.
    destruct (loop_log net self song_data errors first_log)
      as [calls [Hcalls Hall]].
    exists calls. split; [| exact Hall].
    unfold dict_items. rewrite Hcalls. unfold first_log.
    rewrite <- app_assoc. reflexivity. }
  destruct (post_answer net log _) as [r | e].
  - apply Hloop.
  - destruct (isinstance e RequestException).
    + apply Hloop.
    + exists []. split; [reflexivity | constructor].
Qed.

(** C7.  In every run of [update_service_data], whatever the network
    does, the first call attempted is the write of the service date; every
    write of a field comes after it. *)
Theorem update_service_data_date_first (net : network)
    (self : CompanionAPI.t) (song_data : dict string)
    (service_date : string) (log : list event) :
  exists calls,
    snd (CompanionAPI.update_service_data net self song_data service_date log)
    = (log ++ Post (CompanionAPI.date_url self service_date) :: calls)%list
    /\ Forall (field_write self song_data) calls.
Proof. apply update_log. Qed.

(** C9.  [update_service_data] issues a write only for the service date
    and for keys of the fixed table of twelve entries.  A key outside the
    table is skipped: its turn of the loop makes no call and adds no
    error, and dropping every such key from the mapping changes neither
    the calls nor the returned errors. *)
Theorem update_service_data_skips_unknown_keys (net : network)
    (ip : string) (song_data : dict string) (service_date : string)
    (log : list event) :
  let self := CompanionAPI.init ip in
  let table := CompanionAPI.variable_map self in
  List.length table = 12%nat
  /\ (exists calls,
        snd (CompanionAPI.update_service_data net self song_data
               service_date log)
        = (log ++ Post (CompanionAPI.date_url self service_date) :: calls)%list
        /\ Forall
             (fun ev =>
                exists key value var_name,
                  In (key, value) song_data
                  /\ In key (dict_keys table)
                  /\ dict_get table key = Some var_name
                  /\ ev = Post (CompanionAPI.field_url self var_name value))
             calls)
  /\ (forall key value errors log',
        ~ In key (dict_keys table) ->
        CompanionAPI.update_field net self errors (key, value) log'
        = (Returned errors, log'))
  /\ CompanionAPI.update_service_data net self song_data service_date log
     = CompanionAPI.update_service_data net self
         (filter (fun item => dict_has table (fst item)) song_data)
         service_date log.
Proof.
  intros self table. split; [reflexivity |]. split; [| split].
  - destruct (update_log net self song_data service_date log)
      as [calls [Hcalls Hall]].
    exists calls. split; [exact Hcalls |].
    revert Hall. apply Forall_impl.
    intros ev [key [value [var_name [Hin [Hget Hev]]]]].
    exists key, value, var_name. repeat split; try assumption.
    apply dict_get_keys with var_name. exact Hget.
  - intros key value errors log' Hnin. apply update_field_skip.
    unfold in_table. cbn [fst]. fold table.
    destruct (dict_get table key) as [var_name |] eqn:Hget; [| reflexivity].
    apply dict_get_keys in Hget. contradiction.
  - unfold CompanionAPI.update_service_data, io_bind at 1 3.
    destruct (io_try _ _ _ log) as [[errors | e] log']; [| reflexivity].
    unfold dict_items. apply loop_skips_unknown.
Qed.

(** ** The writes of a push *)

(** The address that one item of the mapping is written to, if any. *)
Definition item_url (self : CompanionAPI.t) (item : string * string)
  : option string :=
  match dict_get (CompanionAPI.variable_map self) (fst item) with
  | Some var_name =>
      if CompanionAPI.truthy var_name
      then Some (CompanionAPI.field_url self var_name (snd item))
      else None
  | None => None
  end.

Definition item_call (self : CompanionAPI.t) (item : string * string)
  : list event :=
  match item_url self item with
  | Some url => [Post url]
  | None => []
  end.

(** The writes of a push, in the order of the mapping. *)
Definition push_calls (self : CompanionAPI.t) (song_data : dict string)
    (service_date : string) : list event :=
  Post (CompanionAPI.date_url self service_date)
  :: flat_map (item_call self) song_data.

(** Whether the network answers the call with an exception. *)
Definition call_fails (net : network) (log : list event) (call : event)
  : bool :=
  match call with
  | Connect host port =>
      match connect_answer net log host port with
      | Raised _ => true
      | Returned _ => false
      end
  | Get url =>
      match get_answer net log url with
      | Raised _ => true
      | Returned _ => false
      end
  | Post url =>
      match post_answer net log url with
      | Raised _ => true
      | Returned _ => false
      end
  end.

(** How many of the calls, made in this order from this log on, fail. *)
Fixpoint failed_calls (net : network) (log : list event)
    (calls : list event) : nat :=
  match calls with
  | [] => 0
  | call :: calls' =>
      ((if call_fails net log call then 1 else 0)
       + failed_calls net (log ++ [call]) calls')%nat
  end.

(** Whatever a write raises is a [requests.RequestException]. *)
Definition only_request_errors (net : network) : Prop :=
  forall log url e,
    post_answer net log url = Raised e ->
    isinstance e RequestException = true.

Lemma update_field_run (net : network) (self : CompanionAPI.t)
    (errors : list string) (item : string * string) (log : list event) :
  CompanionAPI.update_field net self errors item log
  = match item_url self item with
    | Some url =>
        (match post_answer net log url with
         | Returned _ => Returned errors
         | Raised e =>
             if isinstance e RequestException then
               Returned
                 (app errors
                    [match dict_get (CompanionAPI.variable_map self)
                             (fst item) with
                     | Some var_name => var_name
                     | None => ""
                     end ++ ": " ++ exn_str e])
             else Raised e
         end, (log ++ [Post url])%list)
    | None => (Returned errors, log)
    end.
Proof.
  destruct item as [key value].
  unfold item_url, CompanionAPI.update_field. cbn [fst snd].
  destruct (dict_get (CompanionAPI.variable_map self) key) as [var_name |];
    [| reflexivity].
  destruct (CompanionAPI.truthy var_name); [| reflexivity].
  unfold io_try, io_bind, requests_post, io_ret.
  destruct (post_answer net log _) as [r | e]; [reflexivity |].
  destruct (isinstance e RequestException); reflexivity.
Qed.

Lemma push_calls_are_writes (self : CompanionAPI.t)
    (song_data : dict string) (service_date : string) :
  Forall (fun c => exists url, c = Post url)
    (push_calls self song_data service_date).
Proof.
  unfold push_calls. constructor; [eauto |].
  apply Forall_forall. intros c Hc.
  apply in_flat_map in Hc. destruct Hc as [item [_ Hc]].
  unfold item_call in Hc. destruct (item_url self item) as [u |];
    [| destruct Hc].
  destruct Hc as [<- | []]. eauto.
Qed.

(** ** A push that fails at every write *)

(** Whether a write raises a [requests.RequestException]. *)
Definition raises_request_error (net : network) (log : list event)
    (call : event) : bool :=
  match call with
  | Post url =>
      match post_answer net log url with
      | Raised e => isinstance e RequestException
      | Returned _ => false
      end
  | _ => false
  end.

(** Whether each of the calls, made in this order from this log on, is a
    write that raises a [requests.RequestException]. *)
Fixpoint every_write_raises (net : network) (log : list event)
    (calls : list event) : bool :=
  match calls with
  | [] => true
  | call :: calls' =>
      raises_request_error net log call
      && every_write_raises net (log ++ [call]) calls'
  end.

(** In the words of the specification, a call that fails: it raises, or
    it is answered with an error status. *)
Definition unsuccessful (answer : result response) : bool :=
  match answer with
  | Raised _ => true
  | Returned r => 400 <=? status_code r
  end.

Definition target_fails_every_call (net : network) : Prop :=
  forall log url, unsuccessful (post_answer net log url) = true.









(** A target that refuses every connection. *)
Definition net_down : network :=
  {| connect_answer := fun _ _ _ =>
       Raised (mk_exn ConnectionRefusedError "Connection refused");
     get_answer := fun _ _ =>
       Raised (mk_exn ConnectionError "Connection refused");
     post_answer := fun _ _ =>
       Raised (mk_exn ConnectionError "Connection refused") |}.

(** A target that answers every call, with the given status. *)
Definition net_up (status : Z) : network :=
  {| connect_answer := fun _ _ _ => Returned tt;
     get_answer := fun _ _ => Returned (mk_response status "01/01/2099");
     post_answer := fun _ _ => Returned (mk_response status "") |}.

(** A target on which every write raises the given exception. *)
Definition net_raising (e : exn) : network :=
  {| connect_answer := fun _ _ _ => Returned tt;
     get_answer := fun _ _ => Raised e;
     post_answer := fun _ _ => Raised e |}.

Definition twelve_fields : dict string :=
  map (fun key => (key, "none")) song_keys.

Example push_to_dead_target :
  fst (CompanionAPI.update_service_data net_down (CompanionAPI.init "10.0.0.5")
         twelve_fields "01/01/2099" [])
  = Returned
      [ "ServiceDate: Connection refused"; "9amSong1: Connection refused";
        "9amSong2: Connection refused"; "9amSong3: Connection refused";
        "9amStart: Connection refused"; "9amEnd: Connection refused";
        "9amCommunion: Connection refused";
        "9amSong1Path: Connection refused";
        "9amSong2Path: Connection refused";
        "9amSong3Path: Connection refused";
        "9amStartPath: Connection refused";
        "9amEndPath: Connection refused";
        "9amCommunionPath: Connection refused" ].
Proof. reflexivity. Qed.

Example push_skips_unknown_key :
  CompanionAPI.update_service_data (net_up 200) (CompanionAPI.init "10.0.0.5")
    [("song1", "Amazing Grace"); ("sermon", "Psalm 23")] "01/01/2099" []
  = (Returned [],
     [ Post ("http://10.0.0.5:8000/api/custom-variable"
             ++ "/ServiceDate/value?value=01/01/2099");
       Post ("http://10.0.0.5:8000/api/custom-variable"
             ++ "/9amSong1/value?value=Amazing Grace") ]).
Proof. reflexivity. Qed.

(** An answer with an error status is an answer: nothing raises, and the
    push records no error for it. *)
Example push_to_erroring_target :
  fst (CompanionAPI.update_service_data (net_up 500)
         (CompanionAPI.init "10.0.0.5") twelve_fields "01/01/2099" [])
  = Returned [].
Proof. reflexivity. Qed.

Lemma net_down_fails : every_call_fails net_down.
Proof. intros log url. eexists. split; reflexivity. Qed.


(** On a dead target each write raises a request error. *)
Example dead_target_every_write_raises :
  every_write_raises net_down []
    (push_calls (CompanionAPI.init "10.0.0.5") twelve_fields "01/01/2099")
  = true.
Proof. reflexivity. Qed.



(** Nor does it never raise.  When a write raises something else than a
    request error, as the [ValueError] that urllib3 has for a host name
    with an empty label, the push raises it at the first write. *)
Example push_raises_foreign_error :
  let e := mk_exn ValueError
             "Failed to parse: '10..5', label empty or too long" in
  target_fails_every_call (net_raising e)
  /\ CompanionAPI.update_service_data (net_raising e)
       (CompanionAPI.init "10..5") twelve_fields "01/01/2099" []
     = (Raised e,
        [Post ("http://10..5:8000/api/custom-variable"
               ++ "/ServiceDate/value?value=01/01/2099")]).
Proof. split; [intros log url |]; reflexivity. Qed.

(** ** The reachability probe *)

Section ProbeFacts.
Variable net : network.
Variable self : CompanionAPI.t.
Variable log : list event.

Local Abbreviation connect_result :=
  (connect_answer net log (CompanionAPI.companion_ip self) 8000).
Local Abbreviation get_result :=
  (get_answer net
     (log ++ [Connect (CompanionAPI.companion_ip self) 8000])%list
     (CompanionAPI.base_url self ++ "/ServiceDate/value")).

(** The host cannot be reached: the name does not resolve, the attempt
    times out, or the system reports another error. *)
Definition host_unreachable : Prop :=
  exists e, connect_result = Raised e
            /\ (exn_cls e = gaierror \/ exn_cls e = TimeoutError
                \/ exn_cls e = OSError).

Definition port_closed : Prop :=
  exists e, connect_result = Raised e /\ exn_cls e = ConnectionRefusedError.

Definition http_times_out : Prop :=
  connect_result = Returned tt
  /\ exists e, get_result = Raised e /\ exn_cls e = Timeout.

Lemma test_connection_value :
  fst (CompanionAPI.test_connection net self log)
  = match connect_result with
    | Returned _ =>
        match get_result with
        | Returned response => Returned (status_code response =? 200)
        | Raised e =>
            if CompanionAPI.catches_network_error e
            then Returned false else Raised e
        end
    | Raised e =>
        if CompanionAPI.catches_network_error e
        then Returned false else Raised e
    end.
Proof.
  unfold CompanionAPI.test_connection, io_try, io_bind,
    socket_create_connection, requests_get, io_ret.
  destruct connect_result as [[] | e].
  - destruct get_result as [r | e]; [reflexivity |].
    destruct (CompanionAPI.catches_network_error e); reflexivity.
  - destruct (CompanionAPI.catches_network_error e); reflexivity.
Qed.

End ProbeFacts.

(** C5.  [test_connection] returns [False], and so does not raise, when
    the host is unreachable, when the port is closed and when the HTTP
    call times out; more generally it never raises when whatever the
    socket or the HTTP call raises is a network error.  It returns [True]
    exactly when the socket connects and the GET of
    [ServiceDate/value] answers with status 200. *)
Theorem test_connection_false_on_network_errors (net : network)
    (self : CompanionAPI.t) (log : list event) :
  (host_unreachable net self log \/ port_closed net self log
   \/ http_times_out net self log ->
   fst (CompanionAPI.test_connection net self log) = Returned false)
  /\ ((forall e, connect_answer net log (CompanionAPI.companion_ip self) 8000
                 = Raised e ->
                 isinstance e OSError = true) ->
      (forall e, get_answer net
                   (log ++ [Connect (CompanionAPI.companion_ip self) 8000])%list
                   (CompanionAPI.base_url self ++ "/ServiceDate/value")
                 = Raised e ->
                 isinstance e RequestException = true) ->
      exists b, fst (CompanionAPI.test_connection net self log) = Returned b)
  /\ (fst (CompanionAPI.test_connection net self log) = Returned true <->
      connect_answer net log (CompanionAPI.companion_ip self) 8000
      = Returned tt
      /\ exists response,
           get_answer net
             (log ++ [Connect (CompanionAPI.companion_ip self) 8000])%list
             (CompanionAPI.base_url self ++ "/ServiceDate/value")
           = Returned response
           /\ status_code response = 200).
Proof.
  rewrite test_connection_value.
  unfold host_unreachable, port_closed, http_times_out,
    CompanionAPI.catches_network_error.
  split; [| split].
  - intros [[e [-> Hc]] | [[e [-> Hc]] | [-> [e [-> Hc]]]]];
      destruct e as [c msg]; simpl in Hc.
    + destruct Hc as [-> | [-> | ->]]; reflexivity.
    + subst c; reflexivity.
    + subst c; reflexivity.
  - intros Hconn Hget.
    destruct (connect_answer net log _ 8000) as [[] | e].
    + destruct (get_answer net _ _) as [r | e]; [eauto |].
      rewrite (Hget e eq_refl), orb_true_r. eauto.
    + rewrite (Hconn e eq_refl). simpl. eauto.
  - destruct (connect_answer net log _ 8000) as [[] | e].
    + destruct (get_answer net _ _) as [r | e].
      * split.
        -- intros [= H]. apply Z.eqb_eq in H. eauto.
        -- intros [_ [r' [[= <-] H]]]. rewrite H. reflexivity.
      * split.
        -- destruct (_ || _); discriminate.
        -- intros [_ [r' [H _]]]. discriminate.
    + split.
      * destruct (_ || _); discriminate.
      * intros [H _]. discriminate.
Qed.

Example probe_dead_target :
  CompanionAPI.test_connection net_down (CompanionAPI.init "10.0.0.5") []
  = (Returned false, [Connect "10.0.0.5" 8000]).
Proof. reflexivity. Qed.

Example probe_live_target :
  CompanionAPI.test_connection (net_up 200) (CompanionAPI.init "10.0.0.5") []
  = (Returned true,
     [ Connect "10.0.0.5" 8000;
       Get "http://10.0.0.5:8000/api/custom-variable/ServiceDate/value" ]).
Proof. reflexivity. Qed.

Example probe_wrong_status :
  fst (CompanionAPI.test_connection (net_up 404)
         (CompanionAPI.init "10.0.0.5") [])
  = Returned false.
Proof. reflexivity. Qed.

(** An address that the resolver rejects before any network traffic
    raises an error that is not a network error; the probe lets it
    through. *)
Example probe_malformed_address :
  fst (CompanionAPI.test_connection
         {| connect_answer := fun _ _ _ =>
              Raised (mk_exn UnicodeError "label empty or too long");
            get_answer := get_answer net_down;
            post_answer := post_answer net_down |}
         (CompanionAPI.init "10..5") [])
  = Raised (mk_exn UnicodeError "label empty or too long").
Proof. reflexivity. Qed.

Lemma test_connection_false_on_network_errors_witness :
  fst (CompanionAPI.test_connection net_down (CompanionAPI.init "10.0.0.5") [])
  = Returned false.
Proof.
  apply (test_connection_false_on_network_errors net_down
           (CompanionAPI.init "10.0.0.5") []).
  right. left. eexists. split; reflexivity.
Defined.

(** * The settings store *)

(** ** Text *)

Import Text.

Lemma append_assoc (a b c : string) : ((a ++ b) ++ c = a ++ (b ++ c))%string.
Proof. induction a as [| x a IH]; simpl; [reflexivity | now rewrite IH]. Qed.

Lemma append_empty_r (a : string) : (a ++ "")%string = a.
Proof. induction a as [| x a IH]; simpl; [reflexivity | now rewrite IH]. Qed.

Lemma contains_app (c : ascii) (a b : string) :
  contains c (a ++ b) = contains c a || contains c b.
Proof.
  induction a as [| x a IH]; simpl; [reflexivity |].
  rewrite IH. apply orb_assoc.
Qed.

Lemma replace_char_absent (c : ascii) (by_ s : string) :
  contains c s = false -> replace_char c by_ s = s.
Proof.
  induction s as [| x s IH]; simpl; [reflexivity |].
  intros H. apply orb_false_iff in H. destruct H as [Hx Hs].
  rewrite Hx, (IH Hs). reflexivity.
Qed.

Lemma split_lines_line (l rest : string) :
  contains LF l = false ->
  split_lines (l ++ String LF rest) = l :: split_lines rest.
Proof.
  induction l as [| x l IH]; simpl; intros H.
  - reflexivity.
  - apply orb_false_iff in H. destruct H as [Hx Hl].
    rewrite Hx, (IH Hl). reflexivity.
Qed.

Lemma universal_newlines_no_cr (s : string) :
  contains CR s = false -> universal_newlines s = s.
Proof.
  induction s as [| x s IH]; simpl; [reflexivity |].
  intros H. apply orb_false_iff in H. destruct H as [Hx Hs].
  rewrite Hx, (IH Hs). reflexivity.
Qed.

Lemma universal_newlines_crlf (s : string) :
  contains CR s = false ->
  universal_newlines (replace_char LF (String CR (String LF "")) s) = s.
Proof.
  induction s as [| x s IH]; simpl; [reflexivity |].
  intros H. apply orb_false_iff in H. destruct H as [Hx Hs].
  destruct (Ascii.eqb_spec x LF) as [-> | Hne]; simpl.
  - rewrite (IH Hs). reflexivity.
  - rewrite Hx, (IH Hs). reflexivity.
Qed.

(** What is written comes back as written, on either platform, when it
    holds no carriage return. *)
Lemma read_back (crlf : bool) (s : string) :
  contains CR s = false ->
  universal_newlines (platform_newlines crlf s) = s.
Proof.
  intros H. destruct crlf; simpl.
  - apply universal_newlines_crlf, H.
  - apply universal_newlines_no_cr, H.
Qed.

Lemma rstrip_blank_suffix (s w : string) :
  rstrip w = ""%string -> rstrip (s ++ w) = rstrip s.
Proof.
  intros Hw. induction s as [| x s IH]; simpl; [exact Hw |].
  rewrite IH. reflexivity.
Qed.

Lemma rstrip_kept_suffix (s t : string) :
  rstrip t <> ""%string -> rstrip (s ++ t) = (s ++ rstrip t)%string.
Proof.
  intros Ht. induction s as [| x s IH]; simpl; [reflexivity |].
  rewrite IH. destruct (s ++ rstrip t)%string eqn:E; [| reflexivity].
  destruct s; simpl in E; [contradiction | discriminate].
Qed.

(** ** Plain settings: what the file format keeps as it is *)

Import ConfigParser.

Definition no_line_break (s : string) : bool :=
  negb (contains LF s) && negb (contains CR s).

(** Neither the first nor the last character is white. *)
Definition stripped (s : string) : bool :=
  String.eqb (lstrip s) s && String.eqb (rstrip s) s.

(** A value on one line, with no white space around it. *)
Definition plain_line (v : string) : bool := no_line_break v && stripped v.

(** A plain line without the interpolation character. *)
Definition plain_value (v : string) : bool :=
  plain_line v && negb (contains "%" v).

Definition plain_key (k : string) : bool :=
  negb (is_empty k) && stripped k && String.eqb (lower k) k
  && no_line_break k
  && negb (contains "=" k) && negb (contains ":" k)
  && negb (starts_with "#" k) && negb (starts_with ";" k)
  && negb (starts_with "[" k).

Definition plain_name (n : string) : bool :=
  negb (is_empty n) && no_line_break n
  && negb (String.eqb n default_section).

Definition plain_section (s : string * dict string) : Prop :=
  plain_name (fst s) = true
  /\ dict_wf (snd s)
  /\ Forall (fun item => plain_key (fst item) = true
                         /\ plain_line (snd item) = true) (snd s).

(** A parser whose file holds sections of one-line options only. *)
Definition plain_config (p : ConfigParser.t) : Prop :=
  defaults p = []
  /\ dict_wf (sections p)
  /\ Forall plain_section (sections p).

Lemma stripped_spec (s : string) :
  stripped s = true -> lstrip s = s /\ rstrip s = s.
Proof.
  unfold stripped. rewrite andb_true_iff, !String.eqb_eq. tauto.
Qed.

Lemma no_line_break_spec (s : string) :
  no_line_break s = true -> contains LF s = false /\ contains CR s = false.
Proof.
  unfold no_line_break. rewrite andb_true_iff, !negb_true_iff. tauto.
Qed.

Lemma plain_line_spec (v : string) :
  plain_line v = true ->
  contains LF v = false /\ contains CR v = false
  /\ lstrip v = v /\ rstrip v = v.
Proof.
  unfold plain_line. rewrite andb_true_iff. intros [H1 H2].
  apply no_line_break_spec in H1. apply stripped_spec in H2. tauto.
Qed.

Lemma plain_key_spec (k : string) :
  plain_key k = true ->
  exists c k', k = String c k' /\ isspace c = false
    /\ Ascii.eqb c "#" = false /\ Ascii.eqb c ";" = false
    /\ Ascii.eqb c "[" = false
    /\ rstrip k = k /\ lower k = k
    /\ contains LF k = false /\ contains CR k = false
    /\ contains "=" k = false /\ contains ":" k = false.
Proof.
  unfold plain_key. rewrite !andb_true_iff, !negb_true_iff.
  intros [[[[[[[[H1 H2] H3] H4] H5] H6] H7] H8] H9].
  apply stripped_spec in H2. apply no_line_break_spec in H4.
  apply String.eqb_eq in H3.
  destruct k as [| c k']; [discriminate |].
  exists c, k'. simpl in H7, H8, H9. destruct H2 as [Hl Hr].
  simpl in Hl. destruct (isspace c) eqn:Hc.
  - exfalso. clear - Hl.
    assert (Hlen : forall s, (String.length (lstrip s) <= String.length s)%nat).
    { induction s as [| x s IH]; simpl; [lia |].
      destruct (isspace x); simpl; lia. }
    pose proof (Hlen k') as H. rewrite Hl in H. simpl in H. lia.
  - repeat split; try assumption; tauto.
Qed.

(** ** The lines of a written file *)

Definition header_text (name : string) : string := "[" ++ name ++ "]".

Definition option_text (item : string * string) : string :=
  fst item ++ " = " ++ snd item.

Definition section_lines (s : string * dict string) : list string :=
  header_text (fst s) :: map option_text (snd s) ++ [""%string].

Lemma before_last_bracket_closing (name : string) :
  before_last_bracket (name ++ "]") = Some name.
Proof.
  induction name as [| c name IH]; simpl; [reflexivity |].
  rewrite IH. reflexivity.
Qed.

Lemma split_at_delimiter_app (k rest : string) :
  contains "=" k = false -> contains ":" k = false ->
  split_at_delimiter (k ++ rest)
  = match split_at_delimiter rest with
    | Some (a, b) => Some ((k ++ a)%string, b)
    | None => None
    end.
Proof.
  induction k as [| c k IH]; simpl; intros H1 H2.
  - destruct (split_at_delimiter rest) as [[a b] |]; reflexivity.
  - apply orb_false_iff in H1. destruct H1 as [Hc1 Hk1].
    apply orb_false_iff in H2. destruct H2 as [Hc2 Hk2].
    unfold is_delimiter. rewrite Hc1, Hc2. simpl.
    rewrite (IH Hk1 Hk2).
    destruct (split_at_delimiter rest) as [[a b] |]; reflexivity.
Qed.

Lemma rstrip_option_text (k v : string) :
  rstrip (k ++ " = " ++ v)
  = (k ++ String " " (String "=" (rstrip (String " " v))))%string.
Proof.
  assert (H : rstrip (" = " ++ v)
              = String " " (String "=" (rstrip (String " " v)))).
  { change (" = " ++ v)%string with (String " " (String "=" (String " " v))).
    change (rstrip (String " " (String "=" (String " " v))))
      with (match rstrip (String "=" (String " " v)) with
            | EmptyString => EmptyString
            | r => String " " r
            end).
    change (rstrip (String "=" (String " " v)))
      with (match rstrip (String " " v) with
            | EmptyString => String "=" EmptyString
            | r => String "=" r
            end).
    destruct (rstrip (String " " v)); reflexivity. }
  rewrite rstrip_kept_suffix; rewrite H; [reflexivity | discriminate].
Qed.

Lemma value_of_option_text (v : string) :
  lstrip v = v -> rstrip v = v ->
  strip (lstrip (rstrip (String " " v))) = v.
Proof.
  intros Hl Hr. destruct v as [| c v']; [reflexivity |].
  change (rstrip (String " " (String c v')))
    with (match rstrip (String c v') with
          | EmptyString => EmptyString
          | r => String " " r
          end).
  rewrite Hr. change (lstrip (String " " (String c v')))
    with (lstrip (String c v')).
  unfold strip. rewrite Hl, Hl, Hr. reflexivity.
Qed.

(** ** Reading back a written file, line by line *)

Lemma concat_snoc (sep x y : string) (m : list string) :
  String.concat sep ((y :: m) ++ [x])
  = (String.concat sep (y :: m) ++ sep ++ x)%string.
Proof.
  revert y. induction m as [| z m IH]; intros y.
  - reflexivity.
  - change (String.concat sep ((y :: z :: m) ++ [x]))
      with (y ++ sep ++ String.concat sep ((z :: m) ++ [x]))%string.
    change (String.concat sep (y :: z :: m))
      with (y ++ sep ++ String.concat sep (z :: m))%string.
    rewrite IH, !append_assoc. reflexivity.
Qed.

Lemma join_snoc_empty (l : list string) :
  rstrip (join NL (l ++ [""%string])) = rstrip (join NL l).
Proof.
  destruct l as [| x l]; [reflexivity |].
  unfold join. rewrite concat_snoc.
  apply rstrip_blank_suffix. reflexivity.
Qed.

(** A line that starts in the first column and is not a comment is a
    section header or an option, never a continuation. *)
Lemma read_line_unindented (st : read_state) (c : ascii) (rest : string) :
  isspace c = false ->
  is_comment (rstrip (String c rest)) = false ->
  is_empty (rstrip (String c rest)) = false ->
  read_line st (String c rest)
  = match section_header (rstrip (String c rest)) with
    | Some sectname => enter_section (with_indent st 0) sectname
    | None => enter_option (with_indent st 0) (rstrip (String c rest))
    end.
Proof.
  intros Hc Hcomment Hempty. unfold read_line, strip.
  change (lstrip (String c rest))
    with (if isspace c then lstrip rest else String c rest).
  change (indent_of (String c rest))
    with (if isspace c then S (indent_of rest) else O).
  rewrite Hc, Hcomment, Hempty.
  destruct (open_option st) as [[sectname opt] |]; [| reflexivity].
  destruct (indent_level st); reflexivity.
Qed.

(** The parser has read the sections [read] from the file so far. *)
Definition reading (st : read_state) (read : dict (dict string)) : Prop :=
  rs_defaults st = []
  /\ map_values join_cells (rs_sections st) = read
  /\ parse_error st = false
  /\ (forall s o, In (s, o) (added_options st) ->
        exists d, dict_get read s = Some d /\ In o (dict_keys d))
  /\ (forall s o, open_option st = Some (s, o) ->
        exists cells l,
          dict_get (rs_sections st) s = Some cells
          /\ dict_get cells o = Some (Lines l)).

Ltac split_reading :=
  unfold reading; split; [| split; [| split; [| split]]];
  cbn [rs_defaults rs_sections parse_error added_options];
  try assumption; try reflexivity.

Lemma read_blank_line (st : read_state) (read : dict (dict string)) :
  reading st read ->
  exists st',
    read_line st "" = Returned st'
    /\ reading st' read /\ cursect st' = cursect st.
Proof.
  intros Hreading.
  pose proof Hreading as (Hdef & Hview & Herr & Hadded & Hopen).
  unfold read_line.
  cbn [strip lstrip rstrip is_comment starts_with orb is_empty].
  destruct (open_option st) as [[s o] |] eqn:Ho.
  - destruct (Hopen s o eq_refl) as (cells & l & Hcells & Hl).
    unfold append_line, section_cells. rewrite Hcells, Hl.
    eexists. split; [reflexivity |].
    unfold put_cell, section_cells, dict_has. rewrite Hcells.
    split; [| reflexivity].
    split_reading.
    + rewrite dict_set_map_values.
      set (grown := Lines (l ++ [""%string])).
      change (join_cells (dict_set cells o grown))
        with (map_values join_cell (dict_set cells o grown)).
      subst grown.
      rewrite dict_set_map_values.
      cbn [join_cell]. rewrite join_snoc_empty.
      rewrite (dict_set_same (map_values join_cell cells)).
      * rewrite dict_set_same; [exact Hview |].
        rewrite dict_get_map_values, Hcells. reflexivity.
      * rewrite dict_get_map_values, Hl. reflexivity.
    + intros s' o' Ho'.
      assert (Heq : (s', o') = (s, o)).
      { unfold open_option in Ho, Ho'. cbn [cursect optname] in Ho'.
        congruence. }
      injection Heq as -> ->.
      exists (dict_set cells o (Lines (l ++ [""%string]))),
        (l ++ [""%string])%list.
      rewrite !dict_get_set, !String.eqb_refl. split; reflexivity.
  - exists st. split; [reflexivity |]. split; [exact Hreading | reflexivity].
Qed.

Lemma strip_header_text (name : string) :
  rstrip (String "[" (name ++ "]")) = String "[" (name ++ "]").
Proof.
  change (String "[" (name ++ "]")) with (String "[" name ++ "]")%string.
  rewrite rstrip_kept_suffix; [reflexivity | discriminate].
Qed.

Lemma plain_name_spec (name : string) :
  plain_name name = true ->
  is_empty name = false
  /\ contains LF name = false /\ contains CR name = false
  /\ String.eqb name default_section = false.
Proof.
  unfold plain_name. rewrite !andb_true_iff, !negb_true_iff.
  intros [[H1 H2] H3]. apply no_line_break_spec in H2. tauto.
Qed.

Lemma read_header_line (st : read_state) (read : dict (dict string))
    (name : string) :
  reading st read ->
  plain_name name = true ->
  ~ In name (dict_keys read) ->
  exists st',
    read_line st (header_text name) = Returned st'
    /\ reading st' (read ++ [(name, [])])%list
    /\ cursect st' = Some name.
Proof.
  intros (Hdef & Hview & Herr & Hadded & Hopen) Hname Hfresh.
  apply plain_name_spec in Hname.
  destruct Hname as (Hne & _ & _ & Hnotdefault).
  change (header_text name) with (String "[" (name ++ "]")).
  rewrite read_line_unindented;
    rewrite ?strip_header_text; try reflexivity.
  unfold section_header.
  change (Ascii.eqb "[" "[") with true. cbv iota.
  rewrite before_last_bracket_closing, Hne.
  unfold enter_section. cbn [with_indent rs_sections rs_defaults
    added_sections added_options parse_error indent_level].
  assert (Hhas : dict_has (rs_sections st) name = false).
  { destruct (dict_has (rs_sections st) name) eqn:H; [| reflexivity].
    apply dict_has_keys in H.
    rewrite <- (dict_keys_map_values join_cells), Hview in H.
    contradiction. }
  rewrite Hhas, Hnotdefault.
  eexists. split; [reflexivity |]. split; [| reflexivity].
  assert (Hfresh' : ~ In name (dict_keys (rs_sections st))).
  { intros H. apply dict_has_keys in H. congruence. }
  split_reading.
  - rewrite (dict_set_fresh _ _ _ Hfresh').
    unfold map_values in *. rewrite map_app, Hview. reflexivity.
  - intros s o Hin. destruct (Hadded s o Hin) as (d & Hd & Ho).
    exists d. rewrite dict_get_app, Hd. split; [reflexivity | exact Ho].
  - intros s o H. discriminate H.
Qed.

Lemma read_option_line (st : read_state) (read : dict (dict string))
    (name : string) (done : dict string) (k v : string) :
  reading st (read ++ [(name, done)])%list ->
  cursect st = Some name ->
  ~ In name (dict_keys read) ->
  plain_key k = true -> plain_line v = true ->
  ~ In k (dict_keys done) ->
  exists st',
    read_line st (option_text (k, v)) = Returned st'
    /\ reading st' (read ++ [(name, done ++ [(k, v)])])%list
    /\ cursect st' = Some name.
Proof.
  intros (Hdef & Hview & Herr & Hadded & Hopen) Hcur Hname Hk Hv Hfresh.
  destruct (plain_key_spec k Hk)
    as (c & k' & -> & Hc & Hc1 & Hc2 & Hc3 & Hkr & Hkl & _ & _ & Hk1 & Hk2).
  destruct (plain_line_spec v Hv) as (_ & _ & Hvl & Hvr).
  set (k := String c k') in *.
  unfold option_text. cbn [fst snd].
  change (k ++ " = " ++ v)%string with (String c (k' ++ " = " ++ v)).
  assert (Hvalue : rstrip (String c (k' ++ " = " ++ v))
            = String c (k' ++ String " " (String "=" (rstrip (String " " v))))).
  { exact (rstrip_option_text k v). }
  rewrite read_line_unindented; rewrite ?Hvalue;
    [| exact Hc | unfold is_comment, starts_with; rewrite Hc1, Hc2; reflexivity
     | reflexivity].
  cbn [section_header]. rewrite Hc3.
  unfold enter_option. cbn [with_indent cursect]. rewrite Hcur.
  unfold option_line.
  change (String c (k' ++ String " " (String "=" (rstrip (String " " v)))))
    with (k ++ String " " (String "=" (rstrip (String " " v))))%string.
  rewrite (split_at_delimiter_app k _ Hk1 Hk2).
  cbn [split_at_delimiter is_delimiter Ascii.eqb Bool.eqb orb].
  change (Ascii.eqb " " "=") with false.
  change (Ascii.eqb " " ":") with false.
  change (Ascii.eqb "=" "=") with true.
  cbn [orb].
  rewrite (rstrip_blank_suffix k " " eq_refl), Hkr.
  unfold optionxform. rewrite Hkr, Hkl.
  rewrite (value_of_option_text v Hvl Hvr).
  unfold with_indent.
  cbn [rs_defaults rs_sections parse_error added_options added_sections
       indent_level].
  change (is_empty k) with false. rewrite Herr. cbn [orb].
  assert (Hcells : exists cells,
            dict_get (rs_sections st) name = Some cells
            /\ join_cells cells = done).
  { pose proof (dict_get_last read name done Hname) as H.
    rewrite <- Hview, dict_get_map_values in H.
    destruct (dict_get (rs_sections st) name) as [cells |]; [| discriminate].
    exists cells. split; [reflexivity |]. injection H as H. exact H. }
  destruct Hcells as (cells & Hcells & Hjoin).
  assert (Hdup : existsb
            (fun a : string * string =>
               String.eqb (fst a) name && String.eqb (snd a) k)
            (added_options st) = false).
  { destruct (existsb _ (added_options st)) eqn:H; [| reflexivity].
    apply existsb_exists in H. destruct H as ([s o] & Hin & Heq).
    cbn [fst snd] in Heq. apply andb_true_iff in Heq.
    destruct Heq as [Hs Ho]. apply String.eqb_eq in Hs, Ho. subst s o.
    destruct (Hadded name k Hin) as (d & Hd & Hko).
    rewrite (dict_get_last read name done Hname) in Hd.
    injection Hd as <-. contradiction. }
  rewrite Hdup.
  eexists. split; [reflexivity |].
  unfold put_cell, section_cells, dict_has.
  cbn [rs_defaults rs_sections parse_error added_options added_sections
       indent_level cursect optname].
  rewrite Hcells. split; [| reflexivity].
  split_reading.
  - rewrite dict_set_map_values.
    change (join_cells (dict_set cells k (Lines [v])))
      with (map_values join_cell (dict_set cells k (Lines [v]))).
    rewrite dict_set_map_values. cbn [join_cell join String.concat].
    rewrite Hvr.
    change (map_values join_cell cells) with (join_cells cells).
    rewrite Hjoin, Hview, (dict_set_fresh done k v Hfresh).
    apply dict_set_last, Hname.
  - intros s o [Heq | Hin].
    + injection Heq as <- <-.
      exists (done ++ [(k, v)])%list.
      rewrite (dict_get_last read name _ Hname). split; [reflexivity |].
      unfold dict_keys. rewrite map_app. apply in_or_app. right. left.
      reflexivity.
    + destruct (Hadded s o Hin) as (d & Hd & Ho).
      rewrite dict_get_app in Hd. rewrite dict_get_app.
      destruct (dict_get read s) as [d0 |].
      * exists d. split; assumption.
      * cbn [dict_get] in Hd |- *.
        destruct (String.eqb name s); [| discriminate].
        injection Hd as <-. eexists. split; [reflexivity |].
        unfold dict_keys. rewrite map_app. apply in_or_app. left. exact Ho.
  - intros s o Ho. unfold open_option in Ho. cbn [cursect optname] in Ho.
    change (is_empty k) with false in Ho. injection Ho as <- <-.
    exists (dict_set cells k (Lines [v])), [v].
    rewrite !dict_get_set, !String.eqb_refl. split; reflexivity.
Qed.

Lemma read_lines_app (st : read_state) (l1 l2 : list string) :
  read_lines st (l1 ++ l2)
  = (st' <- read_lines st l1 ;; read_lines st' l2).
Proof.
  revert st. induction l1 as [| line l1 IH]; intros st; simpl;
    [reflexivity |].
  destruct (read_line st line) as [st' | e]; simpl; [apply IH | reflexivity].
Qed.

Lemma read_option_lines (items : dict string) :
  forall (st : read_state) (read : dict (dict string)) (name : string)
         (done : dict string),
    reading st (read ++ [(name, done)])%list ->
    cursect st = Some name ->
    ~ In name (dict_keys read) ->
    dict_wf (done ++ items)%list ->
    Forall (fun item => plain_key (fst item) = true
                        /\ plain_line (snd item) = true) items ->
    exists st',
      read_lines st (map option_text items) = Returned st'
      /\ reading st' (read ++ [(name, done ++ items)])%list
      /\ cursect st' = Some name.
Proof.
  induction items as [| [k v] items IH];
    intros st read name done Hreading Hcur Hname Hwf Hplain.
  - exists st. rewrite app_nil_r.
    split; [reflexivity | split; assumption].
  - inversion Hplain as [| ? ? [Hk Hv] Hrest]; subst. cbn [fst snd] in Hk, Hv.
    assert (Hfresh : ~ In k (dict_keys done)).
    { unfold dict_wf, dict_keys in Hwf. rewrite map_app in Hwf.
      apply NoDup_remove_2 in Hwf. intros H. apply Hwf.
      apply in_or_app. left. exact H. }
    destruct (read_option_line st read name done k v
                Hreading Hcur Hname Hk Hv Hfresh)
      as (st1 & Hline & Hreading1 & Hcur1).
    destruct (IH st1 read name (done ++ [(k, v)])%list Hreading1 Hcur1 Hname)
      as (st2 & Hlines & Hreading2 & Hcur2).
    { rewrite <- app_assoc. exact Hwf. }
    { exact Hrest. }
    exists st2. cbn [map read_lines]. rewrite Hline. cbn [bind].
    rewrite <- app_assoc in Hreading2.
    split; [exact Hlines | split; assumption].
Qed.

Lemma read_section_lines (st : read_state) (read : dict (dict string))
    (s : string * dict string) :
  reading st read ->
  ~ In (fst s) (dict_keys read) ->
  plain_section s ->
  exists st',
    read_lines st (section_lines s) = Returned st'
    /\ reading st' (read ++ [s])%list.
Proof.
  destruct s as [name items].
  intros Hreading Hfresh (Hname & Hwf & Hitems). cbn [fst snd] in *.
  destruct (read_header_line st read name Hreading Hname Hfresh)
    as (st1 & Hline1 & Hreading1 & Hcur1).
  destruct (read_option_lines items st1 read name [] Hreading1 Hcur1
              Hfresh Hwf Hitems)
    as (st2 & Hlines2 & Hreading2 & _).
  destruct (read_blank_line st2 _ Hreading2) as (st3 & Hline3 & Hreading3 & _).
  exists st3. split; [| exact Hreading3].
  unfold section_lines. cbn [fst snd read_lines]. rewrite Hline1. cbn [bind].
  rewrite read_lines_app, Hlines2. cbn [bind read_lines].
  rewrite Hline3. reflexivity.
Qed.

Lemma read_all_section_lines (todo : dict (dict string)) :
  forall (st : read_state) (read : dict (dict string)),
    reading st read ->
    dict_wf (read ++ todo)%list ->
    Forall plain_section todo ->
    exists st',
      read_lines st (flat_map section_lines todo) = Returned st'
      /\ reading st' (read ++ todo)%list.
Proof.
  induction todo as [| s todo IH]; intros st read Hreading Hwf Hplain.
  - exists st. rewrite app_nil_r. split; [reflexivity | exact Hreading].
  - inversion Hplain as [| ? ? Hs Hrest]; subst.
    assert (Hfresh : ~ In (fst s) (dict_keys read)).
    { unfold dict_wf, dict_keys in Hwf. rewrite map_app in Hwf.
      apply NoDup_remove_2 in Hwf. intros H. apply Hwf.
      apply in_or_app. left. exact H. }
    destruct (read_section_lines st read s Hreading Hfresh Hs)
      as (st1 & Hlines1 & Hreading1).
    destruct (IH st1 (read ++ [s])%list Hreading1)
      as (st2 & Hlines2 & Hreading2).
    { rewrite <- app_assoc. exact Hwf. }
    { exact Hrest. }
    exists st2. cbn [flat_map]. rewrite read_lines_app, Hlines1. cbn [bind].
    rewrite <- app_assoc in Hreading2. split; assumption.
Qed.

(** ** The text of a written file *)

Fixpoint unlines (ls : list string) : string :=
  match ls with
  | [] => ""
  | l :: ls' => l ++ String LF (unlines ls')
  end.

Lemma unlines_app (a b : list string) :
  unlines (a ++ b) = (unlines a ++ unlines b)%string.
Proof.
  induction a as [| l a IH]; simpl; [reflexivity |].
  rewrite IH, append_assoc. reflexivity.
Qed.

Lemma concat_empty_cons (x : string) (l : list string) :
  String.concat "" (x :: l) = (x ++ String.concat "" l)%string.
Proof.
  destruct l as [| y l]; simpl; [| reflexivity].
  rewrite append_empty_r. reflexivity.
Qed.

Lemma split_lines_unlines (ls : list string) (rest : string) :
  Forall (fun l => contains LF l = false) ls ->
  split_lines (unlines ls ++ rest) = (ls ++ split_lines rest)%list.
Proof.
  induction 1 as [| l ls Hl _ IH]; simpl; [reflexivity |].
  rewrite append_assoc.
  change (String LF (unlines ls) ++ rest)%string
    with (String LF (unlines ls ++ rest)).
  rewrite (split_lines_line l _ Hl), IH. reflexivity.
Qed.

Lemma contains_unlines (c : ascii) (ls : list string) :
  Ascii.eqb LF c = false ->
  Forall (fun l => contains c l = false) ls ->
  contains c (unlines ls) = false.
Proof.
  intros Hc. induction 1 as [| l ls Hl _ IH]; simpl; [reflexivity |].
  rewrite contains_app, Hl. cbn [orb contains]. rewrite Hc, IH. reflexivity.
Qed.

Lemma write_options_unlines (items : dict string) :
  Forall (fun item => plain_key (fst item) = true
                      /\ plain_line (snd item) = true) items ->
  (String.concat "" (map write_option items) ++ NL)%string
  = unlines (map option_text items ++ [""%string]).
Proof.
  induction 1 as [| [k v] items [_ Hv] _ IH]; [reflexivity |].
  cbn [map app unlines]. rewrite concat_empty_cons, append_assoc, IH.
  unfold write_option, option_text. cbn [fst snd] in *.
  destruct (plain_line_spec v Hv) as (Hlf & _).
  rewrite (replace_char_absent _ _ _ Hlf), !append_assoc. reflexivity.
Qed.

Lemma write_section_unlines (s : string * dict string) :
  plain_section s -> write_section s = unlines (section_lines s).
Proof.
  intros (_ & _ & Hitems). unfold write_section, section_lines.
  cbn [unlines]. rewrite <- (write_options_unlines _ Hitems).
  unfold header_text. rewrite !append_assoc. reflexivity.
Qed.

Lemma write_sections_unlines (secs : dict (dict string)) :
  Forall plain_section secs ->
  String.concat "" (map write_section secs)
  = unlines (flat_map section_lines secs).
Proof.
  induction 1 as [| s secs Hs _ IH]; [reflexivity |].
  cbn [map flat_map]. rewrite concat_empty_cons, unlines_app, IH.
  rewrite (write_section_unlines s Hs). reflexivity.
Qed.

Lemma section_lines_clean (s : string * dict string) :
  plain_section s ->
  Forall (fun l => contains LF l = false /\ contains CR l = false)
    (section_lines s).
Proof.
  intros (Hname & _ & Hitems). unfold section_lines.
  apply plain_name_spec in Hname. destruct Hname as (_ & Hlf & Hcr & _).
  constructor.
  - unfold header_text. rewrite !contains_app, Hlf, Hcr. split; reflexivity.
  - apply Forall_app.
    split; [| constructor; [split; reflexivity | constructor]].
    apply Forall_map. revert Hitems. apply Forall_impl.
    intros [k v] [Hk Hv]. cbn [fst snd] in *. unfold option_text. cbn [fst snd].
    destruct (plain_key_spec k Hk)
      as (c & k' & _ & _ & _ & _ & _ & _ & _ & Hklf & Hkcr & _).
    destruct (plain_line_spec v Hv) as (Hvlf & Hvcr & _).
    rewrite !contains_app, Hklf, Hkcr, Hvlf, Hvcr. split; reflexivity.
Qed.

Lemma all_lines_clean (secs : dict (dict string)) :
  Forall plain_section secs ->
  Forall (fun l => contains LF l = false /\ contains CR l = false)
    (flat_map section_lines secs).
Proof.
  induction 1 as [| s secs Hs _ IH]; [constructor |].
  cbn [flat_map]. apply Forall_app. split; [| exact IH].
  apply section_lines_clean, Hs.
Qed.

(** The reader on a file written by hand: a continuation, a comment and
    an empty line inside a value, the second delimiter, a [DEFAULT]
    section and an empty section. *)
Example read_by_hand :
  ConfigParser.read ConfigParser.empty
    (Some (unlines [ "[a]"; "k = v"; "  more"; "  # comment"; "";
                     "  last"; "K2: x = y"; "[DEFAULT]"; "d = 1"; "[b]" ]))
  = Returned
      {| defaults := [("d", "1")];
         sections :=
           [ ("a", [ ("k", unlines ["v"; "more"; ""] ++ "last");
                     ("k2", "x = y") ]);
             ("b", []) ] |}.
Proof. vm_compute. reflexivity. Qed.

Example read_without_header :
  ConfigParser.read ConfigParser.empty (Some "k = v")
  = Raised (mk_exn MissingSectionHeaderError
              "File contains no section headers").
Proof. vm_compute. reflexivity. Qed.

Example read_duplicate_option :
  ConfigParser.read ConfigParser.empty
    (Some (unlines ["[a]"; "k = 1"; "K = 2"]))
  = Raised (mk_exn DuplicateOptionError "option already exists").
Proof. vm_compute. reflexivity. Qed.

Example read_line_without_delimiter :
  ConfigParser.read ConfigParser.empty (Some (unlines ["[a]"; "novalue"]))
  = Raised (mk_exn ParsingError "Source contains parsing errors").
Proof. vm_compute. reflexivity. Qed.

(** Reading what was written gives back the parser that wrote it. *)
Lemma read_written (crlf : bool) (p : ConfigParser.t) :
  plain_config p ->
  ConfigParser.read ConfigParser.empty
    (Some (platform_newlines crlf (ConfigParser.write p)))
  = Returned p.
Proof.
  intros (Hdef & Hwf & Hplain).
  assert (Htext : ConfigParser.write p
                  = unlines (flat_map section_lines (sections p))).
  { unfold ConfigParser.write. rewrite Hdef.
    apply write_sections_unlines, Hplain. }
  pose proof (all_lines_clean _ Hplain) as Hclean.
  unfold ConfigParser.read. rewrite Htext, read_back.
  2: { apply contains_unlines; [reflexivity |].
       revert Hclean. apply Forall_impl. tauto. }
  unfold read_text.
  rewrite <- (append_empty_r (unlines _)), split_lines_unlines.
  2: { revert Hclean. apply Forall_impl. tauto. }
  cbn [split_lines]. rewrite app_nil_r.
  destruct (read_all_section_lines (sections p)
              (mk_read_state [] [] None None 0 [] [] false) [])
    as (st & Hlines & (Hdef' & Hview & Herr & _)).
  - unfold reading. cbn. repeat split; try reflexivity.
    + intros s o [].
    + intros s o H. discriminate H.
  - exact Hwf.
  - exact Hplain.
  - change (mk_read_state (as_cells (defaults ConfigParser.empty))
              (map_values as_cells (sections ConfigParser.empty))
              None None 0 [] [] false)
      with (mk_read_state [] [] None None 0 [] [] false).
    rewrite Hlines. cbn [bind]. rewrite Herr, Hdef'.
    rewrite Hview. cbn [app join_cells map].
    destruct p as [d s]. cbn [defaults sections] in *. subst d. reflexivity.
Qed.

(** ** Setting and getting options *)

Lemma remove_escaped_percent_plain (s : string) :
  contains "%" s = false -> remove_escaped_percent s = s.
Proof.
  induction s as [| c s IH]; [reflexivity |].
  intros H. cbn [contains] in H. apply orb_false_iff in H.
  destruct H as [Hc Hs]. cbn [remove_escaped_percent].
  destruct s as [| c2 s2]; [reflexivity |].
  rewrite Hc. cbn [andb]. rewrite (IH Hs). reflexivity.
Qed.

Lemma only_references_plain (s : string) :
  contains "%" s = false -> only_references s = true.
Proof.
  induction s as [| c s IH]; [reflexivity |].
  intros H. cbn [contains] in H. apply orb_false_iff in H.
  destruct H as [Hc Hs]. cbn [only_references]. rewrite Hc. apply IH, Hs.
Qed.

Lemma before_set_plain (v : string) :
  contains "%" v = false -> before_set v = Returned v.
Proof.
  intros H. unfold before_set.
  rewrite (remove_escaped_percent_plain v H), (only_references_plain v H).
  reflexivity.
Qed.

Lemma scan_plain (lookup : string -> option string)
    (deeper : string -> result string) (s : string) :
  contains "%" s = false -> scan lookup deeper s = Returned s.
Proof.
  induction s as [| c s IH]; [reflexivity |].
  intros H. cbn [contains] in H. apply orb_false_iff in H.
  destruct H as [Hc Hs]. cbn [scan]. rewrite Hc, (IH Hs). reflexivity.
Qed.

(** The option [k] of the section [sec]. *)
Definition lookup_option (secs : dict (dict string)) (sec k : string)
  : option string :=
  match dict_get secs sec with
  | Some d => dict_get d k
  | None => None
  end.

Definition with_section (secs : dict (dict string)) (sec : string)
  : dict (dict string) :=
  if dict_has secs sec then secs else dict_set secs sec [].

Definition put_option (secs : dict (dict string)) (sec k v : string)
  : dict (dict string) :=
  match dict_get secs sec with
  | Some d => dict_set secs sec (dict_set d k v)
  | None => secs
  end.

Lemma get_plain (p : ConfigParser.t) (sec key fallback v : string) :
  defaults p = [] ->
  lookup_option (sections p) sec (lower key) = Some v ->
  contains "%" v = false ->
  ConfigParser.get p sec key fallback = Returned v.
Proof.
  intros Hdef Hv Hplain. unfold ConfigParser.get, unify_values.
  unfold lookup_option in Hv.
  destruct (dict_get (sections p) sec) as [d |]; [| discriminate].
  unfold chain_get, optionxform. rewrite Hv.
  unfold before_get. cbn [MAX_INTERPOLATION_DEPTH interpolate_some].
  apply scan_plain, Hplain.
Qed.

Lemma getboolean_plain (p : ConfigParser.t) (sec key : string)
    (fallback b : bool) :
  defaults p = [] ->
  lookup_option (sections p) sec (lower key)
  = Some (Config.str_of_bool b) ->
  ConfigParser.getboolean p sec key fallback = Returned b.
Proof.
  intros Hdef Hv. unfold ConfigParser.getboolean, unify_values.
  unfold lookup_option in Hv.
  destruct (dict_get (sections p) sec) as [d |]; [| discriminate].
  unfold chain_get, optionxform. rewrite Hv.
  unfold before_get. cbn [MAX_INTERPOLATION_DEPTH interpolate_some].
  rewrite scan_plain; destruct b; reflexivity.
Qed.

Lemma ensure_section_value (p : ConfigParser.t) (sec : string) :
  String.eqb sec default_section = false ->
  Config.ensure_section p sec
  = Returned {| defaults := defaults p;
                sections := with_section (sections p) sec |}.
Proof.
  intros Hsec. unfold Config.ensure_section, has_section, add_section,
    with_section.
  destruct (dict_has (sections p) sec).
  - destruct p; reflexivity.
  - rewrite Hsec. reflexivity.
Qed.

Lemma set_value (p : ConfigParser.t) (sec key v : string) :
  is_empty sec = false ->
  String.eqb sec default_section = false ->
  dict_has (sections p) sec = true ->
  contains "%" v = false ->
  ConfigParser.set p sec key v
  = Returned {| defaults := defaults p;
                sections := put_option (sections p) sec (lower key) v |}.
Proof.
  intros Hne Hsec Hhas Hv. unfold ConfigParser.set, put_option, optionxform.
  rewrite (before_set_plain v Hv), Hne, Hsec.
  unfold dict_has in Hhas.
  destruct (dict_get (sections p) sec) as [d |]; [| discriminate].
  destruct (is_empty v); reflexivity.
Qed.

Lemma dict_has_with_section (secs : dict (dict string)) (sec sec' : string) :
  dict_has (with_section secs sec) sec'
  = dict_has secs sec' || String.eqb sec sec'.
Proof.
  unfold with_section. destruct (dict_has secs sec) eqn:Hhas.
  - destruct (String.eqb_spec sec sec') as [<- |].
    + rewrite Hhas. reflexivity.
    + rewrite orb_false_r. reflexivity.
  - unfold dict_has in *. rewrite dict_get_set.
    destruct (String.eqb_spec sec sec') as [<- |].
    + rewrite orb_true_r. reflexivity.
    + rewrite orb_false_r. reflexivity.
Qed.

Lemma dict_has_put_option (secs : dict (dict string)) (sec k v sec' : string) :
  dict_has (put_option secs sec k v) sec' = dict_has secs sec'.
Proof.
  unfold put_option. destruct (dict_get secs sec) as [d |] eqn:Hd;
    [| reflexivity].
  unfold dict_has. rewrite dict_get_set.
  destruct (String.eqb_spec sec sec') as [<- |]; [| reflexivity].
  rewrite Hd. reflexivity.
Qed.

Lemma lookup_put_option (secs : dict (dict string))
    (sec k v sec' k' : string) :
  dict_has secs sec = true ->
  lookup_option (put_option secs sec k v) sec' k'
  = if String.eqb sec sec' && String.eqb k k' then Some v
    else lookup_option secs sec' k'.
Proof.
  unfold dict_has, put_option, lookup_option.
  destruct (dict_get secs sec) as [d |] eqn:Hd; [| discriminate].
  intros _. rewrite dict_get_set.
  destruct (String.eqb_spec sec sec') as [<- |]; cbn [andb].
  - rewrite dict_get_set, Hd. reflexivity.
  - reflexivity.
Qed.

Definition plain_sections (secs : dict (dict string)) : Prop :=
  dict_wf secs /\ Forall plain_section secs.

Lemma plain_with_section (secs : dict (dict string)) (sec : string) :
  plain_name sec = true ->
  plain_sections secs -> plain_sections (with_section secs sec).
Proof.
  intros Hname [Hwf Hall]. unfold with_section.
  destruct (dict_has secs sec); [split; assumption |].
  split; [apply dict_wf_set, Hwf |].
  apply Forall_dict_set_value; [| exact Hall].
  split; [exact Hname |]. split; constructor.
Qed.

Lemma plain_put_option (secs : dict (dict string)) (sec k v : string) :
  plain_key k = true -> plain_line v = true ->
  plain_sections secs -> plain_sections (put_option secs sec k v).
Proof.
  intros Hk Hv [Hwf Hall]. unfold put_option.
  destruct (dict_get secs sec) as [d |] eqn:Hd; [| split; assumption].
  split; [apply dict_wf_set, Hwf |].
  apply Forall_dict_set_value; [| exact Hall].
  apply dict_get_In in Hd. rewrite Forall_forall in Hall.
  destruct (Hall _ Hd) as (Hname & Hdwf & Hitems). cbn [fst snd] in *.
  split; [exact Hname |]. split; cbn [snd].
  - apply dict_wf_set, Hdwf.
  - apply Forall_dict_set_value; [split; assumption | exact Hitems].
Qed.

Lemma plain_value_spec (v : string) :
  plain_value v = true -> plain_line v = true /\ contains "%" v = false.
Proof.
  unfold plain_value. rewrite andb_true_iff, negb_true_iff. tauto.
Qed.

(** ** The settings store *)


(** The store of a first start: no settings file yet. *)
Definition first_start : Config.t :=
  {| Config.config :=
       {| defaults := [];
          sections :=
            [ ("Paths", [("savefolderpath", "")]);
              ("Companion", [("companionip", "")]);
              ("UI", [("showrefreshbutton", "False")]) ] |} |}.

Definition first_file (crlf : bool) : Config.settings_file :=
  snd (Config.init crlf None).


Lemma first_start_plain : plain_config (Config.config first_start).
Proof.
  split; [reflexivity |]. split.
  - repeat (constructor; [simpl; intuition discriminate |]). constructor.
  - repeat constructor; simpl; intuition discriminate.
Qed.

(** What [update_settings] leaves in the parser. *)
Definition updated_sections (secs : dict (dict string))
    (save_folder companion_ip : string) (show_refresh : bool)
  : dict (dict string) :=
  put_option
    (put_option
       (put_option
          (with_section (with_section (with_section secs "Paths") "Companion")
             "UI")
          "Paths" "savefolderpath" save_folder)
       "Companion" "companionip" companion_ip)
    "UI" "showrefreshbutton" (Config.str_of_bool show_refresh).

Lemma update_settings_value (crlf : bool) (self : Config.t)
    (file : Config.settings_file) (save_folder companion_ip : string)
    (show_refresh : bool) :
  contains "%" save_folder = false ->
  contains "%" companion_ip = false ->
  let c := {| defaults := defaults (Config.config self);
              sections := updated_sections (sections (Config.config self))
                            save_folder companion_ip show_refresh |} in
  Config.update_settings crlf self save_folder companion_ip show_refresh file
  = (Returned {| Config.config := c |},
     Some (platform_newlines crlf (ConfigParser.write c))).
Proof.
  intros Hsf Hip c. unfold Config.update_settings.
  rewrite ensure_section_value by reflexivity. cbn [bind].
  rewrite ensure_section_value by reflexivity. cbn [bind].
  rewrite ensure_section_value by reflexivity. cbn [bind defaults sections].
  set (secs3 := with_section
                  (with_section (with_section _ "Paths") "Companion") "UI").
  assert (Hhas : dict_has secs3 "Paths" = true
                 /\ dict_has secs3 "Companion" = true
                 /\ dict_has secs3 "UI" = true).
  { unfold secs3. rewrite !dict_has_with_section.
    repeat split; cbn; rewrite ?orb_true_r; reflexivity. }
  destruct Hhas as (HP & HC & HU).
  rewrite set_value; [| reflexivity | reflexivity | exact HP | exact Hsf].
  cbn [bind defaults sections].
  rewrite set_value;
    [| reflexivity | reflexivity
     | cbn [sections]; rewrite dict_has_put_option; exact HC | exact Hip].
  cbn [bind defaults sections].
  rewrite set_value;
    [| reflexivity | reflexivity
     | cbn [sections]; rewrite !dict_has_put_option; exact HU
     | destruct show_refresh; reflexivity].
  reflexivity.
Qed.

Lemma updated_sections_plain (secs : dict (dict string))
    (save_folder companion_ip : string) (show_refresh : bool) :
  plain_sections secs ->
  plain_line save_folder = true -> plain_line companion_ip = true ->
  plain_sections (updated_sections secs save_folder companion_ip show_refresh).
Proof.
  intros Hsecs Hsf Hip. unfold updated_sections.
  apply plain_put_option;
    [reflexivity | destruct show_refresh; reflexivity |].
  apply plain_put_option; [reflexivity | exact Hip |].
  apply plain_put_option; [reflexivity | exact Hsf |].
  repeat (apply plain_with_section; [reflexivity |]). exact Hsecs.
Qed.

Lemma updated_sections_lookup (secs : dict (dict string))
    (save_folder companion_ip : string) (show_refresh : bool) :
  let secs' := updated_sections secs save_folder companion_ip show_refresh in
  lookup_option secs' "Paths" "savefolderpath" = Some save_folder
  /\ lookup_option secs' "Companion" "companionip" = Some companion_ip
  /\ lookup_option secs' "UI" "showrefreshbutton"
     = Some (Config.str_of_bool show_refresh).
Proof.
  cbv zeta. unfold updated_sections.
  set (secs3 := with_section
                  (with_section (with_section _ "Paths") "Companion") "UI").
  assert (Hhas : dict_has secs3 "Paths" = true
                 /\ dict_has secs3 "Companion" = true
                 /\ dict_has secs3 "UI" = true).
  { unfold secs3. rewrite !dict_has_with_section.
    repeat split; cbn; rewrite ?orb_true_r; reflexivity. }
  destruct Hhas as (HP & HC & HU).
  repeat split;
    repeat (rewrite lookup_put_option
              by (rewrite ?dict_has_put_option; assumption);
            cbn [String.eqb Ascii.eqb Bool.eqb andb]);
    reflexivity.
Qed.

(** Saving plain values on a plain store, then starting again: the new
    store is the saved one, is plain again, and holds the values. *)
Lemma save_then_restart (crlf : bool) (self : Config.t)
    (file : Config.settings_file) (save_folder companion_ip : string)
    (show_refresh : bool) :
  plain_config (Config.config self) ->
  plain_value save_folder = true ->
  plain_value companion_ip = true ->
  exists saved file',
    Config.update_settings crlf self save_folder companion_ip show_refresh
      file = (Returned saved, file')
    /\ Config.init crlf file' = (Returned saved, file')
    /\ plain_config (Config.config saved)
    /\ Config.get_save_folder saved = Returned save_folder
    /\ Config.get_companion_ip saved = Returned companion_ip
    /\ Config.get_show_refresh_button saved = Returned show_refresh.
Proof.
  intros (Hdef & Hwf & Hall) Hsf Hip.
  apply plain_value_spec in Hsf, Hip.
  destruct Hsf as [Hsf Hsf_pct]. destruct Hip as [Hip Hip_pct].
  pose proof (update_settings_value crlf self file save_folder companion_ip
                show_refresh Hsf_pct Hip_pct) as Hupdate.
  cbv zeta in Hupdate. rewrite Hdef in Hupdate.
  set (c := {| defaults := [];
               sections := updated_sections (sections (Config.config self))
                             save_folder companion_ip show_refresh |}) in *.
  assert (Hplain : plain_config c).
  { destruct (updated_sections_plain (sections (Config.config self))
                save_folder companion_ip show_refresh
                (conj Hwf Hall) Hsf Hip) as [Hwf' Hall'].
    split; [reflexivity |]. split; assumption. }
  destruct (updated_sections_lookup (sections (Config.config self))
              save_folder companion_ip show_refresh) as (HP & HC & HU).
  do 2 eexists. split; [exact Hupdate |]. split; [| split; [exact Hplain |]].
  - unfold Config.init, Config.ensure_config_exists, Config.load_config.
    cbn [Config.config]. rewrite (read_written crlf c Hplain). reflexivity.
  - unfold Config.get_save_folder, Config.get_companion_ip,
      Config.get_show_refresh_button. cbn [Config.config].
    split; [| split].
    + apply get_plain; [reflexivity | exact HP | exact Hsf_pct].
    + apply get_plain; [reflexivity | exact HC | exact Hip_pct].
    + apply getboolean_plain; [reflexivity | exact HU].
Qed.

(** The stores the program itself can be in: the store of a first start,
    the store after a save of plain values, and a store started on the
    file the program left. *)
Inductive program_store (crlf : bool)
  : Config.t -> Config.settings_file -> Prop :=
| store_first_start :
    program_store crlf first_start (first_file crlf)
| store_saved self file save_folder companion_ip show_refresh saved file' :
    program_store crlf self file ->
    plain_value save_folder = true ->
    plain_value companion_ip = true ->
    Config.update_settings crlf self save_folder companion_ip show_refresh
      file = (Returned saved, file') ->
    program_store crlf saved file'
| store_restarted self file fresh file' :
    program_store crlf self file ->
    Config.init crlf file = (Returned fresh, file') ->
    program_store crlf fresh file'.

(** Every such store is plain, and its file gives it back. *)
Lemma program_store_plain (crlf : bool) (self : Config.t)
    (file : Config.settings_file) :
  program_store crlf self file ->
  plain_config (Config.config self)
  /\ Config.init crlf file = (Returned self, file).
Proof.
  induction 1 as [| self file sf ip flag saved file' _ [IHplain _] Hsf Hip Hsave
                    | self file fresh file' _ [IHplain IHinit] Hinit].
  - split; [exact first_start_plain |].
    destruct crlf; vm_compute; reflexivity.
  - destruct (save_then_restart crlf self file sf ip flag IHplain Hsf Hip)
      as (saved' & file'' & Hsave' & Hinit' & Hplain' & _).
    rewrite Hsave in Hsave'. injection Hsave' as <- <-.
    split; assumption.
  - rewrite IHinit in Hinit. injection Hinit as <- <-.
    split; assumption.
Qed.


(** Save, start again, and read the three settings. *)
Definition save_and_reload (crlf : bool) (self : Config.t)
    (file : Config.settings_file) (save_folder companion_ip : string)
    (show_refresh : bool) : result (string * string * bool) :=
  match Config.update_settings crlf self save_folder companion_ip
          show_refresh file with
  | (Returned _, file') =>
      fresh <- fst (Config.init crlf file') ;;
      folder <- Config.get_save_folder fresh ;;
      ip <- Config.get_companion_ip fresh ;;
      shown <- Config.get_show_refresh_button fresh ;;
      Returned (folder, ip, shown)
  | (Raised e, _) => Raised e
  end.

Example plain_settings_kept :
  save_and_reload true first_start (first_file true)
    "C:/Media/Sunday 9am" "192.168.1.20" true
  = Returned ("C:/Media/Sunday 9am", "192.168.1.20", true).
Proof. vm_compute. reflexivity. Qed.

Example trailing_space_lost :
  save_and_reload false first_start (first_file false)
    "C:/Media " "10.0.0.5" true
  = Returned ("C:/Media", "10.0.0.5", true).
Proof. vm_compute. reflexivity. Qed.

(** A percent sign is read as the start of an interpolation: a lone one
    is refused when the value is set, a doubled one is read back single. *)
Example percent_refused :
  save_and_reload false first_start (first_file false)
    "C:/50% done" "10.0.0.5" true
  = Raised (mk_exn ValueError "invalid interpolation syntax").
Proof. vm_compute. reflexivity. Qed.

Example percent_halved :
  save_and_reload false first_start (first_file false)
    "C:/50%% done" "10.0.0.5" true
  = Returned ("C:/50% done", "10.0.0.5", true).
Proof. vm_compute. reflexivity. Qed.

(* ================================================================== *)
(** * Further properties *)
(* ================================================================== *)

(** ** The schedule: unparsable keys, ties, and the order of the list *)

Lemma strptime_outcome (k : string) :
  parses k \/ exists msg, strptime k = Raised (mk_exn ValueError msg).
Proof.
  unfold parses, strptime, make_date.
  destruct (match_format _) as [[[[d m] y] rest] |]; [| right; eauto].
  destruct rest; [| right; eauto].
  destruct (_ && _); [left | right]; eauto.
Qed.

Lemma parses_dec (k : string) : {parses k} + {~ parses k}.
Proof.
  unfold parses. destruct (strptime k) as [dt | e].
  - left. eauto.
  - right. intros [dt H]. discriminate H.
Qed.

Lemma map_result_bad_key (l : list string) :
  ~ Forall parses l ->
  exists msg, map_result strptime l = Raised (mk_exn ValueError msg).
Proof.
  induction l as [| k l IH]; intros Hbad.
  - exfalso. apply Hbad. constructor.
  - cbn [map_result]. destruct (strptime_outcome k) as [Hk | [msg Hk]].
    + rewrite (parses_date_of k Hk). cbn [bind].
      destruct IH as [msg Hl].
      * intros Hl. apply Hbad. constructor; assumption.
      * exists msg. rewrite Hl. reflexivity.
    + exists msg. rewrite Hk. reflexivity.
Qed.

Lemma filter_result_bad_key {V} (today : date) (l : list (string * V)) :
  ~ Forall parses (map fst l) ->
  exists msg,
    filter_result
      (fun item : string * V =>
         dt <- strptime (fst item) ;; Returned (date_ge dt today)) l
    = Raised (mk_exn ValueError msg).
Proof.
  induction l as [| x l IH]; intros Hbad.
  - exfalso. apply Hbad. constructor.
  - cbn [filter_result]. destruct (strptime_outcome (fst x)) as [Hk | [msg Hk]].
    + rewrite (parses_date_of _ Hk). cbn [bind].
      destruct IH as [msg Hl].
      * intros Hl. apply Hbad. constructor; assumption.
      * exists msg. rewrite Hl. reflexivity.
    + exists msg. rewrite Hk. reflexivity.
Qed.

Lemma first_of_sorted {A} (key : A -> date) (x : A) (l : list A) :
  exists y,
    first (map snd (sort_keyed date_lt (combine (map key (x :: l)) (x :: l))))
    = Returned y.
Proof.
  pose proof (sort_by_perm date_lt key (x :: l)) as Hperm.
  destruct (map snd _) as [| y rest].
  - apply Permutation_nil in Hperm. discriminate.
  - exists y. reflexivity.
Qed.

(** X1.  For a document that is a mapping, [get_sorted_dates] and
    [find_nearest_upcoming_service] return a value exactly when every key
    parses as a date; as soon as one key does not, in whatever position
    and however old, both raise [ValueError]. *)
Theorem schedule_all_keys_or_nothing (self : ServiceDataManager.t) (d : dict pyval)
    (today : date) :
  data self = PyDict d ->
  (Forall parses (dict_keys d) <->
   exists dates, get_sorted_dates self = Returned dates)
  /\ (Forall parses (dict_keys d) <->
      exists found, find_nearest_upcoming_service self today = Returned found)
  /\ (~ Forall parses (dict_keys d) ->
      exists msg msg',
        get_sorted_dates self = Raised (mk_exn ValueError msg)
        /\ find_nearest_upcoming_service self today
           = Raised (mk_exn ValueError msg')).
Proof.
  intros Hdata.
  assert (Hbad : ~ Forall parses (dict_keys d) ->
            exists msg msg',
              get_sorted_dates self = Raised (mk_exn ValueError msg)
              /\ find_nearest_upcoming_service self today
                 = Raised (mk_exn ValueError msg')).
  { intros Hnot.
    destruct (map_result_bad_key (dict_keys d) Hnot) as [msg Hmsg].
    destruct (filter_result_bad_key today d Hnot) as [msg' Hmsg'].
    exists msg, msg'. split.
    - unfold get_sorted_dates, sorted. rewrite Hdata. cbn [as_dict bind].
      rewrite Hmsg. reflexivity.
    - unfold find_nearest_upcoming_service. rewrite Hdata.
      cbn [as_dict bind]. unfold dict_items. rewrite Hmsg'. reflexivity. }
  assert (Hdec : Forall parses (dict_keys d) \/ ~ Forall parses (dict_keys d)).
  { destruct (Forall_dec parses parses_dec (dict_keys d)); tauto. }
  split; [| split; [| exact Hbad]].
  - split.
    + intros Hall. eexists. unfold get_sorted_dates. rewrite Hdata.
      cbn [as_dict bind]. apply sorted_dates_value, Hall.
    + intros [dates Hdates]. destruct Hdec as [Hall | Hnot]; [exact Hall |].
      destruct (Hbad Hnot) as (msg & _ & H & _). congruence.
  - split.
    + intros Hall. rewrite (find_nearest_value self d today Hdata Hall).
      destruct (filter _ d) as [| x l]; [eauto |].
      destruct (first_of_sorted (fun x => date_of (fst x)) x l) as [y Hy].
      rewrite Hy. cbn [bind]. eauto.
    + intros [found Hfound]. destruct Hdec as [Hall | Hnot]; [exact Hall |].
      destruct (Hbad Hnot) as (msg & msg' & _ & H). congruence.
Qed.

Lemma schedule_all_keys_or_nothing_witness :
  exists msg msg',
    get_sorted_dates
      {| json_path := "selections.json";
         data := PyDict [("01/01/2099", PyDict []); ("1999-12-31", PyDict [])] |}
    = Raised (mk_exn ValueError msg)
    /\ find_nearest_upcoming_service
         {| json_path := "selections.json";
            data := PyDict [("01/01/2099", PyDict []);
                            ("1999-12-31", PyDict [])] |}
         (mk_date 2024 6 1)
       = Raised (mk_exn ValueError msg').
Proof.
  apply (schedule_all_keys_or_nothing
           {| json_path := "selections.json";
              data := PyDict [("01/01/2099", PyDict []);
                              ("1999-12-31", PyDict [])] |}
           [("01/01/2099", PyDict []); ("1999-12-31", PyDict [])]
           (mk_date 2024 6 1)).
  - reflexivity.
  - intros H. inversion H as [| ? ? _ H']; subst.
    inversion H' as [| ? ? [dt Hdt] _]; subst. discriminate Hdt.
Defined.

Section SortCommutes.
Context {A K : Type}.
Variable lt : K -> K -> bool.
Hypothesis lt_asym : forall a b, lt a b = true -> lt b a = false.
Hypothesis le_trans :
  forall a b c, lt b a = false -> lt c b = false -> lt c a = false.

(** Sorting looks at the keys only. *)
Lemma sort_keyed_map {B} (g : A -> B) (l : list (K * A)) :
  map (fun p => (fst p, g (snd p))) (sort_keyed lt l)
  = sort_keyed lt (map (fun p => (fst p, g (snd p))) l).
Proof using Type.
  induction l as [| x l IH]; [reflexivity |].
  cbn [sort_keyed fold_right map]. fold (sort_keyed lt l).
  fold (sort_keyed lt (map (fun p => (fst p, g (snd p))) l)).
  rewrite <- IH. generalize (sort_keyed lt l) as s. clear IH.
  induction s as [| y s IHs]; [reflexivity |].
  cbn [insert_keyed map fst]. destruct (lt (fst y) (fst x)).
  - cbn [map]. rewrite IHs. reflexivity.
  - reflexivity.
Qed.

Lemma insert_keyed_front (x : K * A) (s : list (K * A)) :
  Forall (fun z => lt (fst z) (fst x) = false) s ->
  insert_keyed lt x s = x :: s.
Proof using Type.
  destruct 1 as [| y s Hy _]; [reflexivity |].
  cbn [insert_keyed]. rewrite Hy. reflexivity.
Qed.

Lemma filter_insert_keyed (P : K * A -> bool) (x : K * A)
    (s : list (K * A)) :
  StronglySorted (fun p q => lt (fst q) (fst p) = false) s ->
  filter P (insert_keyed lt x s)
  = if P x then insert_keyed lt x (filter P s) else filter P s.
Proof using le_trans.
  induction 1 as [| y s Hs IH Hy]; cbn [insert_keyed filter].
  - destruct (P x); reflexivity.
  - destruct (lt (fst y) (fst x)) eqn:Hyx; cbn [filter].
    + rewrite IH. destruct (P x), (P y); cbn [insert_keyed];
        rewrite ?Hyx; reflexivity.
    + destruct (P x); [| reflexivity].
      symmetry. apply (insert_keyed_front x (filter P (y :: s))).
      apply Forall_forall. intros z Hz. apply filter_In in Hz.
      destruct Hz as [[<- | Hz] _]; [exact Hyx |].
      rewrite Forall_forall in Hy.
      apply le_trans with (fst y); [exact Hyx | apply Hy, Hz].
Qed.

(** Filtering before or after the stable sort gives the same list. *)
Lemma filter_sort_keyed (P : K * A -> bool) (l : list (K * A)) :
  filter P (sort_keyed lt l) = sort_keyed lt (filter P l).
Proof using lt_asym le_trans.
  induction l as [| x l IH]; [reflexivity |].
  cbn [sort_keyed fold_right filter]. fold (sort_keyed lt l).
  rewrite filter_insert_keyed.
  - rewrite IH. destruct (P x); reflexivity.
  - apply (sort_keyed_sorted lt lt_asym le_trans).
Qed.

End SortCommutes.

Lemma combine_map_self {A K} (f : A -> K) (l : list A) :
  combine (map f l) l = map (fun x => (f x, x)) l.
Proof.
  induction l as [| x l IH]; simpl; [reflexivity | now rewrite IH].
Qed.

Lemma hd_filter_find {A} (P : A -> bool) (l : list A) :
  hd_error (filter P l) = find P l.
Proof.
  induction l as [| x l IH]; simpl; [reflexivity |].
  destruct (P x); [reflexivity | exact IH].
Qed.

Lemma find_map {A B} (g : A -> B) (P : B -> bool) (l : list A) :
  find P (map g l) = option_map g (find (fun x => P (g x)) l).
Proof.
  induction l as [| x l IH]; simpl; [reflexivity |].
  destruct (P (g x)); [reflexivity | exact IH].
Qed.

Lemma find_refine {A} (P Q : A -> bool) (l : list A) (x : A) :
  find P l = Some x -> Q x = true ->
  (forall y, In y l -> Q y = true -> P y = true) ->
  find Q l = Some x.
Proof.
  intros Hfind Hx Himp. induction l as [| y l IH]; [discriminate |].
  simpl in *. destruct (P y) eqn:Py.
  - injection Hfind as ->. rewrite Hx. reflexivity.
  - destruct (Q y) eqn:Qy.
    + apply Himp in Qy; [congruence | now left].
    + apply IH; [exact Hfind | intros z Hz; apply Himp; now right].
Qed.

Lemma find_pointwise {A} (P Q : A -> bool) (l : list A) :
  (forall x, P x = Q x) -> find P l = find Q l.
Proof.
  intros H. induction l as [| x l IH]; simpl; [reflexivity |].
  rewrite H, IH. reflexivity.
Qed.

Lemma first_hd_error {A} (l : list A) :
  first l = match hd_error l with
            | Some x => Returned x
            | None => Raised (mk_exn IndexError "list index out of range")
            end.
Proof. destruct l; reflexivity. Qed.

(** The entries of a document, sorted by date, each with its date. *)
Definition dated_entries (d : dict pyval) : list (date * (string * pyval)) :=
  sort_keyed date_lt (map (fun x => (date_of (fst x), x)) d).

Lemma sorted_dates_entries (d : dict pyval) :
  map snd (sort_keyed date_lt (combine (map date_of (dict_keys d))
                                 (dict_keys d)))
  = map (fun p => fst (snd p)) (dated_entries d).
Proof.
  unfold dated_entries, dict_keys. rewrite combine_map_self, map_map.
  change (map (fun x : string * pyval => (date_of (fst x), fst x)) d)
    with (map (fun x : string * pyval =>
                 (fst (date_of (fst x), x), fst (snd (date_of (fst x), x))))
            d).
  rewrite <- (map_map (fun x => (date_of (fst x), x))
                (fun p => (fst p, fst (snd p)))).
  rewrite <- sort_keyed_map, map_map. reflexivity.
Qed.

Lemma nearest_entries (d : dict pyval) (today : date) :
  map snd
    (sort_keyed date_lt
       (combine
          (map (fun x => date_of (fst x))
             (filter (fun item => date_ge (date_of (fst item)) today) d))
          (filter (fun item => date_ge (date_of (fst item)) today) d)))
  = map snd
      (filter (fun p => date_ge (date_of (fst (snd p))) today)
         (dated_entries d)).
Proof.
  unfold dated_entries. rewrite combine_map_self.
  rewrite (filter_sort_keyed date_lt date_order_lt_le date_order_trans).
  f_equal. f_equal.
  induction d as [| x d IH]; simpl; [reflexivity |].
  destruct (date_ge (date_of (fst x)) today); simpl; rewrite IH; reflexivity.
Qed.

Lemma find_nearest_as_find (self : ServiceDataManager.t) (d : dict pyval)
    (today : date) :
  data self = PyDict d ->
  Forall parses (dict_keys d) ->
  find_nearest_upcoming_service self today
  = Returned
      (option_map snd
         (find (fun p => date_ge (date_of (fst (snd p))) today)
            (dated_entries d))).
Proof.
  intros Hdata Hparse.
  rewrite (find_nearest_value self d today Hdata Hparse).
  pose proof (nearest_entries d today) as Hn.
  rewrite <- hd_filter_find.
  destruct (filter (fun item => date_ge (date_of (fst item)) today) d)
    as [| x l] eqn:Hf.
  - symmetry in Hn. apply map_eq_nil in Hn. rewrite Hn. reflexivity.
  - rewrite Hn, first_hd_error.
    destruct (filter _ (dated_entries d)) as [| p ps]; [| reflexivity].
    apply (f_equal (@List.length _)) in Hn.
    rewrite length_map in Hn.
    rewrite (Permutation_length (sort_keyed_perm date_lt _)) in Hn.
    discriminate Hn.
Qed.

(** X2.  The nearest upcoming service is the first date of the sorted
    list that is today or later: the date picked for display and the list
    offered for selection agree, also between keys of the same date.  In
    a well-formed document the entry returned is the one stored under
    that key. *)
Theorem nearest_is_first_upcoming_of_sorted
    (self : ServiceDataManager.t) (d : dict pyval) (today : date) :
  data self = PyDict d ->
  Forall parses (dict_keys d) ->
  exists dates found,
    get_sorted_dates self = Returned dates
    /\ find_nearest_upcoming_service self today = Returned found
    /\ option_map fst found
       = find (fun k => date_ge (date_of k) today) dates
    /\ (dict_wf d ->
        forall k v, found = Some (k, v) -> dict_get d k = Some v).
Proof.
  intros Hdata Hparse. do 2 eexists.
  split; [| split; [apply (find_nearest_as_find self d today Hdata Hparse) |]].
  - unfold get_sorted_dates. rewrite Hdata. cbn [as_dict bind].
    rewrite (sorted_dates_value _ Hparse), sorted_dates_entries. reflexivity.
  - split.
    + rewrite (find_map (fun p => fst (snd p))
                 (fun k => date_ge (date_of k) today)).
      destruct (find _ (dated_entries d)) as [[dt [k v]] |]; reflexivity.
    + intros Hwf k v Hfound.
      destruct (find _ (dated_entries d)) as [[dt kv] |] eqn:Hfind;
        [| discriminate].
      cbn in Hfound. injection Hfound as ->.
      apply find_some in Hfind. destruct Hfind as [Hin _].
      unfold dated_entries in Hin.
      apply (Permutation_in _ (sort_keyed_perm date_lt _)) in Hin.
      apply in_map_iff in Hin. destruct Hin as [[k' v'] [Heq Hin]].
      injection Heq as _ -> ->.
      clear - Hwf Hin. unfold dict_wf, dict_keys in Hwf.
      induction d as [| [k0 v0] d IH]; [destruct Hin |].
      cbn [dict_get]. inversion Hwf as [| ? ? Hnin Hd]; subst.
      destruct Hin as [Heq | Hin].
      * injection Heq as -> ->. rewrite String.eqb_refl. reflexivity.
      * destruct (String.eqb_spec k0 k) as [-> | Hne]; [| apply IH; assumption].
        exfalso. apply Hnin. apply in_map_iff. exists (k, v). auto.
Qed.

Lemma nearest_is_first_upcoming_of_sorted_witness :
  exists dates found,
    get_sorted_dates scenario = Returned dates
    /\ find_nearest_upcoming_service scenario (mk_date 2024 6 1)
       = Returned found
    /\ option_map fst found
       = find (fun k => date_ge (date_of k) (mk_date 2024 6 1)) dates
    /\ (dict_wf scenario_doc ->
        forall k v, found = Some (k, v) -> dict_get scenario_doc k = Some v).
Proof.
  apply (nearest_is_first_upcoming_of_sorted scenario scenario_doc
           (mk_date 2024 6 1)).
  - reflexivity.
  - exact scenario_keys_parse.
Defined.

Lemma same_rank_dates (a b : date) :
  same_rank date_lt a b = date_eqb b a.
Proof.
  unfold same_rank.
  destruct (date_eqb b a) eqn:Heq.
  - apply date_eqb_spec in Heq. subst b.
    assert (H : date_lt a a = false) by (apply date_lt_false, date_le_refl).
    rewrite H. reflexivity.
  - destruct (date_lt a b) eqn:Hab; [reflexivity |].
    destruct (date_lt b a) eqn:Hba; [reflexivity |].
    apply date_lt_false in Hab, Hba.
    pose proof (date_le_antisym _ _ Hab Hba) as H. subst b.
    assert (H : date_eqb a a = true) by (apply date_eqb_spec; reflexivity).
    congruence.
Qed.

Lemma dated_entries_In (d : dict pyval) (p : date * (string * pyval)) :
  In p (dated_entries d) -> fst p = date_of (fst (snd p)) /\ In (snd p) d.
Proof.
  unfold dated_entries. intros Hin.
  apply (Permutation_in _ (sort_keyed_perm date_lt _)) in Hin.
  apply in_map_iff in Hin. destruct Hin as [x [<- Hin]]. auto.
Qed.

(** X3.  When several keys name the same date (["1/1/2099"] and
    ["01/01/2099"]), the entry returned is the one that comes first in
    the document: no entry before it has its date. *)
Theorem nearest_tie_first_in_document
    (self : ServiceDataManager.t) (d : dict pyval) (today : date)
    (k : string) (v : pyval) :
  data self = PyDict d ->
  Forall parses (dict_keys d) ->
  find_nearest_upcoming_service self today = Returned (Some (k, v)) ->
  find (fun item => date_eqb (date_of (fst item)) (date_of k)) d
  = Some (k, v).
Proof.
  intros Hdata Hparse Hfound.
  rewrite (find_nearest_as_find self d today Hdata Hparse) in Hfound.
  destruct (find _ (dated_entries d)) as [[dt kv] |] eqn:Hfind;
    [| discriminate].
  cbn in Hfound. injection Hfound as ->.
  pose proof (find_some _ _ Hfind) as [Hin Hge]. cbn [fst snd] in Hge.
  apply dated_entries_In in Hin. destruct Hin as [Hdt _].
  cbn [fst snd] in Hdt. subst dt.
  set (same := fun p : date * (string * pyval) =>
                 same_rank date_lt (date_of k) (fst p)).
  assert (Hsame : find same (dated_entries d) = Some (date_of k, (k, v))).
  { apply find_refine
      with (P := fun p => date_ge (date_of (fst (snd p))) today).
    - exact Hfind.
    - unfold same. cbn [fst]. rewrite same_rank_dates.
      apply date_eqb_spec. reflexivity.
    - intros [dt' [k' v']] Hy Hs. apply dated_entries_In in Hy.
      destruct Hy as [Hy _]. unfold same in Hs. cbn [fst snd] in *.
      rewrite same_rank_dates in Hs. apply date_eqb_spec in Hs.
      rewrite <- Hy, Hs. exact Hge. }
  rewrite <- hd_filter_find in Hsame. unfold dated_entries, same in Hsame.
  rewrite (sort_keyed_stable date_lt date_order_trans) in Hsame.
  rewrite hd_filter_find, find_map in Hsame.
  rewrite (find_pointwise _
             (fun item => date_eqb (date_of (fst item)) (date_of k)))
    in Hsame by (intros x; cbn [fst]; apply same_rank_dates).
  destruct (find _ d) as [x |]; [| discriminate].
  cbn in Hsame. injection Hsame as _ ->. reflexivity.
Qed.

Definition tied_doc : dict pyval :=
  [("1/1/2099", PyDict [("song1", PyStr "a.mp3")]);
   ("01/01/2099", PyDict [("song1", PyStr "b.mp3")])].

Lemma nearest_tie_first_in_document_witness :
  find (fun item => date_eqb (date_of (fst item)) (date_of "1/1/2099"))
    tied_doc
  = Some ("1/1/2099", PyDict [("song1", PyStr "a.mp3")]).
Proof.
  apply (nearest_tie_first_in_document
           {| json_path := "services.json"; data := PyDict tied_doc |}
           tied_doc (mk_date 2024 6 1)).
  - reflexivity.
  - repeat constructor; vm_compute; eexists; reflexivity.
  - vm_compute. reflexivity.
Defined.

(** ** A manager without a usable file, and documents of another shape *)

Lemma load_data_value (json_load : string -> result pyval)
    (fs : string -> file) (self : ServiceDataManager.t) :
  load_data json_load fs self
  = match fs (json_path self) with
    | Content text =>
        match json_load text with
        | Returned v =>
            Returned ({| json_path := json_path self; data := v |}, true)
        | Raised _ => Returned (self, false)
        end
    | _ => Returned (self, false)
    end.
Proof.
  unfold load_data, load_data_body, try_except.
  destruct (fs (json_path self)) as [| e | text]; [reflexivity | |].
  - rewrite isinstance_Exception. reflexivity.
  - destruct (json_load text) as [v | e]; cbn [bind]; [reflexivity |].
    rewrite isinstance_Exception. reflexivity.
Qed.

(** X4.  Creating the manager never raises.  When the schedule file is
    missing, cannot be opened or cannot be decoded, the manager starts
    with the empty schedule: no dates to choose from, no upcoming service,
    and the placeholder for every field of any date.  Otherwise its
    document is the decoded value. *)
Theorem init_falls_back_to_empty_schedule
    (json_load : string -> result pyval) (fs : string -> file)
    (path : string) :
  exists self,
    init json_load fs path = Returned self
    /\ json_path self = path
    /\ (forall text v,
          fs path = Content text -> json_load text = Returned v ->
          data self = v)
    /\ (fs path = Missing
        \/ (exists e, fs path = Unreadable e)
        \/ (exists text e,
              fs path = Content text /\ json_load text = Raised e) ->
        data self = PyDict []
        /\ get_sorted_dates self = Returned []
        /\ (forall today,
              find_nearest_upcoming_service self today = Returned None)
        /\ (forall date_str,
              get_service_data self date_str = Returned all_none)).
Proof.
  unfold init. rewrite load_data_value. cbn [json_path].
  assert (Hempty : forall self : ServiceDataManager.t,
            data self = PyDict [] ->
            data self = PyDict []
            /\ get_sorted_dates self = Returned []
            /\ (forall today,
                  find_nearest_upcoming_service self today = Returned None)
            /\ (forall date_str,
                  get_service_data self date_str = Returned all_none)).
  { intros self Hdata. split; [exact Hdata |].
    unfold get_sorted_dates, find_nearest_upcoming_service, get_service_data.
    rewrite Hdata. repeat split. }
  destruct (fs path) as [| e | text] eqn:Hfile; cbn [bind fst].
  - eexists. split; [reflexivity |]. split; [reflexivity |].
    split; [discriminate |]. intros _. apply Hempty. reflexivity.
  - eexists. split; [reflexivity |]. split; [reflexivity |].
    split; [discriminate |]. intros _. apply Hempty. reflexivity.
  - destruct (json_load text) as [v | e] eqn:Hjson; cbn [bind fst].
    + eexists. split; [reflexivity |]. split; [reflexivity |]. split.
      * intros text' v' Htext Hv. injection Htext as <-. cbn [data].
        congruence.
      * intros [H | [[e H] | [text' [e [Htext Hv]]]]]; try discriminate.
        injection Htext as <-. congruence.
    + eexists. split; [reflexivity |]. split; [reflexivity |]. split.
      * intros text' v' Htext Hv. injection Htext as <-. congruence.
      * intros _. apply Hempty. reflexivity.
Qed.

Definition not_a_mapping (v : pyval) : Prop := forall d, v <> PyDict d.

Lemma as_dict_not_a_mapping (v : pyval) :
  not_a_mapping v ->
  as_dict v = Raised (mk_exn AttributeError "object has no such attribute").
Proof.
  intros H. destruct v; try reflexivity. exfalso. exact (H items eq_refl).
Qed.

(** X5.  [load_data] takes whatever the file decodes to.  A file that
    holds valid JSON other than an object (a list, a string, [null]) is
    loaded with success reported, and from then on every query of the
    schedule raises [AttributeError]. *)
Theorem load_data_accepts_any_document
    (json_load : string -> result pyval) (fs : string -> file)
    (self : ServiceDataManager.t) (text : string) (v : pyval) :
  fs (json_path self) = Content text ->
  json_load text = Returned v ->
  not_a_mapping v ->
  exists self',
    load_data json_load fs self = Returned (self', true)
    /\ data self' = v
    /\ (exists e, get_sorted_dates self' = Raised e
                  /\ exn_cls e = AttributeError)
    /\ (forall today,
          exists e, find_nearest_upcoming_service self' today = Raised e
                    /\ exn_cls e = AttributeError)
    /\ (forall date_str,
          exists e, get_service_data self' date_str = Raised e
                    /\ exn_cls e = AttributeError).
Proof.
  intros Hfile Hjson Hshape. rewrite load_data_value, Hfile, Hjson.
  eexists. split; [reflexivity |]. split; [reflexivity |].
  unfold get_sorted_dates, find_nearest_upcoming_service, get_service_data.
  cbn [data]. rewrite (as_dict_not_a_mapping v Hshape). cbn [bind].
  split; [| split]; intros; eexists; split; reflexivity.
Qed.

Definition list_json_load (text : string) : result pyval :=
  if String.eqb text "[]" then Returned (PyList [])
  else Raised (mk_exn JSONDecodeError "Expecting value").

Lemma load_data_accepts_any_document_witness :
  exists self',
    load_data list_json_load (toy_fs (Content "[]"))
      {| json_path := "selections.json"; data := PyDict scenario_doc |}
    = Returned (self', true)
    /\ data self' = PyList []
    /\ (exists e, get_sorted_dates self' = Raised e
                  /\ exn_cls e = AttributeError)
    /\ (forall today,
          exists e, find_nearest_upcoming_service self' today = Raised e
                    /\ exn_cls e = AttributeError)
    /\ (forall date_str,
          exists e, get_service_data self' date_str = Raised e
                    /\ exn_cls e = AttributeError).
Proof.
  apply (load_data_accepts_any_document list_json_load
           (toy_fs (Content "[]"))
           {| json_path := "selections.json"; data := PyDict scenario_doc |}
           "[]" (PyList [])).
  - reflexivity.
  - reflexivity.
  - intros d. discriminate.
Defined.

(** X6.  [get_service_data] returns exactly when the document is a
    mapping and what it stores under the date, if anything, is a mapping
    too; a date whose record is [null], a list or a string makes it raise
    [AttributeError], the only exception it raises. *)
Theorem get_service_data_needs_mappings
    (self : ServiceDataManager.t) (date_str : string) :
  ((exists fields, get_service_data self date_str = Returned fields) <->
   exists d, data self = PyDict d
             /\ forall v, dict_get d date_str = Some v ->
                          exists record, v = PyDict record)
  /\ (forall e, get_service_data self date_str = Raised e ->
                exn_cls e = AttributeError).
Proof.
  unfold get_service_data, extract_song_data, dict_get_default.
  destruct (data self) as [| b | n | f | s | l | d];
    try (cbn [as_dict bind]; split;
         [ split; [intros [fields H]; discriminate
                  | intros [d [H _]]; discriminate]
         | intros e H; injection H as <-; reflexivity ]).
  cbn [as_dict bind].
  destruct (dict_get d date_str) as [v |] eqn:Hget.
  - destruct v as [| b | n | f | s | l | record];
      try (cbn [as_dict bind]; split;
           [ split; [intros [fields H]; discriminate
                    | intros [d' [Hd H]]; injection Hd as <-;
                      destruct (H _ Hget) as [record Hrec]; discriminate]
           | intros e H; injection H as <-; reflexivity ]).
    cbn [as_dict bind]. split; [| discriminate]. split.
    + intros _. exists d. split; [reflexivity |].
      intros v Hv. rewrite Hget in Hv. injection Hv as <-. eauto.
    + intros _. eauto.
  - cbn [as_dict bind]. split; [| discriminate]. split.
    + intros _. exists d. split; [reflexivity |]. intros v Hv.
      rewrite Hget in Hv. discriminate.
    + intros _. eauto.
Qed.

(** ** The calls of a push, one by one *)

Lemma loop_run (net : network) (self : CompanionAPI.t)
    (items : dict string) (errors : list string) (log : list event) :
  only_request_errors net ->
  exists errs,
    io_for items (CompanionAPI.update_field net self) errors log
    = (Returned (errors ++ errs)%list,
       (log ++ flat_map (item_call self) items)%list)
    /\ List.length errs
       = failed_calls net log (flat_map (item_call self) items).
Proof.
  intros Honly. revert errors log.
  induction items as [| item items IH]; intros errors log.
  - exists []. cbn. rewrite !app_nil_r. split; reflexivity.
  - cbn [io_for flat_map]. unfold io_bind, item_call at 1 3.
    rewrite update_field_run.
    destruct (item_url self item) as [url |]; [| apply IH].
    cbn [app failed_calls call_fails].
    destruct (post_answer net log url) as [r | e] eqn:Hpost.
    + destruct (IH errors (log ++ [Post url])%list) as [errs [Hrun Hlen]].
      exists errs. rewrite Hrun, <- app_assoc. split; [reflexivity |].
      exact Hlen.
    + rewrite (Honly log url e Hpost).
      set (msg := (_ ++ ": " ++ exn_str e)%string).
      destruct (IH (errors ++ [msg])%list (log ++ [Post url])%list)
        as [errs [Hrun Hlen]].
      exists (msg :: errs). rewrite Hrun, <- !app_assoc.
      split; [reflexivity |]. cbn [List.length]. rewrite Hlen. reflexivity.
Qed.

(** A push whose writes raise request errors only. *)
Lemma push_run (net : network) (self : CompanionAPI.t)
    (song_data : dict string) (service_date : string) (log : list event) :
  only_request_errors net ->
  exists errors,
    CompanionAPI.update_service_data net self song_data service_date log
    = (Returned errors,
       (log ++ push_calls self song_data service_date)%list)
    /\ List.length errors
       = failed_calls net log (push_calls self song_data service_date).
Proof.
  intros Honly.
  unfold CompanionAPI.update_service_data, io_bind at 1.
  unfold io_try, io_bind, requests_post, io_ret, push_calls, dict_items.
  cbn [failed_calls call_fails].
  set (url := CompanionAPI.date_url self service_date).
  destruct (post_answer net log url) as [r | e] eqn:Hpost.
  - destruct (loop_run net self song_data [] (log ++ [Post url])%list Honly)
      as [errs [Hrun Hlen]].
    exists errs. rewrite Hrun, <- app_assoc. cbn [app].
    split; [reflexivity | exact Hlen].
  - rewrite (Honly log url e Hpost).
    destruct (loop_run net self song_data ["ServiceDate: " ++ exn_str e]
                (log ++ [Post url])%list Honly)
      as [errs [Hrun Hlen]].
    exists (("ServiceDate: " ++ exn_str e) :: errs).
    rewrite Hrun, <- app_assoc. cbn [app List.length].
    split; [reflexivity | rewrite Hlen; reflexivity].
Qed.

(** Calls that are all writes, all answered: none fails. *)
Lemma answered_writes_do_not_fail (net : network) (calls : list event)
    (log : list event) :
  (forall log' url, exists r, post_answer net log' url = Returned r) ->
  Forall (fun c => exists url, c = Post url) calls ->
  failed_calls net log calls = 0%nat.
Proof.
  intros Hall Hposts. revert log.
  induction Hposts as [| c calls [url ->] _ IH]; intros log; [reflexivity |].
  cbn [failed_calls call_fails]. destruct (Hall log url) as [r ->].
  apply IH.
Qed.

(** X7.  When whatever a write raises is a request error, a push returns
    (it does not raise); it attempts the write of the date and then one
    write for each item of the mapping that the table knows, in the order
    of the mapping; and it reports exactly as many errors as writes that
    raised.  A write that is answered, with whatever HTTP status, is not
    an error: when every write is answered the list is empty. *)
Theorem update_service_data_one_error_per_failed_write (net : network)
    (self : CompanionAPI.t) (song_data : dict string)
    (service_date : string) (log : list event) :
  only_request_errors net ->
  exists errors,
    CompanionAPI.update_service_data net self song_data service_date log
    = (Returned errors,
       (log ++ push_calls self song_data service_date)%list)
    /\ List.length errors
       = failed_calls net log (push_calls self song_data service_date)
    /\ ((forall log' url, exists r, post_answer net log' url = Returned r) ->
        errors = []).
Proof.
  intros Honly.
  destruct (push_run net self song_data service_date log Honly)
    as [errors [Hrun Hlen]].
  exists errors. split; [exact Hrun |]. split; [exact Hlen |].
  intros Hall.
  rewrite (answered_writes_do_not_fail net _ log Hall
             (push_calls_are_writes self song_data service_date)) in Hlen.
  destruct errors; [reflexivity | discriminate].
Qed.

Lemma update_service_data_one_error_per_failed_write_witness :
  exists errors,
    CompanionAPI.update_service_data (net_up 500)
      (CompanionAPI.init "10.0.0.5") twelve_fields "01/01/2099" []
    = (Returned errors,
       ([] ++ push_calls (CompanionAPI.init "10.0.0.5") twelve_fields
                "01/01/2099")%list)
    /\ List.length errors
       = failed_calls (net_up 500) []
           (push_calls (CompanionAPI.init "10.0.0.5") twelve_fields
              "01/01/2099")
    /\ ((forall log' url,
           exists r, post_answer (net_up 500) log' url = Returned r) ->
        errors = []).
Proof.
  apply (update_service_data_one_error_per_failed_write (net_up 500)
           (CompanionAPI.init "10.0.0.5") twelve_fields "01/01/2099" []).
  intros log url e H. discriminate H.
Defined.

Lemma loop_raise (net : network) (self : CompanionAPI.t)
    (items : dict string) (errors : list string) (log : list event)
    (e : exn) :
  fst (io_for items (CompanionAPI.update_field net self) errors log)
  = Raised e ->
  exists done url rest,
    flat_map (item_call self) items = (done ++ Post url :: rest)%list
    /\ snd (io_for items (CompanionAPI.update_field net self) errors log)
       = (log ++ done ++ [Post url])%list
    /\ post_answer net (log ++ done)%list url = Raised e
    /\ isinstance e RequestException = false.
Proof.
  revert errors log.
  induction items as [| item items IH]; intros errors log;
    [discriminate |].
  cbn [io_for flat_map]. unfold io_bind, item_call at 1.
  rewrite update_field_run.
  destruct (item_url self item) as [url |]; [| apply IH].
  assert (Hnext : forall errors',
            fst (io_for items (CompanionAPI.update_field net self) errors'
                   (log ++ [Post url])%list) = Raised e ->
            exists done url' rest,
              ([Post url] ++ flat_map (item_call self) items)%list
              = (done ++ Post url' :: rest)%list
              /\ snd (io_for items (CompanionAPI.update_field net self)
                        errors' (log ++ [Post url])%list)
                 = (log ++ done ++ [Post url'])%list
              /\ post_answer net (log ++ done)%list url' = Raised e
              /\ isinstance e RequestException = false).
  { intros errors' H.
    destruct (IH errors' (log ++ [Post url])%list H)
      as (done & url' & rest & Hcalls & Hlog & Hpost & Hcls).
    exists (Post url :: done), url', rest.
    rewrite Hcalls, Hlog. rewrite <- app_assoc in Hpost. rewrite <- app_assoc.
    repeat split; assumption. }
  destruct (post_answer net log url) as [r | e'] eqn:Hpost;
    [apply Hnext |].
  destruct (isinstance e' RequestException) eqn:Hcls; [apply Hnext |].
  cbn [fst snd]. intros H. injection H as <-.
  exists [], url, (flat_map (item_call self) items).
  rewrite app_nil_r. repeat split; assumption.
Qed.

(** X8.  A push raises only what one of its writes raised that is not a
    request error, and it stops there: the call that raised is the last
    one it made, and the writes that would have followed are not
    attempted. *)
Theorem update_service_data_stops_at_foreign_error (net : network)
    (self : CompanionAPI.t) (song_data : dict string)
    (service_date : string) (log : list event) (e : exn) :
  fst (CompanionAPI.update_service_data net self song_data service_date log)
  = Raised e ->
  exists done url rest,
    push_calls self song_data service_date = (done ++ Post url :: rest)%list
    /\ snd (CompanionAPI.update_service_data net self song_data
              service_date log)
       = (log ++ done ++ [Post url])%list
    /\ post_answer net (log ++ done)%list url = Raised e
    /\ isinstance e RequestException = false.
Proof.
  unfold CompanionAPI.update_service_data, io_bind at 1.
  unfold io_try, io_bind, requests_post, io_ret, push_calls, dict_items.
  set (url := CompanionAPI.date_url self service_date).
  assert (Hnext : forall errors,
            fst (io_for song_data (CompanionAPI.update_field net self) errors
                   (log ++ [Post url])%list) = Raised e ->
            exists done url' rest,
              Post url :: flat_map (item_call self) song_data
              = (done ++ Post url' :: rest)%list
              /\ snd (io_for song_data (CompanionAPI.update_field net self)
                        errors (log ++ [Post url])%list)
                 = (log ++ done ++ [Post url'])%list
              /\ post_answer net (log ++ done)%list url' = Raised e
              /\ isinstance e RequestException = false).
  { intros errors H.
    destruct (loop_raise net self song_data errors (log ++ [Post url])%list
                e H)
      as (done & url' & rest & Hcalls & Hlog & Hpost & Hcls).
    exists (Post url :: done), url', rest.
    rewrite Hcalls, Hlog. rewrite <- app_assoc in Hpost. rewrite <- app_assoc.
    repeat split; assumption. }
  destruct (post_answer net log url) as [r | e'] eqn:Hpost;
    [apply Hnext |].
  destruct (isinstance e' RequestException) eqn:Hcls; [apply Hnext |].
  cbn [fst snd]. intros H. injection H as <-.
  exists [], url, (flat_map (item_call self) song_data).
  rewrite app_nil_r. repeat split; assumption.
Qed.

(** A target that answers the write of the date, and whose library then
    raises an error of another kind at the first field. *)
Definition net_breaks_after_date : network :=
  {| connect_answer := fun _ _ _ => Returned tt;
     get_answer := fun _ _ => Returned (mk_response 200 "01/01/2099");
     post_answer := fun log _ =>
       match log with
       | [] => Returned (mk_response 200 "")
       | _ => Raised (mk_exn UnicodeError "label empty or too long")
       end |}.

Lemma update_service_data_stops_at_foreign_error_witness :
  exists done url rest,
    push_calls (CompanionAPI.init "10.0.0.5") twelve_fields "01/01/2099"
    = (done ++ Post url :: rest)%list
    /\ snd (CompanionAPI.update_service_data net_breaks_after_date
              (CompanionAPI.init "10.0.0.5") twelve_fields "01/01/2099" [])
       = ([] ++ done ++ [Post url])%list
    /\ post_answer net_breaks_after_date ([] ++ done)%list url
       = Raised (mk_exn UnicodeError "label empty or too long")
    /\ isinstance (mk_exn UnicodeError "label empty or too long")
         RequestException = false.
Proof.
  apply (update_service_data_stops_at_foreign_error net_breaks_after_date
           (CompanionAPI.init "10.0.0.5") twelve_fields "01/01/2099" []
           (mk_exn UnicodeError "label empty or too long")).
  reflexivity.
Defined.

(** ** Probing the target and reading its date *)

(** X9.  [test_connection] opens the socket first and sends the HTTP
    request only when the socket could be opened: it makes one call or
    two, never the request alone.  What it raises was raised by one of
    the two calls and is not a network error. *)
Theorem test_connection_probe_before_request (net : network)
    (self : CompanionAPI.t) (log : list event) :
  let probe := Connect (CompanionAPI.companion_ip self) 8000 in
  let request := Get (CompanionAPI.base_url self ++ "/ServiceDate/value") in
  (snd (CompanionAPI.test_connection net self log)
   = match connect_answer net log (CompanionAPI.companion_ip self) 8000 with
     | Returned _ => (log ++ [probe; request])%list
     | Raised _ => (log ++ [probe])%list
     end)
  /\ (forall e,
        fst (CompanionAPI.test_connection net self log) = Raised e ->
        CompanionAPI.catches_network_error e = false
        /\ (connect_answer net log (CompanionAPI.companion_ip self) 8000
            = Raised e
            \/ get_answer net (log ++ [probe])%list
                 (CompanionAPI.base_url self ++ "/ServiceDate/value")
               = Raised e)).
Proof.
  cbv zeta.
  unfold CompanionAPI.test_connection, io_try, io_bind,
    socket_create_connection, requests_get, io_ret.
  destruct (connect_answer net log _ 8000) as [[] | e1] eqn:Hconn.
  - destruct (get_answer net _ _) as [r | e2] eqn:Hget.
    + rewrite <- app_assoc. split; [reflexivity | discriminate].
    + rewrite <- app_assoc.
      destruct (CompanionAPI.catches_network_error e2) eqn:Hcls;
        (split; [reflexivity |]); [discriminate |].
      intros e H. injection H as <-. split; [exact Hcls | now right].
  - destruct (CompanionAPI.catches_network_error e1) eqn:Hcls;
      (split; [reflexivity |]); [discriminate |].
    intros e H. injection H as <-. split; [exact Hcls | now left].
Qed.

Lemma lstrip_head (s : string) :
  lstrip s = "" \/ exists c s', lstrip s = String c s' /\ isspace c = false.
Proof.
  induction s as [| c s IH]; [left; reflexivity |].
  cbn [lstrip]. destruct (isspace c) eqn:Hc; [exact IH |].
  right. exists c, s. split; [reflexivity | exact Hc].
Qed.

Lemma rstrip_idempotent (s : string) : rstrip (rstrip s) = rstrip s.
Proof.
  induction s as [| c s IH]; [reflexivity |].
  cbn [rstrip]. destruct (rstrip s) as [| d r] eqn:Hr.
  - destruct (isspace c) eqn:Hc; [reflexivity |].
    cbn [rstrip]. rewrite Hc. reflexivity.
  - change (rstrip (String c (String d r)))
      with (match rstrip (String d r) with
            | "" => if isspace c then "" else String c ""
            | r' => String c r'
            end).
    rewrite IH. reflexivity.
Qed.

Lemma rstrip_head (c : ascii) (s : string) :
  isspace c = false -> exists r, rstrip (String c s) = String c r.
Proof.
  intros Hc. cbn [rstrip]. destruct (rstrip s) as [| d r].
  - rewrite Hc. eauto.
  - eauto.
Qed.

(** What [strip] returns has no white space at either end. *)
Lemma strip_stripped (s : string) : stripped (strip s) = true.
Proof.
  unfold stripped, strip. rewrite rstrip_idempotent, String.eqb_refl.
  rewrite andb_true_r. apply String.eqb_eq.
  destruct (lstrip_head s) as [-> | [c [s' [-> Hc]]]]; [reflexivity |].
  destruct (rstrip_head c s' Hc) as [r ->]. cbn [lstrip]. rewrite Hc.
  reflexivity.
Qed.




(** The status is an error status for [raise_for_status]. *)
Definition error_status (r : response) : bool :=
  (400 <=? status_code r) && (status_code r <? 600).

Lemma raise_for_status_value (r : response) :
  if error_status r
  then exists msg, raise_for_status r = Raised (mk_exn HTTPError msg)
  else raise_for_status r = Returned tt.
Proof.
  unfold error_status, raise_for_status.
  destruct (400 <=? status_code r) eqn:H4;
    destruct (status_code r <? 500) eqn:H5;
    destruct (500 <=? status_code r) eqn:H5';
    destruct (status_code r <? 600) eqn:H6; cbn [andb];
    eauto; lia.
Qed.

Lemma get_current_service_date_value (net : network)
    (self : CompanionAPI.t) (log : list event) :
  let url := CompanionAPI.base_url self ++ "/ServiceDate/value" in
  CompanionAPI.get_current_service_date net self log
  = (match get_answer net log url with
     | Returned r =>
         if error_status r then Returned None
         else Returned (Some (strip (text r)))
     | Raised e =>
         if isinstance e RequestException then Returned None else Raised e
     end, (log ++ [Get url])%list).
Proof.
  cbv zeta.
  unfold CompanionAPI.get_current_service_date, io_try, io_bind,
    requests_get, io_lift, io_ret.
  destruct (get_answer net log _) as [r | e].
  - pose proof (raise_for_status_value r) as Hstatus.
    destruct (error_status r).
    + destruct Hstatus as [msg ->]. reflexivity.
    + rewrite Hstatus. reflexivity.
  - destruct (isinstance e RequestException); reflexivity.
Qed.

(** X10.  [get_current_service_date] makes exactly one call, the GET of
    the date.  It returns the body of the answer without the white space
    around it, unless the answer has an error status (400 to 599) or the
    call raised a request error: then it returns [None].  It raises only
    what the call raised that is not a request error. *)
Theorem get_current_service_date_outcome (net : network)
    (self : CompanionAPI.t) (log : list event) :
  let url := CompanionAPI.base_url self ++ "/ServiceDate/value" in
  let out := CompanionAPI.get_current_service_date net self log in
  snd out = (log ++ [Get url])%list
  /\ (forall d,
        fst out = Returned (Some d) <->
        exists r, get_answer net log url = Returned r
                  /\ ~ (400 <= status_code r < 600)
                  /\ d = strip (text r))
  /\ (fst out = Returned None <->
      (exists r, get_answer net log url = Returned r
                 /\ 400 <= status_code r < 600)
      \/ (exists e, get_answer net log url = Raised e
                    /\ isinstance e RequestException = true))
  /\ (forall e,
        fst out = Raised e <->
        get_answer net log url = Raised e
        /\ isinstance e RequestException = false)
  /\ (forall d, fst out = Returned (Some d) -> stripped d = true).
Proof.
  cbv zeta. rewrite get_current_service_date_value. cbn [fst snd].
  split; [reflexivity |].
  assert (Hstatus : forall r, error_status r = true
                              <-> 400 <= status_code r < 600).
  { intros r. unfold error_status.
    rewrite andb_true_iff, Z.leb_le, Z.ltb_lt. tauto. }
  destruct (get_answer net log _) as [r | e] eqn:Hget.
  - destruct (error_status r) eqn:Herr.
    + apply Hstatus in Herr. split; [| split; [| split]].
      * intros d. split; [discriminate |].
        intros [r' [Hr [Hno _]]]. injection Hr as <-. contradiction.
      * split; [| reflexivity]. intros _. left. eauto.
      * intros e. split; [discriminate | intros [H _]; discriminate].
      * discriminate.
    + assert (Hno : ~ (400 <= status_code r < 600)).
      { intros H. apply Hstatus in H. congruence. }
      split; [| split; [| split]].
      * intros d. split.
        -- intros H. injection H as <-. eauto.
        -- intros [r' [Hr [_ ->]]]. injection Hr as <-. reflexivity.
      * split; [discriminate |].
        intros [[r' [Hr H]] | [e [He _]]]; [| discriminate].
        injection Hr as <-. contradiction.
      * intros e. split; [discriminate | intros [H _]; discriminate].
      * intros d H. injection H as <-. apply strip_stripped.
  - destruct (isinstance e RequestException) eqn:Hcls;
      (split; [| split; [| split]]).
    + intros d. split; [discriminate |].
      intros [r [Hr _]]. discriminate.
    + split; [| reflexivity]. intros _. right. eauto.
    + intros e'. split; [discriminate |].
      intros [H H']. injection H as <-. congruence.
    + discriminate.
    + intros d. split; [discriminate |].
      intros [r [Hr _]]. discriminate.
    + split; [discriminate |].
      intros [[r [Hr _]] | [e' [He Hcls']]]; [discriminate |].
      injection He as <-. congruence.
    + intros e'. split.
      * intros H. injection H as <-. split; [reflexivity | exact Hcls].
      * intros [H _]. congruence.
    + discriminate.
Qed.

(** X11.  The label of the current service: without an API object it
    reads ["API not configured"] and no call is made.  With one, exactly
    one call is made, and the label shows a date only when the answer has
    a body that is not blank; an answer whose body is empty or white
    space only is reported as a failure to fetch, like an error status
    and like a request error. *)
Theorem update_current_service_date_label (net : network)
    (api : CompanionAPI.t) (log : list event) :
  let url := CompanionAPI.base_url api ++ "/ServiceDate/value" in
  let failure := "Failed to fetch current service date" in
  ServiceManagerGUI.update_current_service_date net None log
  = (Returned "API not configured", log)
  /\ snd (ServiceManagerGUI.update_current_service_date net (Some api) log)
     = (log ++ [Get url])%list
  /\ (forall label,
        fst (ServiceManagerGUI.update_current_service_date net (Some api) log)
        = Returned label ->
        label = failure
        \/ exists r,
             get_answer net log url = Returned r
             /\ ~ (400 <= status_code r < 600)
             /\ strip (text r) <> ""
             /\ label = "Current Service Date: " ++ strip (text r))
  /\ (forall r,
        get_answer net log url = Returned r ->
        strip (text r) = "" ->
        fst (ServiceManagerGUI.update_current_service_date net (Some api) log)
        = Returned failure).
Proof.
  cbv zeta. split; [reflexivity |].
  unfold ServiceManagerGUI.update_current_service_date, io_bind.
  rewrite get_current_service_date_value.
  destruct (get_answer net log _) as [r | e] eqn:Hget.
  - destruct (error_status r) eqn:Herr.
    + split; [reflexivity |]. split.
      * intros label H. injection H as <-. left. reflexivity.
      * intros; reflexivity.
    + unfold CompanionAPI.truthy.
      destruct (String.eqb_spec (strip (text r)) "") as [Hblank | Hdate];
        cbn [negb]; (split; [reflexivity |]); split.
      * intros label H. injection H as <-. left. reflexivity.
      * intros; reflexivity.
      * intros label H. injection H as <-. right. exists r.
        split; [reflexivity |]. split; [| split; [exact Hdate | reflexivity]].
        unfold error_status in Herr. intros H.
        apply andb_false_iff in Herr. rewrite Z.leb_gt, Z.ltb_ge in Herr.
        lia.
      * intros r' Hr Hblank. injection Hr as <-. contradiction.
  - destruct (isinstance e RequestException); (split; [reflexivity |]);
      split; try discriminate.
    intros label H. injection H as <-. left. reflexivity.
Qed.

(** ** Saving settings, on any store *)




Lemma is_valid_value (self : Config.t) (save_folder companion_ip : string) :
  Config.get_save_folder self = Returned save_folder ->
  Config.get_companion_ip self = Returned companion_ip ->
  Config.is_valid self
  = Returned (negb (is_empty save_folder) && negb (is_empty companion_ip)).
Proof.
  intros Hsf Hip. unfold Config.is_valid. rewrite Hsf. cbn [bind].
  destruct (is_empty save_folder); [reflexivity |].
  rewrite Hip. reflexivity.
Qed.


(** X13.  In every store the program reaches by starting without a
    file, saving plain values and starting again, the file and the store
    agree (starting again on the file gives the same store and leaves the
    file alone), and the three getters and [is_valid] return without
    raising. *)
Theorem program_store_in_sync (crlf : bool) (self : Config.t)
    (file : Config.settings_file) :
  program_store crlf self file ->
  Config.init crlf file = (Returned self, file)
  /\ exists save_folder companion_ip show_refresh,
       Config.get_save_folder self = Returned save_folder
       /\ Config.get_companion_ip self = Returned companion_ip
       /\ Config.get_show_refresh_button self = Returned show_refresh
       /\ Config.is_valid self
          = Returned (negb (is_empty save_folder)
                      && negb (is_empty companion_ip)).
Proof.
  intros Hstore.
  split; [exact (proj2 (program_store_plain crlf self file Hstore)) |].
  induction Hstore
    as [| self file sf ip flag saved file' Hprev _ Hsf Hip Hsave
        | self file fresh file' Hprev IH Hinit].
  - exists "", "", false. repeat split.
  - destruct (save_then_restart crlf self file sf ip flag
                (proj1 (program_store_plain crlf self file Hprev)) Hsf Hip)
      as (saved' & file'' & Hsave' & _ & _ & Hfolder & Haddress & Hflag).
    rewrite Hsave in Hsave'. injection Hsave' as <- <-.
    exists sf, ip, flag. split; [exact Hfolder |].
    split; [exact Haddress |]. split; [exact Hflag |].
    apply is_valid_value; assumption.
  - rewrite (proj2 (program_store_plain crlf self file Hprev)) in Hinit.
    injection Hinit as <- <-. exact IH.
Qed.

Lemma program_store_in_sync_witness :
  Config.init true (first_file true) = (Returned first_start, first_file true)
  /\ exists save_folder companion_ip show_refresh,
       Config.get_save_folder first_start = Returned save_folder
       /\ Config.get_companion_ip first_start = Returned companion_ip
       /\ Config.get_show_refresh_button first_start = Returned show_refresh
       /\ Config.is_valid first_start
          = Returned (negb (is_empty save_folder)
                      && negb (is_empty companion_ip)).
Proof.
  apply (program_store_in_sync true first_start (first_file true)).
  apply store_first_start.
Defined.

(** ** Settings that a file keeps: defaults and values of several lines *)

(** [v.split('\n')]: the first line and the lines after it. *)
Fixpoint split_value (v : string) : string * list string :=
  match v with
  | EmptyString => (EmptyString, [])
  | String c v' =>
      let '(first, more) := split_value v' in
      if Ascii.eqb c LF then (EmptyString, first :: more)
      else (String c first, more)
  end.

(** A continuation line as the reader keeps it: no white space around
    it, and not a comment. *)
Definition continuation (l : string) : bool :=
  plain_line l && negb (is_comment l).

(** The last of the lines is not empty. *)
Definition ends_in_text (more : list string) : bool :=
  match more with
  | [] => true
  | _ :: _ => negb (is_empty (last more EmptyString))
  end.

(** A value that a file keeps as it is: no carriage return, no white
    space at either end of a line, no line after the first that would
    read as a comment, and no line break at the end. *)
Definition kept_value (v : string) : bool :=
  let '(first, more) := split_value v in
  plain_line first && forallb continuation more && ends_in_text more.

(** The lines an option is written on. *)
Definition option_lines (item : string * string) : list string :=
  let '(first, more) := split_value (snd item) in
  (fst item ++ " = " ++ first) :: map (String TAB) more.

Definition reads_as_header (line : string) : bool :=
  match section_header (strip line) with
  | Some _ => true
  | None => false
  end.

(** A name that an option keeps: as [plain_key], but it may start with
    a bracket. *)
Definition kept_key (k : string) : bool :=
  negb (is_empty k) && stripped k && String.eqb (lower k) k
  && no_line_break k
  && negb (contains "=" k) && negb (contains ":" k)
  && negb (starts_with "#" k) && negb (starts_with ";" k).

(** An option that a file keeps: its first line does not read as the
    header of a section. *)
Definition kept_option (item : string * string) : bool :=
  kept_key (fst item) && kept_value (snd item)
  && negb (reads_as_header (hd EmptyString (option_lines item))).

Definition kept_options (items : dict string) : Prop :=
  dict_wf items /\ Forall (fun item => kept_option item = true) items.

Definition kept_section (s : string * dict string) : Prop :=
  plain_name (fst s) = true /\ kept_options (snd s).

(** A parser that a file keeps as it is. *)
Definition kept_config (p : ConfigParser.t) : Prop :=
  kept_options (defaults p)
  /\ dict_wf (sections p)
  /\ Forall kept_section (sections p).



Lemma split_value_no_break (v : string) :
  contains LF (fst (split_value v)) = false
  /\ Forall (fun l => contains LF l = false) (snd (split_value v)).
Proof.
  induction v as [| c v [IH1 IH2]]; [split; [reflexivity | constructor] |].
  cbn [split_value]. destruct (split_value v) as [first more].
  cbn [fst snd] in *.
  destruct (Ascii.eqb c LF) eqn:Hc; cbn [fst snd].
  - split; [reflexivity | constructor; assumption].
  - split; [| exact IH2]. cbn [contains]. rewrite Hc. exact IH1.
Qed.








(** ** Reading back a written file, with [DEFAULT] and long values *)



























(** ** The text of a written file, in general *)












(** ** Saving on a store with defaults and long values *)










(** The store as [update_settings] leaves it, and saves it, when no
    value is refused. *)
Definition saved_store (self : Config.t) (save_folder companion_ip : string)
    (show_refresh : bool) : ConfigParser.t :=
  {| defaults := defaults (Config.config self);
     sections := updated_sections (sections (Config.config self))
                   save_folder companion_ip show_refresh |}.


Lemma kept_lookup (p : ConfigParser.t) (sec k v : string) :
  kept_config p ->
  lookup_option (sections p) sec k = Some v ->
  kept_value v = true.
Proof.
  intros (_ & _ & Hall). unfold lookup_option.
  destruct (dict_get (sections p) sec) as [d |] eqn:Hsec; [| discriminate].
  intros Hk. apply dict_get_In in Hsec. apply dict_get_In in Hk.
  rewrite Forall_forall in Hall. destruct (Hall _ Hsec) as [_ [_ Hopts]].
  rewrite Forall_forall in Hopts. specialize (Hopts _ Hk).
  unfold kept_option in Hopts. cbn [fst snd] in Hopts.
  rewrite !andb_true_iff in Hopts. tauto.
Qed.

(** When it is kept, the two texts are. *)
Lemma saved_store_values (self : Config.t) (save_folder companion_ip : string)
    (show_refresh : bool) :
  kept_config (saved_store self save_folder companion_ip show_refresh) ->
  kept_value save_folder = true /\ kept_value companion_ip = true.
Proof.
  intros Hkept.
  destruct (updated_sections_lookup (sections (Config.config self))
              save_folder companion_ip show_refresh) as (HP & HC & _).
  split; eapply kept_lookup; try exact Hkept; cbn [saved_store sections];
    eassumption.
Qed.


(** ** Every store read from a file is kept *)

Lemma isspace_lower_char (c : ascii) : isspace (lower_char c) = isspace c.
Proof. destruct c as [[] [] [] [] [] [] [] []]; reflexivity. Qed.








Lemma lstrip_lower (s : string) : lstrip (lower s) = lower (lstrip s).
Proof.
  induction s as [| c s IH]; [reflexivity |].
  cbn [lower lstrip]. rewrite isspace_lower_char, IH.
  destruct (isspace c); reflexivity.
Qed.


(** ** The text of the reader's lines *)





(** ** Lines that are not headers *)







(** ** Options *)





(** ** The reader keeps its cells *)











(** ** The values at the end of the reading *)










(** ** Saving again *)










(** A settings file written by hand, with a default and a value of two
    lines, and the store that it gives. *)
Definition hand_written : string :=
  unlines ["[DEFAULT]"; "d = 1"; "[a]"; "k = v"; "  more"; "[x = 2"].

Definition hand_store : Config.t :=
  {| Config.config :=
       {| defaults := [("d", "1")];
          sections :=
            [("a", [("k", "v" ++ NL ++ "more"); ("[x", "2")])] |} |}.

Example hand_written_store :
  Config.init false (Some hand_written)
  = (Returned hand_store, Some hand_written).
Proof. vm_compute. reflexivity. Qed.

Lemma hand_store_kept : kept_config (Config.config hand_store).
Proof.
  split; [| split].
  - split; [| repeat constructor].
    constructor; [intros [] | constructor].
  - constructor; [intros [] | constructor].
  - constructor; [| constructor].
    split; [reflexivity |]. split; [| repeat constructor].
    repeat (constructor; [cbn; intuition discriminate |]). constructor.
Qed.

(** What the file format does not keep: a line of the value that reads
    as a comment, a line break at the end, white space at the start of a
    line; a carriage return makes the file unreadable. *)
Example comment_line_lost :
  save_and_reload false first_start (first_file false)
    ("C:/Media" ++ NL ++ "#9am") "10.0.0.5" true
  = Returned ("C:/Media", "10.0.0.5", true).
Proof. vm_compute. reflexivity. Qed.

Example final_line_break_lost :
  save_and_reload false first_start (first_file false)
    ("C:/Media" ++ NL) "10.0.0.5" true
  = Returned ("C:/Media", "10.0.0.5", true).
Proof. vm_compute. reflexivity. Qed.

Example indentation_lost :
  save_and_reload false first_start (first_file false)
    ("C:/Media" ++ NL ++ " 9am") "10.0.0.5" true
  = Returned ("C:/Media" ++ NL ++ "9am", "10.0.0.5", true).
Proof. vm_compute. reflexivity. Qed.

Example carriage_return_unreadable :
  save_and_reload false first_start (first_file false)
    ("C:/Media" ++ String CR "9am") "10.0.0.5" true
  = Raised (mk_exn ParsingError "Source contains parsing errors").
Proof. vm_compute. reflexivity. Qed.

(** What it keeps: a value of several lines, an empty line inside it,
    and a reference that interpolation gives back as it is. *)
Example long_value_kept :
  save_and_reload true hand_store (Some hand_written)
    ("C:/Media" ++ NL ++ NL ++ "9am") "10.0.0.5" false
  = Returned ("C:/Media" ++ NL ++ NL ++ "9am", "10.0.0.5", false).
Proof. vm_compute. reflexivity. Qed.

Example reference_kept :
  save_and_reload false
    {| Config.config :=
         {| defaults := [("foo", "%%(foo)s")]; sections := [] |} |}
    None "%(foo)s" "10.0.0.5" true
  = Returned ("%(foo)s", "10.0.0.5", true).
Proof. vm_compute. reflexivity. Qed.


(** ** The settings dialog *)







(** ** Finding and starting VLC *)

Import VLCLauncher.

Section VLCFacts.
Variable m : machine.

Definition version_probe : list string := ["vlc"; "--version"].

(** No copy of VLC at any of the usual places. *)
Definition not_installed : Prop :=
  Forall (fun p => os_path_exists m p = false) (common_paths m).

(** [q] is the first of the usual places that exists. *)
Definition first_installed (q : string) : Prop :=
  exists before after,
    common_paths m = (before ++ q :: after)%list
    /\ Forall (fun p => os_path_exists m p = false) before
    /\ os_path_exists m q = true.

Lemma first_existing_found (paths before after : list string) (q : string) :
  paths = (before ++ q :: after)%list ->
  Forall (fun p => os_path_exists m p = false) before ->
  os_path_exists m q = true ->
  first_existing m paths = Some q.
Proof.
  intros -> Hbefore Hq. induction Hbefore as [| p before Hp _ IH].
  - cbn [app first_existing]. rewrite Hq. reflexivity.
  - cbn [app first_existing]. rewrite Hp. exact IH.
Qed.

Lemma first_existing_none (paths : list string) :
  Forall (fun p => os_path_exists m p = false) paths ->
  first_existing m paths = None.
Proof.
  induction 1 as [| p paths Hp _ IH]; [reflexivity |].
  cbn [first_existing]. rewrite Hp. exact IH.
Qed.

Lemma first_existing_cases (paths : list string) :
  match first_existing m paths with
  | Some q =>
      exists before after,
        paths = (before ++ q :: after)%list
        /\ Forall (fun p => os_path_exists m p = false) before
        /\ os_path_exists m q = true
  | None => Forall (fun p => os_path_exists m p = false) paths
  end.
Proof.
  induction paths as [| p paths IH]; [constructor |].
  cbn [first_existing]. destruct (os_path_exists m p) eqn:Hp.
  - exists [], paths. split; [reflexivity |].
    split; [constructor | exact Hp].
  - destruct (first_existing m paths) as [q |].
    + destruct IH as (before & after & -> & Hbefore & Hq).
      exists (p :: before), after. split; [reflexivity |].
      split; [constructor; assumption | exact Hq].
    + constructor; assumption.
Qed.

Lemma common_paths_not_empty (q : string) :
  In q (common_paths m) -> Text.is_empty q = false.
Proof.
  intros [<- | [<- | [<- | []]]]; reflexivity.
Qed.

(** What running [vlc --version] leads to. *)
Definition probe_outcome : result (option string) :=
  match subprocess_run m version_probe with
  | inl _ => Returned (Some "vlc")
  | inr TimeoutExpired | inr CalledProcessError => Returned None
  | inr (OtherError e) =>
      if isinstance e FileNotFoundError then Returned None else Raised e
  end.

Lemma find_vlc_path_value :
  find_vlc_path m
  = match first_existing m (common_paths m) with
    | Some q => (Returned (Some q), [])
    | None => (probe_outcome, [Run version_probe])
    end.
Proof.
  unfold find_vlc_path, probe_outcome, version_probe.
  destruct (first_existing m (common_paths m)); [reflexivity |].
  destruct (subprocess_run m _) as [u | [| | e]]; try reflexivity.
  destruct (isinstance e FileNotFoundError); reflexivity.
Qed.

(** Whether starting the program reports success. *)
Definition started (argv : list string) : bool :=
  match subprocess_Popen m argv with
  | Returned _ => true
  | Raised _ => false
  end.

End VLCFacts.

(** X15.  [find_vlc_path] looks at the three usual places in their
    order and returns the first that exists, without running anything.
    Only when none exists does it run [vlc --version], once: it returns
    ["vlc"] when the run completes, with whatever exit status, [None] when
    the run times out or the program is not found, and lets any other
    error of the run (a permission error, say) through. *)
Theorem find_vlc_path_first_installed (m : machine) :
  (forall q, first_installed m q ->
             find_vlc_path m = (Returned (Some q), []))
  /\ (not_installed m ->
      snd (find_vlc_path m) = [Run version_probe]
      /\ (forall u, subprocess_run m version_probe = inl u ->
                    fst (find_vlc_path m) = Returned (Some "vlc"))
      /\ (subprocess_run m version_probe = inr TimeoutExpired ->
          fst (find_vlc_path m) = Returned None)
      /\ (forall e, subprocess_run m version_probe = inr (OtherError e) ->
                    fst (find_vlc_path m)
                    = if isinstance e FileNotFoundError then Returned None
                      else Raised e))
  /\ (forall q events,
        find_vlc_path m = (Returned (Some q), events) ->
        (first_installed m q /\ events = [])
        \/ (q = "vlc" /\ not_installed m /\ events = [Run version_probe])).
Proof.
  rewrite (find_vlc_path_value m). split; [| split].
  - intros q (before & after & Hpaths & Hbefore & Hq).
    rewrite (first_existing_found m _ before after q Hpaths Hbefore Hq).
    reflexivity.
  - intros Hnone. rewrite (first_existing_none m _ Hnone).
    cbn [fst snd]. unfold probe_outcome.
    split; [reflexivity |]. split; [| split].
    + intros u ->. reflexivity.
    + intros ->. reflexivity.
    + intros e ->. reflexivity.
  - intros q events.
    pose proof (first_existing_cases m (common_paths m)) as Hcases.
    destruct (first_existing m (common_paths m)) as [q' |].
    + intros H. injection H as <- <-. left. split; [exact Hcases |].
      reflexivity.
    + intros H. injection H as Hprobe <-. right.
      split; [| split; [exact Hcases | reflexivity]].
      unfold probe_outcome in Hprobe.
      destruct (subprocess_run m version_probe) as [u | [| | e]];
        try discriminate.
      * injection Hprobe as <-. reflexivity.
      * destruct (isinstance e FileNotFoundError); discriminate.
Qed.

(** X16.  [launch_vlc] starts at most one process, and only the copy
    that [find_vlc_path] found: the first installed copy, without any
    probe, or ["vlc"] after a probe that completed.  It returns [True]
    exactly when it started the process and the start did not raise; a
    start that raises gives [False], not an exception.  The only
    exception it lets through is an error of the probe that is not one of
    the three caught. *)
Theorem launch_vlc_starts_what_was_found (m : machine) :
  (forall q, first_installed m q ->
             launch_vlc m = (Returned (started m [q]), [Popen [q]]))
  /\ (not_installed m ->
      launch_vlc m
      = match probe_outcome m with
        | Returned (Some path) =>
            (Returned (started m [path]), [Run version_probe; Popen [path]])
        | Returned None => (Returned false, [Run version_probe])
        | Raised e => (Raised e, [Run version_probe])
        end)
  /\ (fst (launch_vlc m) = Returned true ->
      exists path events,
        find_vlc_path m = (Returned (Some path), events)
        /\ subprocess_Popen m [path] = Returned tt
        /\ snd (launch_vlc m) = (events ++ [Popen [path]])%list)
  /\ (forall e, fst (launch_vlc m) = Raised e ->
                not_installed m
                /\ subprocess_run m version_probe = inr (OtherError e)
                /\ isinstance e FileNotFoundError = false
                /\ snd (launch_vlc m) = [Run version_probe]).
Proof.
  unfold launch_vlc, started. rewrite (find_vlc_path_value m).
  split; [| split; [| split]].
  - intros q (before & after & Hpaths & Hbefore & Hq).
    rewrite (first_existing_found m _ before after q Hpaths Hbefore Hq).
    rewrite (common_paths_not_empty m q)
      by (rewrite Hpaths; apply in_elt).
    destruct (subprocess_Popen m [q]) as [[] | e]; [reflexivity |].
    rewrite isinstance_Exception. reflexivity.
  - intros Hnone. rewrite (first_existing_none m _ Hnone).
    unfold probe_outcome.
    destruct (subprocess_run m version_probe) as [u | [| | e]];
      try reflexivity.
    + cbn [Text.is_empty].
      destruct (subprocess_Popen m ["vlc"]) as [[] | e]; [reflexivity |].
      rewrite isinstance_Exception. reflexivity.
    + destruct (isinstance e FileNotFoundError); reflexivity.
  - pose proof (first_existing_cases m (common_paths m)) as Hcases.
    destruct (first_existing m (common_paths m)) as [q |].
    + destruct Hcases as (before & after & Hpaths & _ & _).
      rewrite (common_paths_not_empty m q)
        by (rewrite Hpaths; apply in_elt).
      destruct (subprocess_Popen m [q]) as [[] | e] eqn:Hstart.
      * intros _. exists q, []. repeat split. exact Hstart.
      * rewrite isinstance_Exception. discriminate.
    + unfold probe_outcome.
      destruct (subprocess_run m version_probe) as [u | [| | e]];
        try discriminate.
      * cbn [Text.is_empty].
        destruct (subprocess_Popen m ["vlc"]) as [[] | e] eqn:Hstart.
        -- intros _. exists "vlc", [Run version_probe]. repeat split.
           exact Hstart.
        -- rewrite isinstance_Exception. discriminate.
      * destruct (isinstance e FileNotFoundError); discriminate.
  - intros e.
    pose proof (first_existing_cases m (common_paths m)) as Hcases.
    destruct (first_existing m (common_paths m)) as [q |].
    + destruct Hcases as (before & after & Hpaths & _ & _).
      rewrite (common_paths_not_empty m q)
        by (rewrite Hpaths; apply in_elt).
      destruct (subprocess_Popen m [q]) as [[] | e']; [discriminate |].
      rewrite isinstance_Exception. discriminate.
    + unfold probe_outcome.
      destruct (subprocess_run m version_probe) as [u | [| | e']] eqn:Hrun;
        try discriminate.
      * cbn [Text.is_empty].
        destruct (subprocess_Popen m ["vlc"]) as [[] | e'];
          [discriminate |].
        rewrite isinstance_Exception. discriminate.
      * destruct (isinstance e' FileNotFoundError) eqn:Hcls;
          [discriminate |].
        intros H. injection H as <-. repeat split; assumption.
Qed.

(** ** File names and their extensions *)

Import OsPath.

Lemma rfind_cases (c : ascii) (s : string) :
  (rfind c s = -1 /\ contains c s = false)
  \/ exists a b,
       s = a ++ String c b
       /\ contains c b = false
       /\ rfind c s = Z.of_nat (String.length a).
Proof.
  induction s as [| x s IH]; [left; split; reflexivity |].
  cbn [rfind contains].
  destruct IH as [[Hr Hc] | (a & b & Hs & Hb & Hr)].
  - rewrite Hr, Hc. cbn [Z.leb Z.compare].
    destruct (Ascii.eqb_spec x c) as [-> | Hne].
    + right. exists "", s. repeat split. exact Hc.
    + left. split; reflexivity.
  - right. exists (String x a), b. rewrite Hr.
    destruct (0 <=? Z.of_nat (String.length a)) eqn:Hpos; [| lia].
    split; [rewrite Hs; reflexivity |]. split; [exact Hb |].
    cbn [String.length]. lia.
Qed.

Lemma rfind_bounds (c : ascii) (s : string) : -1 <= rfind c s.
Proof.
  destruct (rfind_cases c s) as [[-> _] | (a & b & _ & _ & ->)]; lia.
Qed.

Lemma rfind_app (c : ascii) (a s : string) :
  0 <= rfind c s ->
  rfind c (a ++ s) = Z.of_nat (String.length a) + rfind c s.
Proof.
  intros Hs. induction a as [| x a IH]; [cbn; lia |].
  cbn [append rfind String.length]. rewrite IH.
  destruct (0 <=? Z.of_nat (String.length a) + rfind c s) eqn:Hpos; lia.
Qed.

Lemma rfind_present (c : ascii) (s : string) :
  contains c s = true -> 0 <= rfind c s.
Proof.
  intros H. destruct (rfind_cases c s) as [[_ Hc] | (a & b & _ & _ & ->)];
    [congruence | lia].
Qed.

Lemma take_app (a b : string) : take (String.length a) (a ++ b) = a.
Proof.
  induction a as [| x a IH]; [destruct b; reflexivity |].
  cbn [String.length append take]. rewrite IH. reflexivity.
Qed.

Lemma drop_app (a b : string) : drop (String.length a) (a ++ b) = b.
Proof.
  induction a as [| x a IH]; [destruct b; reflexivity |].
  cbn [String.length append drop]. exact IH.
Qed.

Lemma skip_leading_dots_cases (p : string) (extsep : ascii) (dotIndex : Z)
    (steps : nat) (filenameIndex : Z) :
  skip_leading_dots p extsep dotIndex steps filenameIndex = (p, "")
  \/ skip_leading_dots p extsep dotIndex steps filenameIndex
     = (take (Z.to_nat dotIndex) p, drop (Z.to_nat dotIndex) p).
Proof.
  revert filenameIndex.
  induction steps as [| steps IH]; intros filenameIndex;
    [left; reflexivity |].
  cbn [skip_leading_dots].
  destruct (String.get (Z.to_nat filenameIndex) p) as [c |];
    [| right; reflexivity].
  destruct (Ascii.eqb c extsep); [apply IH | right; reflexivity].
Qed.

(** An extension: a dot, then characters that are neither a dot nor a
    separator. *)
Definition is_extension (sep : ascii) (altsep : option ascii)
    (extsep : ascii) (ext : string) : Prop :=
  exists rest,
    ext = String extsep rest
    /\ contains extsep rest = false
    /\ contains sep rest = false
    /\ forall a, altsep = Some a -> contains a rest = false.

Lemma splitext_generic_spec (p : string) (sep : ascii)
    (altsep : option ascii) (extsep : ascii) :
  fst (splitext_generic p sep altsep extsep)
  ++ snd (splitext_generic p sep altsep extsep) = p
  /\ (snd (splitext_generic p sep altsep extsep) = ""
      \/ is_extension sep altsep extsep
           (snd (splitext_generic p sep altsep extsep))).
Proof.
  unfold splitext_generic.
  set (sepIndex := match altsep with
                   | Some a => Z.max (rfind sep p) (rfind a p)
                   | None => rfind sep p
                   end).
  destruct (sepIndex <? rfind extsep p) eqn:Hlt;
    [| split; [apply append_empty_r | left; reflexivity]].
  apply Z.ltb_lt in Hlt.
  destruct (skip_leading_dots_cases p extsep (rfind extsep p)
              (Z.to_nat (rfind extsep p - (sepIndex + 1))) (sepIndex + 1))
    as [-> | ->];
    [split; [apply append_empty_r | left; reflexivity] |].
  cbn [fst snd].
  destruct (rfind_cases extsep p) as [[Hr _] | (a & b & Hp & Hb & Hr)].
  { exfalso. assert (-1 <= sepIndex); [| lia].
    unfold sepIndex. destruct altsep; pose proof (rfind_bounds sep p); lia. }
  assert (Hsep_lt : rfind sep p < rfind extsep p).
  { unfold sepIndex in Hlt. destruct altsep; lia. }
  assert (Halt_lt : forall c, altsep = Some c ->
                              rfind c p < rfind extsep p).
  { intros c Hc. unfold sepIndex in Hlt. rewrite Hc in Hlt. lia. }
  clear Hlt. clearbody sepIndex. rewrite Hr, Nat2Z.id. clear Hr. subst p.
  rewrite take_app, drop_app. split; [reflexivity |].
  right. exists b. split; [reflexivity |]. split; [exact Hb |].
  assert (Hnone : rfind extsep b = -1).
  { destruct (rfind_cases extsep b) as [[H _] | (a' & b' & -> & _ & _)];
      [exact H |].
    rewrite contains_app in Hb. cbn [contains] in Hb.
    rewrite Ascii.eqb_refl, orb_true_r in Hb. discriminate. }
  assert (Hdot : rfind extsep (String extsep b) = 0).
  { cbn [rfind]. rewrite Hnone, Ascii.eqb_refl. reflexivity. }
  assert (Hafter : forall c,
            rfind c (a ++ String extsep b)
            < rfind extsep (a ++ String extsep b) ->
            contains c b = false).
  { intros c Hless. destruct (contains c b) eqn:Hcb; [| reflexivity].
    exfalso. apply rfind_present in Hcb.
    assert (Hcs : rfind c (String extsep b) = rfind c b + 1).
    { cbn [rfind]. destruct (0 <=? rfind c b) eqn:Hpos; [reflexivity | lia]. }
    rewrite (rfind_app c), (rfind_app extsep) in Hless by lia. lia. }
  split.
  - apply Hafter, Hsep_lt.
  - intros c Hc. apply Hafter, Halt_lt, Hc.
Qed.

Lemma splitext_parts (windows : bool) (p : string) :
  fst (splitext windows p) ++ snd (splitext windows p) = p
  /\ (snd (splitext windows p) = ""
      \/ exists rest,
           snd (splitext windows p) = String "." rest
           /\ contains "." rest = false
           /\ contains "/" rest = false
           /\ (windows = true -> contains backslash rest = false)).
Proof.
  unfold splitext. destruct windows.
  - destruct (splitext_generic_spec p backslash (Some "/"%char) "."%char)
      as [Hjoin Hext].
    split; [exact Hjoin |].
    destruct Hext as [Hext | (rest & Hext & Hdot & Hsep & Halt)];
      [left; exact Hext | right].
    exists rest. split; [exact Hext |]. split; [exact Hdot |].
    split; [apply Halt; reflexivity | intros _; exact Hsep].
  - destruct (splitext_generic_spec p "/"%char None "."%char)
      as [Hjoin Hext].
    split; [exact Hjoin |].
    destruct Hext as [Hext | (rest & Hext & Hdot & Hsep & Halt)];
      [left; exact Hext | right].
    exists rest. split; [exact Hext |]. split; [exact Hdot |].
    split; [exact Hsep | discriminate].
Qed.

Lemma splitext_generic_no_dot (p : string) (sep : ascii)
    (altsep : option ascii) (extsep : ascii) :
  contains extsep p = false ->
  splitext_generic p sep altsep extsep = (p, "").
Proof.
  intros Hnone. unfold splitext_generic.
  destruct (rfind_cases extsep p) as [[-> _] | (a & b & -> & _ & _)].
  - assert (Hlow : -1 <= match altsep with
                         | Some a => Z.max (rfind sep p) (rfind a p)
                         | None => rfind sep p
                         end).
    { pose proof (rfind_bounds sep p). destruct altsep; lia. }
    destruct (_ <? -1) eqn:Hlt; [lia | reflexivity].
  - rewrite contains_app in Hnone. cbn [contains] in Hnone.
    rewrite Ascii.eqb_refl, orb_true_r in Hnone. discriminate.
Qed.

(** [os.path.splitext] cuts a path in two without losing or adding
    anything.  The second part is empty, or it starts with a dot and
    holds no other dot and no separator ([/], and on Windows also the
    backslash); a path without a dot has no extension, and neither has a
    name that starts with its only dot. *)
Lemma splitext_decomposition (windows : bool) (p : string) :
  let root := fst (splitext windows p) in
  let ext := snd (splitext windows p) in
  root ++ ext = p
  /\ (ext = ""
      \/ exists rest,
           ext = String "." rest
           /\ contains "." rest = false
           /\ contains "/" rest = false
           /\ (windows = true -> contains backslash rest = false))
  /\ (contains "." p = false -> ext = "")
  /\ (forall name, contains "." name = false ->
                   splitext windows (String "." name)
                   = (String "." name, "")).
Proof.
  cbv zeta. destruct (splitext_parts windows p) as [Hjoin Hext].
  split; [exact Hjoin |]. split; [exact Hext |]. split.
  - intros Hnone. unfold splitext.
    destruct windows; rewrite splitext_generic_no_dot by exact Hnone;
      reflexivity.
  - intros name Hname. unfold splitext, splitext_generic.
    assert (Hdot : rfind "." (String "." name) = 0).
    { cbn [rfind].
      destruct (rfind_cases "." name) as [[-> _] | (a & b & -> & _ & _)];
        [reflexivity |].
      rewrite contains_app in Hname. cbn [contains] in Hname.
      rewrite Ascii.eqb_refl, orb_true_r in Hname. discriminate. }
    rewrite Hdot.
    destruct windows.
    + pose proof (rfind_bounds backslash (String "." name)).
      pose proof (rfind_bounds "/" (String "." name)).
      destruct (_ <? 0) eqn:Hlt; [| reflexivity].
      apply Z.ltb_lt in Hlt.
      replace (Z.max (rfind backslash (String "." name))
                 (rfind "/" (String "." name))) with (-1) by lia.
      reflexivity.
    + pose proof (rfind_bounds "/" (String "." name)).
      destruct (_ <? 0) eqn:Hlt; [| reflexivity].
      apply Z.ltb_lt in Hlt.
      replace (rfind "/" (String "." name)) with (-1) by lia.
      reflexivity.
Qed.

(** ** What the song list shows *)

Import ServiceManagerGUI.

(** The note added to the name of a playlist. *)
Definition playlist_note (windows : bool) (path : string) : string :=
  if String.eqb (lower (snd (splitext windows path))) ".xspf"
  then " 🎵" else "".

Lemma format_display_filename_str (windows : bool) (c : ascii)
    (f path : string) :
  format_display_filename windows (PyStr (String c f)) (PyStr path)
  = Returned (fst (splitext windows (strip (String c f)))
              ++ playlist_note windows path).
Proof.
  unfold format_display_filename, playlist_note. cbn [is_empty bind].
  destruct (String.eqb _ ".xspf"); [reflexivity |].
  rewrite append_empty_r. reflexivity.
Qed.

(** ** A name and its extension, in words *)

Lemma length_append (a b : string) :
  String.length (a ++ b) = (String.length a + String.length b)%nat.
Proof.
  induction a as [| x a IH]; [reflexivity |].
  cbn [append String.length]. rewrite IH. reflexivity.
Qed.

Lemma get_split (n : nat) (s : string) (c : ascii) :
  String.get n s = Some c ->
  exists pre post, s = pre ++ String c post /\ String.length pre = n.
Proof.
  revert n. induction s as [| x s IH]; intros n; [discriminate |].
  destruct n as [| n]; cbn [String.get].
  - intros [= ->]. exists "", s. split; reflexivity.
  - intros H. destruct (IH n H) as (pre & post & -> & Hlen).
    exists (String x pre), post. cbn [append String.length].
    split; [reflexivity | lia].
Qed.

Lemma get_within (n : nat) (s : string) :
  (n < String.length s)%nat -> String.get n s <> None.
Proof.
  revert n. induction s as [| x s IH]; intros n; cbn [String.length];
    [lia |].
  destruct n as [| n]; cbn [String.get]; [discriminate |].
  intros H. apply IH. lia.
Qed.

Lemma rfind_absent (c : ascii) (s : string) :
  contains c s = false -> rfind c s = -1.
Proof.
  intros H. destruct (rfind_cases c s) as [[Hr _] | (a & b & -> & _ & _)];
    [exact Hr |].
  rewrite contains_app in H. cbn [contains] in H.
  rewrite Ascii.eqb_refl, orb_true_r in H. discriminate.
Qed.

Lemma rfind_last (c : ascii) (a b : string) :
  contains c b = false ->
  rfind c (a ++ String c b) = Z.of_nat (String.length a).
Proof.
  intros Hb.
  assert (H0 : rfind c (String c b) = 0).
  { cbn [rfind]. rewrite (rfind_absent c b Hb), Ascii.eqb_refl. reflexivity. }
  rewrite rfind_app by lia. lia.
Qed.

Lemma rfind_app_absent (c : ascii) (a b : string) :
  contains c b = false -> rfind c (a ++ b) = rfind c a.
Proof.
  intros Hb. induction a as [| x a IH]; [apply rfind_absent, Hb |].
  cbn [append rfind]. rewrite IH. reflexivity.
Qed.

Lemma rfind_below_length (c : ascii) (s : string) :
  rfind c s < Z.of_nat (String.length s).
Proof.
  destruct (rfind_cases c s) as [[-> _] | (a & b & -> & _ & ->)]; [lia |].
  rewrite length_append. cbn [String.length]. lia.
Qed.

(** The loop stops at a character that is not a dot. *)
Lemma skip_leading_dots_found (p : string) (extsep : ascii) (dotIndex : Z)
    (steps : nat) (filenameIndex i : Z) (c : ascii) :
  0 <= filenameIndex <= i -> i < filenameIndex + Z.of_nat steps ->
  String.get (Z.to_nat i) p = Some c -> c <> extsep ->
  skip_leading_dots p extsep dotIndex steps filenameIndex
  = (take (Z.to_nat dotIndex) p, drop (Z.to_nat dotIndex) p).
Proof.
  revert filenameIndex.
  induction steps as [| steps IH]; intros filenameIndex Hlow Hhigh Hget Hc;
    [lia |].
  cbn [skip_leading_dots].
  destruct (String.get (Z.to_nat filenameIndex) p) as [c' |] eqn:Hhere;
    [| reflexivity].
  destruct (Ascii.eqb_spec c' extsep) as [-> | _]; [| reflexivity].
  apply IH; try assumption; [| lia].
  assert (filenameIndex <> i); [| lia].
  intros ->. rewrite Hget in Hhere. congruence.
Qed.

(** And only there. *)
Lemma skip_leading_dots_stopped (p : string) (extsep : ascii) (dotIndex : Z)
    (steps : nat) (filenameIndex : Z) :
  0 <= filenameIndex ->
  filenameIndex + Z.of_nat steps <= Z.of_nat (String.length p) ->
  skip_leading_dots p extsep dotIndex steps filenameIndex = (p, "")
  \/ exists i c,
       filenameIndex <= i < filenameIndex + Z.of_nat steps
       /\ String.get (Z.to_nat i) p = Some c /\ c <> extsep.
Proof.
  revert filenameIndex.
  induction steps as [| steps IH]; intros filenameIndex Hlow Hhigh;
    [left; reflexivity |].
  cbn [skip_leading_dots].
  destruct (String.get (Z.to_nat filenameIndex) p) as [c |] eqn:Hhere.
  - destruct (Ascii.eqb_spec c extsep) as [-> | Hne].
    + destruct (IH (filenameIndex + 1)) as [H | (i & c & Hi & Hget & Hc)];
        [lia | lia | left; exact H |].
      right. exists i, c. split; [lia |]. split; assumption.
    + right. exists filenameIndex, c. split; [lia |]. split; assumption.
  - exfalso. apply (get_within (Z.to_nat filenameIndex) p); [lia | exact Hhere].
Qed.

(** No separator in a text: [sep], nor [altsep] if there is one. *)
Definition no_separator (sep : ascii) (altsep : option ascii) (s : string)
  : Prop :=
  contains sep s = false
  /\ forall a, altsep = Some a -> contains a s = false.

(** [p] is [root], a dot and [rest], and the dot starts an extension:
    [rest] holds no dot and no separator, and some character of the last
    component of [root] is not a dot. *)
Definition extension_at (sep : ascii) (altsep : option ascii)
    (extsep : ascii) (p root rest : string) : Prop :=
  p = root ++ String extsep rest
  /\ contains extsep rest = false
  /\ no_separator sep altsep rest
  /\ exists before c after,
       root = before ++ String c after
       /\ c <> extsep
       /\ no_separator sep altsep (String c after).

Lemma separator_index (sep : ascii) (altsep : option ascii) (p : string) :
  let sepIndex := match altsep with
                  | Some a => Z.max (rfind sep p) (rfind a p)
                  | None => rfind sep p
                  end in
  -1 <= sepIndex
  /\ forall before tail,
       p = before ++ tail ->
       (no_separator sep altsep tail <->
        sepIndex < Z.of_nat (String.length before)).
Proof.
  cbv zeta. split.
  { pose proof (rfind_bounds sep p). destruct altsep; lia. }
  intros before tail ->.
  assert (Hone : forall c,
            contains c tail = false
            <-> rfind c (before ++ tail) < Z.of_nat (String.length before)).
  { intros c. destruct (contains c tail) eqn:Hc.
    - apply rfind_present in Hc. rewrite rfind_app by exact Hc.
      split; [discriminate | lia].
    - rewrite rfind_app_absent by exact Hc.
      pose proof (rfind_below_length c before). tauto. }
  unfold no_separator. rewrite Hone. destruct altsep as [a |].
  - split.
    + intros [Hsep Halt]. specialize (Halt a eq_refl).
      apply Hone in Halt. lia.
    + intros Hlt. split; [lia |]. intros a' [= <-]. apply Hone. lia.
  - split; [tauto |]. intros Hlt. split; [exact Hlt | discriminate].
Qed.

(** [genericpath._splitext], in words: it cuts at the dot that starts an
    extension, and nowhere when there is none. *)
Lemma splitext_generic_cases (p : string) (sep : ascii)
    (altsep : option ascii) (extsep : ascii) :
  sep <> extsep -> altsep <> Some extsep ->
  (forall root rest,
     extension_at sep altsep extsep p root rest ->
     splitext_generic p sep altsep extsep = (root, String extsep rest))
  /\ ((forall root rest, ~ extension_at sep altsep extsep p root rest) ->
      splitext_generic p sep altsep extsep = (p, "")).
Proof.
  intros Hsep_dot Halt_dot. unfold splitext_generic.
  destruct (separator_index sep altsep p) as [Hlow Hsep].
  set (sepIndex := match altsep with
                   | Some a => Z.max (rfind sep p) (rfind a p)
                   | None => rfind sep p
                   end) in *.
  clearbody sepIndex. split.
  - intros root rest (Hp & Hdot & Hrest & before & c & after & Hroot & Hc
                      & Hlast).
    assert (HdotIndex : rfind extsep p = Z.of_nat (String.length root)).
    { rewrite Hp. apply rfind_last, Hdot. }
    assert (Hcut : p = before ++ (String c after ++ String extsep rest)).
    { rewrite Hp, Hroot, append_assoc. reflexivity. }
    assert (Htail : no_separator sep altsep
                      (String c after ++ String extsep rest)).
    { destruct Hlast as [Hl1 Hl2], Hrest as [Hr1 Hr2].
      assert (Hne : forall s, contains s (String c after) = false ->
                              contains s rest = false ->
                              s <> extsep ->
                              contains s (String c after
                                          ++ String extsep rest) = false).
      { intros s H1 H2 Hs. rewrite contains_app, H1. cbn [contains orb].
        rewrite H2, orb_false_r. apply Ascii.eqb_neq. congruence. }
      split; [apply Hne; assumption |].
      intros a Ha. apply Hne; [apply Hl2, Ha | apply Hr2, Ha | congruence]. }
    apply (Hsep before _ Hcut) in Htail.
    assert (Hlen : String.length root
                   = (String.length before + S (String.length after))%nat).
    { rewrite Hroot, length_append. reflexivity. }
    rewrite HdotIndex.
    destruct (sepIndex <? Z.of_nat (String.length root)) eqn:Hlt;
      [| apply Z.ltb_ge in Hlt; lia].
    rewrite (skip_leading_dots_found p extsep _ _ _
               (Z.of_nat (String.length before)) c); try lia.
    + rewrite Nat2Z.id, Hp, take_app, drop_app. reflexivity.
    + rewrite Nat2Z.id, Hcut.
      rewrite <- (append_correct2 before (String c after ++ _) 0).
      reflexivity.
    + exact Hc.
  - intros Hnone.
    destruct (sepIndex <? rfind extsep p) eqn:Hlt; [| reflexivity].
    apply Z.ltb_lt in Hlt.
    destruct (rfind_cases extsep p) as [[Hr _] | (root & rest & Hp & Hdot & Hr)];
      [lia |].
    destruct (skip_leading_dots_stopped p extsep (rfind extsep p)
                (Z.to_nat (rfind extsep p - (sepIndex + 1))) (sepIndex + 1))
      as [H | (i & c & Hi & Hget & Hc)]; [lia | | exact H |].
    { rewrite Hr, Hp, length_append. cbn [String.length]. lia. }
    exfalso.
    assert (Hin_root : String.get (Z.to_nat i) root = Some c).
    { rewrite (append_correct1 root (String extsep rest)) by lia.
      rewrite <- Hp. exact Hget. }
    destruct (get_split _ _ _ Hin_root) as (before & after & Hroot & Hlen).
    assert (Hcut : p = before ++ (String c after ++ String extsep rest)).
    { rewrite Hp, Hroot, append_assoc. reflexivity. }
    assert (Htail : no_separator sep altsep
                      (String c after ++ String extsep rest)).
    { apply (Hsep before _ Hcut). lia. }
    destruct Htail as [Ht1 Ht2].
    apply (Hnone root rest). split; [exact Hp |]. split; [exact Hdot |].
    split.
    + split.
      * rewrite contains_app in Ht1. apply orb_false_iff in Ht1.
        destruct Ht1 as [_ Ht1]. cbn [contains] in Ht1.
        apply orb_false_iff in Ht1. tauto.
      * intros a Ha. specialize (Ht2 a Ha).
        rewrite contains_app in Ht2. apply orb_false_iff in Ht2.
        destruct Ht2 as [_ Ht2]. cbn [contains] in Ht2.
        apply orb_false_iff in Ht2. tauto.
    + exists before, c, after. split; [exact Hroot |]. split; [exact Hc |].
      split.
      * rewrite contains_app in Ht1. apply orb_false_iff in Ht1. tauto.
      * intros a Ha. specialize (Ht2 a Ha).
        rewrite contains_app in Ht2. apply orb_false_iff in Ht2. tauto.
Qed.

(** The same for [os.path.splitext]: the separators are the slash and,
    on Windows, the backslash. *)
Definition extension_of (windows : bool) (p root rest : string) : Prop :=
  if windows
  then extension_at backslash (Some "/"%char) "."%char p root rest
  else extension_at "/"%char None "."%char p root rest.

Lemma splitext_cases (windows : bool) (p : string) :
  (forall root rest,
     extension_of windows p root rest ->
     splitext windows p = (root, String "." rest))
  /\ ((forall root rest, ~ extension_of windows p root rest) ->
      splitext windows p = (p, "")).
Proof.
  unfold extension_of, splitext. destruct windows;
    apply splitext_generic_cases; discriminate.
Qed.

(** X17.  The text shown for a file name.  A name that is the empty
    string or not a string shows as a dash.  Otherwise the name is
    trimmed and shown without its extension: when the trimmed name is a
    root, a dot and a rest without dot or separator, and some character
    of the last component of the root is not a dot, the root is shown;
    when it cannot be cut so, all of it is shown, so that a name of white
    space only shows as the empty text, not as the dash.  The note is
    added exactly when the path has an extension, in the same sense, that
    is [xspf] in any case.  A path that is not a string (a [null] in the
    document) raises [TypeError]. *)
Theorem format_display_filename_outcome (windows : bool)
    (filename path : pyval) :
  ((forall f, filename = PyStr f -> f = "") ->
   format_display_filename windows filename path = Returned "—")
  /\ (forall f p,
        filename = PyStr f -> f <> "" -> path = PyStr p ->
        exists shown,
          format_display_filename windows filename path
          = Returned (shown ++ playlist_note windows p)
          /\ (forall root rest,
                extension_of windows (strip f) root rest -> shown = root)
          /\ ((forall root rest,
                 ~ extension_of windows (strip f) root rest) ->
              shown = strip f)
          /\ (strip f = "" -> shown = "")
          /\ (forall root rest,
                extension_of windows p root rest ->
                playlist_note windows p
                = if String.eqb (lower rest) "xspf" then " 🎵" else "")
          /\ ((forall root rest, ~ extension_of windows p root rest) ->
              playlist_note windows p = ""))
  /\ (forall f,
        filename = PyStr f -> f <> "" -> (forall p, path <> PyStr p) ->
        exists msg,
          format_display_filename windows filename path
          = Raised (mk_exn TypeError msg)).
Proof.
  split; [| split].
  - intros Hempty. destruct filename as [| b | n | x | f | l | d];
      try reflexivity.
    rewrite (Hempty f eq_refl). reflexivity.
  - intros f p -> Hf ->. destruct f as [| c f]; [contradiction |].
    rewrite format_display_filename_str.
    destruct (splitext_cases windows (strip (String c f)))
      as [Hcut Hwhole].
    destruct (splitext_cases windows p) as [Hpath_cut Hpath_whole].
    exists (fst (splitext windows (strip (String c f)))).
    split; [reflexivity |]. split; [| split; [| split; [| split]]].
    + intros root rest Hext. rewrite (Hcut root rest Hext). reflexivity.
    + intros Hnone. rewrite (Hwhole Hnone). reflexivity.
    + intros Hblank. rewrite Hblank. destruct windows; reflexivity.
    + intros root rest Hext. unfold playlist_note.
      rewrite (Hpath_cut root rest Hext). reflexivity.
    + intros Hnone. unfold playlist_note. rewrite (Hpath_whole Hnone).
      reflexivity.
  - intros f -> Hf Hpath. destruct f as [| c f]; [contradiction |].
    unfold format_display_filename. cbn [is_empty].
    destruct path as [| b | n | x | p | l | d];
      try (eexists; reflexivity).
    exfalso. exact (Hpath p eq_refl).
Qed.

(** A song and a playlist, a hidden file, and a name of dots. *)
Example extension_dropped :
  format_display_filename false (PyStr " Amazing Grace.v2.mp4 ")
    (PyStr "/media/9am/Amazing Grace.XSPF")
  = Returned "Amazing Grace.v2 🎵".
Proof. reflexivity. Qed.

Example extension_of_song :
  extension_of false "Amazing Grace.v2.mp4" "Amazing Grace.v2" "mp4".
Proof.
  split; [reflexivity |]. split; [reflexivity |].
  split; [split; [reflexivity | discriminate] |].
  exists "", "A"%char, "mazing Grace.v2".
  split; [reflexivity |]. split; [discriminate |].
  split; [reflexivity | discriminate].
Qed.

Example leading_dots_kept :
  format_display_filename true (PyStr "...mp4") (PyStr "C:\media\.xspf")
  = Returned "...mp4".
Proof. reflexivity. Qed.

Lemma dict_set_middle {V} (a b : dict V) (k : string) (v w : V) :
  ~ In k (dict_keys a) ->
  dict_set (a ++ (k, v) :: b)%list k w = (a ++ (k, w) :: b)%list.
Proof.
  induction a as [| [k0 v0] a IH]; simpl; intros H.
  - rewrite String.eqb_refl. reflexivity.
  - destruct (String.eqb_spec k0 k) as [-> | Hne]; [tauto |].
    rewrite IH; [reflexivity | tauto].
Qed.

(** Setting each key of a dictionary in turn sets them all, in place. *)
Lemma fold_set_own_keys {V} (g : string -> V) (todo done : dict V) :
  NoDup (dict_keys (done ++ todo)%list) ->
  fold_left (fun acc k => dict_set acc k (g k)) (dict_keys todo)
    (done ++ todo)%list
  = (done ++ map (fun kv => (fst kv, g (fst kv))) todo)%list.
Proof.
  revert done. induction todo as [| [k v] todo IH]; intros done Hwf;
    [reflexivity |].
  cbn [dict_keys map fold_left fst].
  assert (Hfresh : ~ In k (dict_keys done)).
  { unfold dict_keys in *. rewrite map_app in Hwf.
    apply NoDup_remove_2 in Hwf. intros Hin. apply Hwf.
    apply in_or_app. left. exact Hin. }
  rewrite (dict_set_middle done todo k v (g k) Hfresh).
  change (done ++ (k, g k) :: todo)%list
    with (done ++ [(k, g k)] ++ todo)%list.
  rewrite app_assoc. fold (dict_keys todo). rewrite IH.
  - rewrite <- app_assoc. reflexivity.
  - unfold dict_keys in *. rewrite <- app_assoc.
    rewrite !map_app in *. exact Hwf.
Qed.

Section DisplayFacts.
Variable windows : bool.
Variable service_data : dict pyval.
Variable record : dict pyval.

(** What one variable is given to show. *)
Definition shown (key : string) : result string :=
  format_display_filename windows
    (dict_get_default service_data key (PyStr ""))
    (dict_get_default record (key ++ "path") (PyStr "")).

Lemma show_song_value (song_vars : dict string) (key : string) :
  show_song windows service_data (PyDict record) song_vars key
  = (display_value <- shown key ;;
     Returned (dict_set song_vars key display_value)).
Proof. reflexivity. Qed.

Lemma show_songs_all (g : string -> string) (keys : list string)
    (song_vars : dict string) :
  (forall k, In k keys -> shown k = Returned (g k)) ->
  show_songs windows service_data (PyDict record) keys song_vars
  = (Returned tt,
     fold_left (fun acc k => dict_set acc k (g k)) keys song_vars).
Proof.
  revert song_vars. induction keys as [| k keys IH]; intros song_vars Hall;
    [reflexivity |].
  cbn [show_songs fold_left]. rewrite show_song_value.
  rewrite (Hall k (or_introl eq_refl)). cbn [bind].
  apply IH. intros k' Hk'. apply Hall. right. exact Hk'.
Qed.

Lemma show_songs_outcome (keys : list string) (song_vars : dict string) :
  (fst (show_songs windows service_data (PyDict record) keys song_vars)
   = Returned tt
   <-> forall k, In k keys -> exists text, shown k = Returned text)
  /\ (forall e,
        fst (show_songs windows service_data (PyDict record) keys song_vars)
        = Raised e ->
        exists k, In k keys /\ shown k = Raised e).
Proof.
  revert song_vars. induction keys as [| k keys IH]; intros song_vars.
  - cbn [show_songs fst]. split.
    + split; [intros _ k [] | reflexivity].
    + discriminate.
  - cbn [show_songs]. rewrite show_song_value.
    destruct (shown k) as [text | e] eqn:Hk; cbn [bind].
    + destruct (IH (dict_set song_vars k text)) as (Hret & Hraise).
      split.
      * rewrite Hret. split.
        -- intros H k' [<- | Hk']; [eauto | apply H, Hk'].
        -- intros H k' Hk'. apply H. right. exact Hk'.
      * intros e He. destruct (Hraise e He) as [k' [Hin Hk']].
        exists k'. split; [right; exact Hin | exact Hk'].
    + cbn [fst]. split.
      * split; [discriminate |]. intros H.
        destruct (H k (or_introl eq_refl)) as [text Htext]. congruence.
      * intros e' He. injection He as <-. exists k.
        split; [left; reflexivity | exact Hk].
Qed.

End DisplayFacts.

Lemma update_song_display_value (windows : bool)
    (dm : ServiceDataManager.t) (d record : dict pyval)
    (song_vars : dict string) (date_str : string) :
  data dm = PyDict d ->
  dict_get_default d date_str (PyDict []) = PyDict record ->
  update_song_display windows (Some dm) song_vars date_str
  = show_songs windows
      (map (fun key => (key, dict_get_default record key (PyStr "none")))
         song_keys)
      (PyDict record) (dict_keys song_vars) song_vars.
Proof.
  intros Hdata Hrecord. unfold update_song_display, get_service_data.
  rewrite Hdata. cbn [as_dict bind]. rewrite Hrecord. reflexivity.
Qed.

Lemma shown_placeholder (windows : bool) (key : string) :
  In key song_keys ->
  shown windows all_none [] key = Returned "none".
Proof.
  intros Hin. unfold shown, dict_get_default, all_none.
  rewrite dict_get_map_keys.
  destruct (in_dec string_dec key song_keys); [| contradiction].
  destruct windows; reflexivity.
Qed.

(** X18.  For a date that the document does not hold, every variable of
    the song list is set to ["none"], the placeholder, and not to the
    dash; the variables keep their order and none is added. *)
Theorem update_song_display_unknown_date (windows : bool)
    (dm : ServiceDataManager.t) (d : dict pyval) (song_vars : dict string)
    (date_str : string) :
  data dm = PyDict d ->
  ~ In date_str (dict_keys d) ->
  dict_wf song_vars ->
  Forall (fun key => In key song_keys) (dict_keys song_vars) ->
  update_song_display windows (Some dm) song_vars date_str
  = (Returned tt, map (fun var => (fst var, "none")) song_vars).
Proof.
  intros Hdata Hnew Hwf Hkeys.
  assert (Hrecord : dict_get_default d date_str (PyDict []) = PyDict []).
  { unfold dict_get_default. apply dict_get_None in Hnew. rewrite Hnew.
    reflexivity. }
  rewrite (update_song_display_value windows dm d [] song_vars date_str
             Hdata Hrecord).
  change (map (fun key => (key, dict_get_default [] key (PyStr "none")))
            song_keys) with all_none.
  rewrite (show_songs_all windows all_none [] (fun _ => "none")).
  - apply f_equal.
    exact (fold_set_own_keys (fun _ => "none") song_vars [] Hwf).
  - intros k Hk. apply shown_placeholder.
    rewrite Forall_forall in Hkeys. apply Hkeys, Hk.
Qed.

(** The six variables of the window, as they are at its creation. *)
Definition fresh_song_vars : dict string :=
  map (fun key => (key, "")) song_var_keys.

Lemma update_song_display_unknown_date_witness :
  update_song_display true (Some scenario) fresh_song_vars "25/12/2030"
  = (Returned tt, map (fun var => (fst var, "none")) fresh_song_vars).
Proof.
  apply (update_song_display_unknown_date true scenario scenario_doc
           fresh_song_vars "25/12/2030").
  - reflexivity.
  - cbn. intuition discriminate.
  - repeat (constructor; [cbn; intuition discriminate |]). constructor.
  - repeat constructor; cbn; tauto.
Defined.

(** The value that the variable [key] is given for a record. *)
Definition shown_value (record : dict pyval) (key : string) : pyval :=
  dict_get_default
    (map (fun k => (k, dict_get_default record k (PyStr "none"))) song_keys)
    key (PyStr "").

(** A string that is not empty. *)
Definition is_name (v : pyval) : bool :=
  match v with
  | PyStr (String _ _) => true
  | _ => false
  end.

Definition is_str (v : pyval) : bool :=
  match v with
  | PyStr _ => true
  | _ => false
  end.

Lemma format_display_filename_returns (windows : bool)
    (filename path : pyval) :
  (is_name filename = true -> is_str path = false ->
   exists msg,
     format_display_filename windows filename path
     = Raised (mk_exn TypeError msg))
  /\ (is_name filename = false \/ is_str path = true ->
      exists text,
        format_display_filename windows filename path = Returned text).
Proof.
  unfold format_display_filename.
  destruct filename as [| b | n | x | [| c f] | l | d]; cbn [is_name];
    try (split; [discriminate | intros _; eexists; reflexivity]).
  cbn [is_empty].
  destruct path as [| b | n | x | p | l | d]; cbn [is_str bind];
    try (split; [intros _ _; eexists; reflexivity
                | intros [H | H]; discriminate]).
  split; [discriminate |]. intros _.
  destruct (String.eqb _ ".xspf"); eexists; reflexivity.
Qed.

(** X19.  Showing the songs of a date whose record is a mapping returns
    exactly when every variable whose value is a name (a string that is
    not empty) has a string, or nothing, stored as its path.  A path that
    is [null] or a number makes it raise [TypeError], the only exception
    it raises. *)
Theorem update_song_display_needs_text_paths (windows : bool)
    (dm : ServiceDataManager.t) (d record : dict pyval)
    (song_vars : dict string) (date_str : string) :
  data dm = PyDict d ->
  dict_get_default d date_str (PyDict []) = PyDict record ->
  let out := update_song_display windows (Some dm) song_vars date_str in
  (fst out = Returned tt <->
   forall key, In key (dict_keys song_vars) ->
               is_name (shown_value record key) = true ->
               is_str (dict_get_default record (key ++ "path") (PyStr ""))
               = true)
  /\ (forall e, fst out = Raised e -> exn_cls e = TypeError).
Proof.
  intros Hdata Hrecord. cbv zeta.
  rewrite (update_song_display_value windows dm d record song_vars date_str
             Hdata Hrecord).
  destruct (show_songs_outcome windows
              (map (fun key =>
                      (key, dict_get_default record key (PyStr "none")))
                 song_keys)
              record (dict_keys song_vars) song_vars) as [Hret Hraise].
  split.
  - rewrite Hret. split.
    + intros H key Hkey Hname.
      destruct (H key Hkey) as [text Htext].
      destruct (is_str (dict_get_default record (key ++ "path") (PyStr "")))
        eqn:Hpath; [reflexivity |].
      destruct (proj1 (format_display_filename_returns windows
                         (shown_value record key)
                         (dict_get_default record (key ++ "path")
                            (PyStr ""))) Hname Hpath) as [msg Hmsg].
      unfold shown in Htext. unfold shown_value in Hmsg. congruence.
    + intros H key Hkey. unfold shown.
      apply format_display_filename_returns.
      destruct (is_name (dict_get_default
                           (map (fun k =>
                                   (k, dict_get_default record k
                                         (PyStr "none"))) song_keys)
                           key (PyStr ""))) eqn:Hname;
        [right | left; reflexivity].
      apply (H key Hkey). exact Hname.
  - intros e He. destruct (Hraise e He) as [key [_ Hkey]].
    unfold shown in Hkey.
    pose proof (format_display_filename_returns windows
                  (dict_get_default
                     (map (fun k =>
                             (k, dict_get_default record k (PyStr "none")))
                        song_keys) key (PyStr ""))
                  (dict_get_default record (key ++ "path") (PyStr "")))
      as [Hbad Hgood].
    destruct (is_name (dict_get_default
                         (map (fun k =>
                                 (k, dict_get_default record k
                                       (PyStr "none"))) song_keys)
                         key (PyStr ""))) eqn:Hname.
    + destruct (is_str (dict_get_default record (key ++ "path")
                          (PyStr ""))) eqn:Hpath.
      * destruct (Hgood (or_intror eq_refl)) as [text Htext]. congruence.
      * destruct (Hbad eq_refl eq_refl) as [msg Hmsg].
        rewrite Hmsg in Hkey. injection Hkey as <-. reflexivity.
    + destruct (Hgood (or_introl eq_refl)) as [text Htext]. congruence.
Qed.

Definition null_path_doc : dict pyval :=
  [("01/01/2099",
    PyDict [("song1", PyStr "Amazing Grace.mp3"); ("song1path", PyNone)])].

Lemma update_song_display_needs_text_paths_witness :
  let out :=
    update_song_display true
      (Some {| json_path := "selections.json";
               data := PyDict null_path_doc |})
      fresh_song_vars "01/01/2099" in
  (fst out = Returned tt <->
   forall key, In key (dict_keys fresh_song_vars) ->
               is_name
                 (shown_value
                    [("song1", PyStr "Amazing Grace.mp3");
                     ("song1path", PyNone)] key) = true ->
               is_str
                 (dict_get_default
                    [("song1", PyStr "Amazing Grace.mp3");
                     ("song1path", PyNone)] (key ++ "path") (PyStr ""))
               = true)
  /\ (forall e, fst out = Raised e -> exn_cls e = TypeError).
Proof.
  apply (update_song_display_needs_text_paths true
           {| json_path := "selections.json"; data := PyDict null_path_doc |}
           null_path_doc
           [("song1", PyStr "Amazing Grace.mp3"); ("song1path", PyNone)]
           fresh_song_vars "01/01/2099").
  - reflexivity.
  - reflexivity.
Defined.

(** ** Refreshing the window *)

Lemma select_date_window (windows : bool) (self : ServiceDataManager.t)
    (date : string) (w : window) :
  let w' := snd (select_date windows self date w) in
  date_var w' = date
  /\ date_values w' = date_values w
  /\ feedback w' = feedback w
  /\ current_service w' = current_service w
  /\ upload_button w' = upload_button w
  /\ fst (select_date windows self date w)
     = fst (update_song_display windows (Some self) (song_texts w) date)
  /\ song_texts w'
     = snd (update_song_display windows (Some self) (song_texts w) date).
Proof.
  cbv zeta. unfold select_date. cbn [song_texts set_date_var].
  destruct (update_song_display windows (Some self) (song_texts w) date)
    as [r texts].
  repeat split.
Qed.

Definition refresh_failed : string * string :=
  ("❌ Failed to refresh data", "red").

Definition refresh_done : string * string :=
  ("✅ Data refreshed successfully", "blue").

(** X20.  A refresh that cannot load the schedule (the file is missing,
    cannot be opened or cannot be decoded) says so and changes nothing
    else: the manager keeps its document, and the selected date, the
    dates on offer and the songs shown stay as they were. *)
Theorem refresh_data_failed_load (windows : bool)
    (json_load : string -> result pyval) (fs : string -> file)
    (self : ServiceDataManager.t) (w : window) :
  fs (json_path self) = Missing
  \/ (exists e, fs (json_path self) = Unreadable e)
  \/ (exists text e,
        fs (json_path self) = Content text /\ json_load text = Raised e) ->
  exists w',
    refresh_data windows json_load fs (Some self) w
    = (Returned tt, Some self, w')
    /\ feedback w' = refresh_failed
    /\ date_var w' = date_var w
    /\ date_values w' = date_values w
    /\ song_texts w' = song_texts w
    /\ current_service w' = current_service w.
Proof.
  intros Hfile. unfold refresh_data. rewrite load_data_value.
  assert (Hload : match fs (json_path self) with
                  | Content text =>
                      match json_load text with
                      | Returned v =>
                          Returned
                            ({| json_path := json_path self; data := v |},
                             true)
                      | Raised _ => Returned (self, false)
                      end
                  | _ => Returned (self, false)
                  end = Returned (self, false)).
  { destruct Hfile as [-> | [[e ->] | [text [e [-> ->]]]]]; reflexivity. }
  rewrite Hload. eexists. split; [reflexivity |]. repeat split.
Qed.

Lemma refresh_data_failed_load_witness :
  exists w',
    refresh_data true toy_json_load (toy_fs Missing) (Some scenario)
      (mk_window "01/01/2099" ["01/01/2020"; "01/01/2099"] fresh_song_vars
         ("", "green") "" ("normal", "Activate Service"))
    = (Returned tt, Some scenario, w')
    /\ feedback w' = refresh_failed
    /\ date_var w' = "01/01/2099"
    /\ date_values w' = ["01/01/2020"; "01/01/2099"]
    /\ song_texts w' = fresh_song_vars
    /\ current_service w' = "".
Proof.
  apply (refresh_data_failed_load true toy_json_load (toy_fs Missing)
           scenario
           (mk_window "01/01/2099" ["01/01/2020"; "01/01/2099"]
              fresh_song_vars ("", "green") ""
              ("normal", "Activate Service"))).
  left. reflexivity.
Defined.

Lemma existsb_eqb_In (x : string) (l : list string) :
  existsb (String.eqb x) l = true <-> In x l.
Proof.
  rewrite existsb_exists. split.
  - intros [y [Hy Heq]]. apply String.eqb_eq in Heq. subst y. exact Hy.
  - intros H. exists x. split; [exact H | apply String.eqb_refl].
Qed.

(** X21.  A refresh that loads a schedule whose keys all parse offers
    the dates of the new schedule in calendar order.  It keeps the
    selected date when the new schedule still has it, and otherwise
    selects the earliest date; so the selection is one of the dates on
    offer, unless the new schedule is empty: then the old selection and
    the songs shown are left as they were, and success is reported all
    the same. *)
Theorem refresh_data_keeps_or_moves_selection (windows : bool)
    (json_load : string -> result pyval) (fs : string -> file)
    (self : ServiceDataManager.t) (w : window) (text : string)
    (d : dict pyval) :
  fs (json_path self) = Content text ->
  json_load text = Returned (PyDict d) ->
  Forall parses (dict_keys d) ->
  let loaded := {| json_path := json_path self; data := PyDict d |} in
  exists dates r w',
    get_sorted_dates loaded = Returned dates
    /\ refresh_data windows json_load fs (Some self) w
       = (r, Some loaded, w')
    /\ date_values w' = dates
    /\ (In (date_var w) dates -> date_var w' = date_var w)
    /\ (~ In (date_var w) dates -> dates <> [] ->
        hd_error dates = Some (date_var w'))
    /\ (dates <> [] -> In (date_var w') dates)
    /\ (dates = [] ->
        r = Returned tt
        /\ w' = set_feedback (set_date_values w [])
                  (fst refresh_done) (snd refresh_done))
    /\ (r = Returned tt -> feedback w' = refresh_done).
Proof.
  intros Hfile Hjson Hparse loaded.
  assert (Hdates : exists dates, get_sorted_dates loaded = Returned dates).
  { unfold get_sorted_dates, loaded. cbn [data as_dict bind].
    rewrite (sorted_dates_value _ Hparse). eauto. }
  destruct Hdates as [dates Hdates]. exists dates.
  unfold refresh_data. rewrite load_data_value, Hfile, Hjson.
  fold loaded. rewrite Hdates.
  destruct (existsb (String.eqb (date_var w)) dates) eqn:Hprev.
  - apply existsb_eqb_In in Hprev.
    pose proof (select_date_window windows loaded (date_var w)
                  (set_date_values w dates)) as Hsel.
    cbv zeta in Hsel.
    destruct (select_date windows loaded (date_var w)
                (set_date_values w dates)) as [r w1].
    cbn [fst snd] in Hsel.
    destruct Hsel as (Hvar & Hvalues & Hfeed & _).
    destruct r as [[] | e].
    + do 2 eexists. split; [reflexivity |]. split; [reflexivity |].
      cbn [set_feedback date_values date_var feedback].
      split; [exact Hvalues |]. split; [intros _; exact Hvar |].
      split; [contradiction |].
      split; [intros _; rewrite Hvar; exact Hprev |].
      split; [| reflexivity].
      intros ->. destruct Hprev.
    + do 2 eexists. split; [reflexivity |]. split; [reflexivity |].
      split; [exact Hvalues |]. split; [intros _; exact Hvar |].
      split; [contradiction |].
      split; [intros _; rewrite Hvar; exact Hprev |].
      split; [| discriminate].
      intros ->. destruct Hprev.
  - assert (Hnot : ~ In (date_var w) dates).
    { intros H. apply existsb_eqb_In in H. congruence. }
    destruct dates as [| earliest dates].
    + do 2 eexists. split; [reflexivity |]. split; [reflexivity |].
      cbn [set_feedback set_date_values date_values date_var feedback].
      split; [reflexivity |]. split; [intros []|].
      split; [intros _ H; contradiction |].
      split; [intros H; contradiction |].
      split; [intros _; split; reflexivity | reflexivity].
    + pose proof (select_date_window windows loaded earliest
                    (set_date_values w (earliest :: dates))) as Hsel.
      cbv zeta in Hsel.
      destruct (select_date windows loaded earliest
                  (set_date_values w (earliest :: dates))) as [r w1].
      cbn [fst snd] in Hsel.
      destruct Hsel as (Hvar & Hvalues & Hfeed & _).
      destruct r as [[] | e];
        (do 2 eexists; split; [reflexivity |]; split; [reflexivity |]);
        cbn [set_feedback date_values date_var feedback];
        (split; [exact Hvalues |]);
        (split; [intros H; contradiction |]);
        (split; [intros _ _; rewrite Hvar; reflexivity |]);
        (split; [intros _; rewrite Hvar; left; reflexivity |]);
        (split; [discriminate |]); [reflexivity | discriminate].
Qed.

(** A decoder that knows the text of the example schedule. *)
Definition scenario_json_load (text : string) : result pyval :=
  if String.eqb text "scenario" then Returned (PyDict scenario_doc)
  else Raised (mk_exn JSONDecodeError "Expecting value").

Definition stale_window : window :=
  mk_window "25/12/2030" ["25/12/2030"] fresh_song_vars ("", "green") ""
    ("normal", "Activate Service").

Lemma refresh_data_keeps_or_moves_selection_witness :
  let loaded := {| json_path := "selections.json";
                   data := PyDict scenario_doc |} in
  exists dates r w',
    get_sorted_dates loaded = Returned dates
    /\ refresh_data true scenario_json_load (toy_fs (Content "scenario"))
         (Some {| json_path := "selections.json"; data := PyDict [] |})
         stale_window
       = (r, Some loaded, w')
    /\ date_values w' = dates
    /\ (In (date_var stale_window) dates ->
        date_var w' = date_var stale_window)
    /\ (~ In (date_var stale_window) dates -> dates <> [] ->
        hd_error dates = Some (date_var w'))
    /\ (dates <> [] -> In (date_var w') dates)
    /\ (dates = [] ->
        r = Returned tt
        /\ w' = set_feedback (set_date_values stale_window [])
                  (fst refresh_done) (snd refresh_done))
    /\ (r = Returned tt -> feedback w' = refresh_done).
Proof.
  apply (refresh_data_keeps_or_moves_selection true scenario_json_load
           (toy_fs (Content "scenario"))
           {| json_path := "selections.json"; data := PyDict [] |}
           stale_window "scenario" scenario_doc).
  - reflexivity.
  - reflexivity.
  - exact scenario_keys_parse.
Defined.

(** ** The first display *)

Definition no_data_found : string * string :=
  ("❌ No service data found in selections.json.", "red").

Definition error_loading : string * string :=
  ("❌ Error loading data", "red").

Definition defaulted_to_earliest : string * string :=
  ("⚠ No upcoming service found. Defaulted to earliest date.", "orange").

Lemma load_initial_data_value (windows : bool)
    (float_is_zero : string -> bool) (net : network) (today : date)
    (self : ServiceDataManager.t) (api : option CompanionAPI.t)
    (w : window) (log : list event) :
  ServiceManagerGUI.truthy float_is_zero (data self) = true ->
  load_initial_data windows float_is_zero net today (Some self) api w log
  = match load_initial_data_body windows net today self api w log with
    | (Returned _, w', log') => (Returned tt, w', log')
    | (Raised _, w', log') =>
        (Returned tt,
         set_feedback w' (fst error_loading) (snd error_loading), log')
    end.
Proof.
  intros Hdata. unfold load_initial_data. rewrite Hdata. cbn [negb].
  destruct (load_initial_data_body windows net today self api w log)
    as [[[[] | e] w'] log']; [reflexivity |].
  rewrite isinstance_Exception. reflexivity.
Qed.

(** X22.  The first display never raises.  Without a manager, and with
    a manager whose document is empty, it reports that no data was found.
    A document with one key that is not a date is reported as an error
    of loading: no date is offered or selected, no song is shown, and the
    target is not asked for its current date. *)
Theorem load_initial_data_without_schedule (windows : bool)
    (float_is_zero : string -> bool) (net : network) (today : date)
    (data_manager : option ServiceDataManager.t)
    (api : option CompanionAPI.t) (w : window) (log : list event) :
  let out := load_initial_data windows float_is_zero net today data_manager
               api w log in
  (exists w' log', out = (Returned tt, w', log'))
  /\ (data_manager = None
      \/ (exists self, data_manager = Some self /\ data self = PyDict []) ->
      out = (Returned tt,
             set_feedback w (fst no_data_found) (snd no_data_found), log))
  /\ (forall self d,
        data_manager = Some self -> data self = PyDict d ->
        ~ Forall parses (dict_keys d) ->
        out = (Returned tt,
               set_feedback w (fst error_loading) (snd error_loading), log)).
Proof.
  cbv zeta. split; [| split].
  - unfold load_initial_data.
    destruct data_manager as [self |]; [| eauto].
    destruct (negb (ServiceManagerGUI.truthy float_is_zero (data self)));
      [eauto |].
    destruct (load_initial_data_body windows net today self api w log)
      as [[[[] | e] w'] log']; [eauto |].
    rewrite isinstance_Exception. eauto.
  - intros [-> | [self [-> Hdata]]]; [reflexivity |].
    unfold load_initial_data. rewrite Hdata. reflexivity.
  - intros self d -> Hdata Hbad.
    assert (Hfull : ServiceManagerGUI.truthy float_is_zero (data self)
                    = true).
    { rewrite Hdata. destruct d; [| reflexivity].
      exfalso. apply Hbad. constructor. }
    rewrite (load_initial_data_value windows float_is_zero net today self
               api w log Hfull).
    unfold load_initial_data_body, get_sorted_dates. rewrite Hdata.
    cbn [as_dict bind]. unfold sorted.
    destruct (map_result_bad_key (dict_keys d) Hbad) as [msg ->].
    reflexivity.
Qed.

Lemma update_current_service_date_trace (net : network)
    (api : CompanionAPI.t) (log : list event) :
  snd (update_current_service_date net (Some api) log)
  = (log ++ [Get (CompanionAPI.base_url api ++ "/ServiceDate/value")])%list.
Proof.
  unfold update_current_service_date, io_bind.
  rewrite get_current_service_date_value.
  destruct (get_answer net log _) as [r | e].
  - destruct (error_status r); [reflexivity |].
    destruct (CompanionAPI.truthy _); reflexivity.
  - destruct (isinstance e RequestException); reflexivity.
Qed.

(** X23.  The first display of a schedule that is not empty and whose
    keys all parse offers its dates in calendar order and selects one of
    them: the nearest upcoming service when there is one, and otherwise
    the earliest date.  It shows the songs of the selected date.  When
    showing them fails, an error of loading is reported and the target is
    not asked.  When it does not fail, the target is asked once for its
    current date: the label of the current service is set to the answer,
    and the feedback is the warning when the earliest date was selected
    and left as it was otherwise; should asking raise, an error of
    loading is reported. *)
Theorem load_initial_data_selects_offered_date (windows : bool)
    (float_is_zero : string -> bool) (net : network) (today : date)
    (self : ServiceDataManager.t) (api : CompanionAPI.t)
    (w : window) (log : list event) (d : dict pyval) :
  data self = PyDict d ->
  d <> [] ->
  Forall parses (dict_keys d) ->
  exists dates nearest w' log',
    get_sorted_dates self = Returned dates
    /\ find_nearest_upcoming_service self today = Returned nearest
    /\ load_initial_data windows float_is_zero net today (Some self)
         (Some api) w log
       = (Returned tt, w', log')
    /\ date_values w' = dates
    /\ In (date_var w') dates
    /\ (forall k v, nearest = Some (k, v) -> date_var w' = k)
    /\ (nearest = None -> hd_error dates = Some (date_var w'))
    /\ upload_button w' = upload_button w
    /\ let shown :=
         update_song_display windows (Some self) (song_texts w)
           (date_var w') in
       song_texts w' = snd shown
       /\ match fst shown with
          | Raised _ =>
              log' = log
              /\ feedback w' = error_loading
              /\ current_service w' = current_service w
          | Returned _ =>
              log' = (log ++ [Get (CompanionAPI.base_url api
                                   ++ "/ServiceDate/value")])%list
              /\ match fst (update_current_service_date net (Some api) log)
                 with
                 | Returned label =>
                     current_service w' = label
                     /\ feedback w'
                        = match nearest with
                          | Some _ => feedback w
                          | None => defaulted_to_earliest
                          end
                 | Raised _ =>
                     current_service w' = current_service w
                     /\ feedback w' = error_loading
                 end
          end.
Proof.
  intros Hdata Hfull Hparse.
  assert (Htruthy : ServiceManagerGUI.truthy float_is_zero (data self)
                    = true).
  { rewrite Hdata. destruct d; [contradiction | reflexivity]. }
  rewrite (load_initial_data_value windows float_is_zero net today self
             (Some api) w log Htruthy).
  unfold load_initial_data_body.
  rewrite (find_nearest_as_find self d today Hdata Hparse).
  assert (Hdates : get_sorted_dates self
                   = Returned (map (fun p => fst (snd p))
                                 (dated_entries d))).
  { unfold get_sorted_dates. rewrite Hdata. cbn [as_dict bind].
    rewrite (sorted_dates_value _ Hparse), sorted_dates_entries.
    reflexivity. }
  rewrite Hdates.
  set (dates := map (fun p => fst (snd p)) (dated_entries d)).
  exists dates,
    (option_map snd
       (find (fun p => date_ge (date_of (fst (snd p))) today)
          (dated_entries d))).
  assert (Hsome : dates <> []).
  { unfold dates, dated_entries. intros Hnil.
    apply (f_equal (@List.length _)) in Hnil.
    rewrite length_map in Hnil.
    rewrite (Permutation_length (sort_keyed_perm date_lt _)) in Hnil.
    rewrite length_map in Hnil. destruct d; [contradiction | discriminate]. }
  pose proof (update_current_service_date_trace net api log) as Htrace.
  destruct (find _ (dated_entries d)) as [[dt [k v]] |] eqn:Hfind;
    cbn [option_map snd].
  - assert (Hin : In k dates).
    { apply find_some in Hfind. destruct Hfind as [Hin _].
      unfold dates. apply in_map_iff. exists (dt, (k, v)). auto. }
    pose proof (select_date_window windows self k
                  (set_date_values w dates)) as Hsel.
    cbv zeta in Hsel.
    destruct (select_date windows self k (set_date_values w dates))
      as [r w1].
    cbn [fst snd] in Hsel.
    destruct Hsel as (Hvar & Hvalues & Hfeed & Hcur & Hbutton & Hr & Htexts).
    cbn [set_date_values date_values feedback current_service upload_button
           song_texts] in Hvalues, Hfeed, Hcur, Hbutton, Hr, Htexts.
    destruct r as [[] | e].
    + destruct (update_current_service_date net (Some api) log)
        as [[label | e] log1]; cbn [fst snd] in Htrace |- *; subst log1;
        do 2 eexists; (split; [reflexivity |]); (split; [reflexivity |]);
        (split; [reflexivity |]);
        cbn [set_current_service set_feedback date_values date_var feedback
               current_service upload_button song_texts];
        rewrite Hvar, <- Hr;
        (split; [exact Hvalues |]); (split; [exact Hin |]);
        (split; [intros k' v' H; injection H as <- _; reflexivity |]);
        (split; [discriminate |]);
        (split; [exact Hbutton |]); (split; [exact Htexts |]);
        (split; [reflexivity |]).
      * split; [reflexivity | exact Hfeed].
      * split; [exact Hcur | reflexivity].
    + do 2 eexists. split; [reflexivity |]. split; [reflexivity |].
      split; [reflexivity |].
      cbn [set_feedback date_values date_var feedback current_service
             upload_button song_texts].
      rewrite Hvar, <- Hr.
      split; [exact Hvalues |]. split; [exact Hin |].
      split; [intros k' v' H; injection H as <- _; reflexivity |].
      split; [discriminate |].
      split; [exact Hbutton |]. split; [exact Htexts |].
      split; [reflexivity |]. split; [reflexivity | exact Hcur].
  - destruct dates as [| earliest rest] eqn:Hd; [contradiction |].
    pose proof (select_date_window windows self earliest
                  (set_date_values w (earliest :: rest))) as Hsel.
    cbv zeta in Hsel.
    destruct (select_date windows self earliest
                (set_date_values w (earliest :: rest))) as [r w1].
    cbn [fst snd] in Hsel.
    destruct Hsel as (Hvar & Hvalues & Hfeed & Hcur & Hbutton & Hr & Htexts).
    cbn [set_date_values date_values feedback current_service upload_button
           song_texts] in Hvalues, Hfeed, Hcur, Hbutton, Hr, Htexts.
    destruct r as [[] | e].
    + destruct (update_current_service_date net (Some api) log)
        as [[label | e] log1]; cbn [fst snd] in Htrace |- *; subst log1;
        do 2 eexists; (split; [reflexivity |]); (split; [reflexivity |]);
        (split; [reflexivity |]);
        cbn [set_current_service set_feedback date_values date_var feedback
               current_service upload_button song_texts];
        rewrite Hvar, <- Hr;
        (split; [exact Hvalues |]); (split; [left; reflexivity |]);
        (split; [discriminate |]);
        (split; [reflexivity |]);
        (split; [exact Hbutton |]); (split; [exact Htexts |]);
        (split; [reflexivity |]).
      * split; reflexivity.
      * split; [exact Hcur | reflexivity].
    + do 2 eexists. split; [reflexivity |]. split; [reflexivity |].
      split; [reflexivity |].
      cbn [set_feedback date_values date_var feedback current_service
             upload_button song_texts].
      rewrite Hvar, <- Hr.
      split; [exact Hvalues |]. split; [left; reflexivity |].
      split; [discriminate |]. split; [reflexivity |].
      split; [exact Hbutton |]. split; [exact Htexts |].
      split; [reflexivity |]. split; [reflexivity | exact Hcur].
Qed.

Lemma load_initial_data_selects_offered_date_witness :
  exists dates nearest w' log',
    get_sorted_dates scenario = Returned dates
    /\ find_nearest_upcoming_service scenario (mk_date 2100 1 1)
       = Returned nearest
    /\ load_initial_data true (fun _ => false) (net_up 200)
         (mk_date 2100 1 1) (Some scenario)
         (Some (CompanionAPI.init "10.0.0.5")) stale_window []
       = (Returned tt, w', log')
    /\ date_values w' = dates
    /\ In (date_var w') dates
    /\ (forall k v, nearest = Some (k, v) -> date_var w' = k)
    /\ (nearest = None -> hd_error dates = Some (date_var w'))
    /\ upload_button w' = upload_button stale_window
    /\ let shown :=
         update_song_display true (Some scenario) (song_texts stale_window)
           (date_var w') in
       song_texts w' = snd shown
       /\ match fst shown with
          | Raised _ =>
              log' = []
              /\ feedback w' = error_loading
              /\ current_service w' = current_service stale_window
          | Returned _ =>
              log' = ([] ++ [Get (CompanionAPI.base_url
                                    (CompanionAPI.init "10.0.0.5")
                                  ++ "/ServiceDate/value")])%list
              /\ match fst (update_current_service_date (net_up 200)
                              (Some (CompanionAPI.init "10.0.0.5")) [])
                 with
                 | Returned label =>
                     current_service w' = label
                     /\ feedback w'
                        = match nearest with
                          | Some _ => feedback stale_window
                          | None => defaulted_to_earliest
                          end
                 | Raised _ =>
                     current_service w' = current_service stale_window
                     /\ feedback w' = error_loading
                 end
          end.
Proof.
  apply (load_initial_data_selects_offered_date true (fun _ => false)
           (net_up 200) (mk_date 2100 1 1) scenario
           (CompanionAPI.init "10.0.0.5") stale_window [] scenario_doc).
  - reflexivity.
  - discriminate.
  - exact scenario_keys_parse.
Defined.

(** All services past: the earliest date is selected, its songs are
    shown, the warning is set, and the target is asked once. *)
Example first_display_all_past :
  load_initial_data true (fun _ => false) (net_up 200) (mk_date 2100 1 1)
    (Some scenario) (Some (CompanionAPI.init "10.0.0.5")) stale_window []
  = (Returned tt,
     mk_window "01/01/2020" ["01/01/2020"; "01/01/2099"]
       (("song1", "Old Song")
        :: map (fun key => (key, "none")) (tl song_var_keys))
       defaulted_to_earliest "Current Service Date: 01/01/2099"
       ("normal", "Activate Service"),
     [Get "http://10.0.0.5:8000/api/custom-variable/ServiceDate/value"]).
Proof. reflexivity. Qed.

(** A path that is not a text: the songs cannot be shown, an error of
    loading is reported, and the target is not asked. *)
Example first_display_unreadable_path :
  load_initial_data true (fun _ => false) (net_up 200) (mk_date 2024 6 1)
    (Some {| json_path := "selections.json";
             data := PyDict [("01/01/2099",
                              PyDict [("song1", PyStr "Amazing Grace");
                                      ("song1path", PyNone)])] |})
    (Some (CompanionAPI.init "10.0.0.5")) stale_window []
  = (Returned tt,
     mk_window "01/01/2099" ["01/01/2099"] fresh_song_vars error_loading ""
       ("normal", "Activate Service"),
     []).
Proof. reflexivity. Qed.

(** ** Activating a service *)

Definition not_configured : Tk.ui_event :=
  Tk.ShowError "Error" "API or data manager not configured".

Definition upload_failed : string * string := ("❌ Upload failed", "red").

Definition button_ready : string * string := ("normal", "Activate Service").

(** The label after an activation, with what is added for VLC. *)
Definition activated (date note : string) : string * string :=
  (("Service for " ++ date ++ " activated!") ++ note, "green").

Definition is_warning (dialog : Tk.ui_event) : bool :=
  match dialog with
  | Tk.ShowWarning _ _ => true
  | _ => false
  end.

Lemma open_first_folder_returns (m : machine) (folders : list string) :
  exists opened, fst (open_first_folder m folders) = Returned opened.
Proof.
  induction folders as [| folder folders IH]; [eexists; reflexivity |].
  cbn [open_first_folder]. destruct (os_path_exists m folder); [| exact IH].
  destruct (subprocess_run m _) as [u | [| | e]];
    [eexists; reflexivity | | |];
    try rewrite isinstance_Exception;
    destruct (open_first_folder m folders) as [r events]; exact IH.
Qed.

Lemma open_vlc_folder_outcome (m : machine) (s : world) :
  exists s' shown,
    open_vlc_folder m s = (Returned tt, s')
    /\ win s' = win s
    /\ calls s' = calls s
    /\ dialogs s' = (dialogs s ++ shown)%list
    /\ forallb (fun d => negb (is_warning d)) shown = true.
Proof.
  unfold open_vlc_folder.
  destruct (open_first_folder_returns m vlc_folders) as [opened Hopened].
  destruct (open_first_folder m vlc_folders) as [r events].
  cbn [fst] in Hopened. subst r. destruct opened.
  - exists (ran s events), []. rewrite app_nil_r. repeat split.
  - eexists. eexists. split; [reflexivity |]. repeat split.
Qed.

(** The note that the label gets when VLC was started. *)
Definition vlc_note (m : machine) : string :=
  match fst (VLCLauncher.launch_vlc m) with
  | Returned true => " VLC launched."
  | _ => ""
  end.

Lemma gui_launch_vlc_outcome (m : machine) (answer : bool) (s : world) :
  (forall e, fst (VLCLauncher.launch_vlc m) <> Raised e) ->
  exists s' shown,
    ServiceManagerGUI.launch_vlc m answer s = (Returned tt, s')
    /\ calls s' = calls s
    /\ dialogs s' = (dialogs s ++ shown)%list
    /\ forallb (fun d => negb (is_warning d)) shown = true
    /\ feedback (win s')
       = (fst (feedback (win s)) ++ vlc_note m, snd (feedback (win s)))
    /\ upload_button (win s') = upload_button (win s)
    /\ date_var (win s') = date_var (win s)
    /\ current_service (win s') = current_service (win s).
Proof.
  intros Hquiet. unfold ServiceManagerGUI.launch_vlc, vlc_note.
  destruct (VLCLauncher.launch_vlc m) as [[[|] | e] events] eqn:Hlaunch;
    cbn [fst] in *.
  - eexists. exists []. split; [reflexivity |]. rewrite app_nil_r.
    repeat split.
  - destruct answer.
    + match goal with
      | |- context [open_vlc_folder m ?s0] =>
          destruct (open_vlc_folder_outcome m s0)
            as (s' & shown & -> & Hwin & Hcalls & Hdialogs & Hshown)
      end.
      exists s'. eexists. split; [reflexivity |].
      rewrite Hwin, Hcalls, Hdialogs.
      cbn [showed ran win calls dialogs].
      split; [reflexivity |].
      split; [rewrite <- app_assoc; reflexivity |].
      split; [cbn [app forallb is_warning negb andb]; exact Hshown |].
      rewrite append_empty_r. destruct (feedback (win s)). repeat split.
    + eexists. eexists. split; [reflexivity |].
      cbn [showed ran win calls dialogs]. split; [reflexivity |].
      split; [reflexivity |]. split; [reflexivity |].
      rewrite append_empty_r. destruct (feedback (win s)). repeat split.
  - exfalso. exact (Hquiet e eq_refl).
Qed.

(** X24.  [upload_data] never raises, and whatever happens it leaves the
    button enabled with its text restored.  Without an API object or a
    manager it shows the error and does nothing else.  When the record
    of the selected date cannot be read, it makes no call and starts no
    process, shows the error and marks the upload as failed. *)
Theorem upload_data_restores_button (net : network) (m : machine)
    (py_str : pyval -> string) (answer : bool)
    (api : option CompanionAPI.t)
    (data_manager : option ServiceDataManager.t) (s : world) :
  let out := upload_data net m py_str answer api data_manager s in
  (exists s', out = (Returned tt, s'))
  /\ (api = None \/ data_manager = None ->
      out = (Returned tt, showed s not_configured))
  /\ (forall a dm, api = Some a -> data_manager = Some dm ->
                   upload_button (win (snd out)) = button_ready)
  /\ (forall a dm e,
        api = Some a -> data_manager = Some dm ->
        get_service_data dm (date_var (win s)) = Raised e ->
        calls (snd out) = calls s
        /\ processes (snd out) = processes s
        /\ dialogs (snd out)
           = (dialogs s
              ++ [Tk.ShowError "Error" ("Upload failed: " ++ exn_str e)])%list
        /\ feedback (win (snd out)) = upload_failed).
Proof.
  cbv zeta. unfold upload_data. split; [| split; [| split]].
  - destruct api as [a |]; [| eauto].
    destruct data_manager as [dm |]; [| eauto].
    destruct (upload_data_body net m py_str answer a dm _)
      as [[[] | e] s1]; [eauto |].
    rewrite isinstance_Exception. eauto.
  - intros [-> | ->]; [reflexivity |]. destruct api; reflexivity.
  - intros a dm -> ->.
    destruct (upload_data_body net m py_str answer a dm _)
      as [[[] | e] s1]; [reflexivity |].
    rewrite isinstance_Exception. reflexivity.
  - intros a dm e -> -> Hrecord. unfold upload_data_body.
    cbn [with_win win set_upload_button date_var]. rewrite Hrecord.
    rewrite isinstance_Exception. repeat split.
Qed.

Lemma current_service_date_fetched (net : network) (api : CompanionAPI.t)
    (log : list event) :
  (forall log' url e,
     get_answer net log' url = Raised e ->
     isinstance e RequestException = true) ->
  exists label,
    update_current_service_date net (Some api) log
    = (Returned label,
       (log ++ [Get (CompanionAPI.base_url api
                     ++ "/ServiceDate/value")])%list).
Proof.
  intros Honly. unfold update_current_service_date, io_bind.
  rewrite get_current_service_date_value.
  destruct (get_answer net log _) as [r | e] eqn:Hget.
  - destruct (error_status r); [eexists; reflexivity |].
    destruct (CompanionAPI.truthy _); eexists; reflexivity.
  - rewrite (Honly _ _ _ Hget). eexists. reflexivity.
Qed.

(** X25.  When the record of the selected date can be read and the
    network raises request errors only, [upload_data] makes the writes of
    a push and then asks the target for its date, and the label reads that
    the service was activated, in green, however many of the writes
    failed, all of them included.  The failures only show in a warning,
    which appears exactly when at least one write failed. *)
Theorem upload_data_reports_activation (net : network) (m : machine)
    (py_str : pyval -> string) (answer : bool) (api : CompanionAPI.t)
    (data_manager : ServiceDataManager.t) (s : world)
    (fields : dict pyval) :
  get_service_data data_manager (date_var (win s)) = Returned fields ->
  only_request_errors net ->
  (forall log url e,
     get_answer net log url = Raised e ->
     isinstance e RequestException = true) ->
  (forall e, fst (VLCLauncher.launch_vlc m) <> Raised e) ->
  let date := date_var (win s) in
  let writes := push_calls api (map_values py_str fields) date in
  exists s' shown,
    upload_data net m py_str answer (Some api) (Some data_manager) s
    = (Returned tt, s')
    /\ calls s'
       = (calls s ++ writes
          ++ [Get (CompanionAPI.base_url api ++ "/ServiceDate/value")])%list
    /\ feedback (win s') = activated date (vlc_note m)
    /\ dialogs s' = (dialogs s ++ shown)%list
    /\ (existsb is_warning shown = true
        <-> failed_calls net (calls s) writes <> 0%nat)
    /\ upload_button (win s') = button_ready
    /\ date_var (win s') = date.
Proof.
  intros Hfields Hposts Hgets Hvlc. cbv zeta.
  unfold upload_data, upload_data_body.
  cbn [with_win win calls set_upload_button date_var].
  rewrite Hfields.
  destruct (push_run net api (map_values py_str fields) (date_var (win s))
              (calls s) Hposts) as [errors [-> Hlen]].
  set (writes := push_calls api (map_values py_str fields)
                   (date_var (win s))) in *.
  set (warned :=
         match errors with
         | [] => _
         | _ :: _ => _
         end).
  destruct (current_service_date_fetched net api (calls s ++ writes)%list
              Hgets) as [label Hlabel].
  assert (Hwarned : calls warned = (calls s ++ writes)%list
                    /\ date_var (win warned) = date_var (win s)
                    /\ exists shown0,
                         dialogs warned = (dialogs s ++ shown0)%list
                         /\ (existsb is_warning shown0 = true
                             <-> failed_calls net (calls s) writes <> 0%nat)
                         /\ forall more,
                              forallb (fun d => negb (is_warning d)) more
                              = true ->
                              existsb is_warning (shown0 ++ more)
                              = existsb is_warning shown0).
  { assert (Hmore : forall more,
              forallb (fun d => negb (is_warning d)) more = true ->
              existsb is_warning more = false).
    { induction more as [| x more IH]; [reflexivity |].
      cbn [forallb existsb]. intros H. apply andb_true_iff in H.
      destruct H as [Hx Hrest]. apply negb_true_iff in Hx.
      rewrite Hx, (IH Hrest). reflexivity. }
    unfold warned. destruct errors as [| err errors].
    - split; [reflexivity |]. split; [reflexivity |].
      exists []. rewrite app_nil_r.
      split; [reflexivity |]. split.
      + cbn [existsb]. rewrite <- Hlen. cbn. split; [discriminate | tauto].
      + intros more H. cbn [app]. rewrite (Hmore more H). reflexivity.
    - split; [reflexivity |]. split; [reflexivity |].
      eexists. split; [reflexivity |]. split.
      + cbn [existsb is_warning orb]. rewrite <- Hlen.
        split; [discriminate | reflexivity].
      + intros more H. reflexivity. }
  clearbody warned.
  destruct Hwarned as (Hcalls & Hdate & shown0 & Hdialogs & Hiff & Hmore).
  cbn [with_win win calls]. rewrite Hcalls, Hlabel.
  match goal with
  | |- context [ServiceManagerGUI.launch_vlc m answer ?s0] =>
      destruct (gui_launch_vlc_outcome m answer s0 Hvlc)
        as (s1 & shown1 & -> & Hcalls1 & Hdialogs1 & Hshown1 & Hfeed1
            & Hbutton1 & Hdate1 & _)
  end.
  cbn [with_win with_calls win calls dialogs set_current_service
         set_feedback feedback upload_button date_var fst snd]
    in Hcalls1, Hdialogs1, Hfeed1, Hbutton1, Hdate1.
  exists (with_win s1 (set_upload_button (win s1) "normal" "Activate Service")),
    (shown0 ++ shown1)%list.
  split; [reflexivity |].
  cbn [with_win win calls dialogs set_upload_button feedback upload_button
         date_var].
  split; [rewrite Hcalls1, <- app_assoc; reflexivity |].
  split; [rewrite Hfeed1; reflexivity |].
  split; [rewrite Hdialogs1, Hdialogs, <- app_assoc; reflexivity |].
  split; [rewrite (Hmore shown1 Hshown1); exact Hiff |].
  split; [reflexivity | rewrite Hdate1; exact Hdate].
Qed.

(** A machine with VLC installed in the first of the usual places. *)
Definition vlc_machine : machine :=
  {| os_path_exists := fun path =>
       String.eqb path "C:\Program Files\VideoLAN\VLC\vlc.exe";
     USERNAME := Some "operator";
     subprocess_run := fun _ => inl tt;
     subprocess_Popen := fun _ => Returned tt |}.

(** [str] on the values of the examples: strings only. *)
Definition str_of_text (v : pyval) : string :=
  match v with
  | PyStr s => s
  | _ => ""
  end.

Definition stale_world : world :=
  {| win := stale_window; calls := []; processes := []; dialogs := [] |}.

Lemma upload_data_reports_activation_witness :
  let writes :=
    push_calls (CompanionAPI.init "10.0.0.5")
      (map_values str_of_text all_none) "25/12/2030" in
  exists s' shown,
    upload_data net_down vlc_machine str_of_text false
      (Some (CompanionAPI.init "10.0.0.5")) (Some scenario) stale_world
    = (Returned tt, s')
    /\ calls s'
       = ([] ++ writes
          ++ [Get (CompanionAPI.base_url (CompanionAPI.init "10.0.0.5")
                   ++ "/ServiceDate/value")])%list
    /\ feedback (win s') = activated "25/12/2030" (vlc_note vlc_machine)
    /\ dialogs s' = ([] ++ shown)%list
    /\ (existsb is_warning shown = true
        <-> failed_calls net_down [] writes <> 0%nat)
    /\ upload_button (win s') = button_ready
    /\ date_var (win s') = "25/12/2030".
Proof.
  apply (upload_data_reports_activation net_down vlc_machine str_of_text
           false (CompanionAPI.init "10.0.0.5") scenario stale_world
           all_none).
  - reflexivity.
  - intros log url e H. injection H as <-. reflexivity.
  - intros log url e H. injection H as <-. reflexivity.
  - intros e H. vm_compute in H. discriminate H.
Defined.
